(** * AIShoppingOCR: the shopping-history component ([src/App.tsx])

    A shallow embedding of the logic of the [App] React component and of the
    record types of [src/types.ts]: the record store (add, delete, load,
    save), the history view filter, the analysis form and the image
    preprocessor's dimension computation.

    JavaScript values are modelled as the language defines them: strings are
    sequences of UTF-16 code units, numbers are IEEE-754 binary64 values
    (the Standard Library's [spec_float] at precision 53), arrays live in a
    heap and are passed by reference. *)

From Stdlib Require Import Ascii String.
From Stdlib Require Import ZArith NArith List Bool Lia Permutation Sorted.
From Stdlib Require Import SpecFloat.
From stdpp Require Import gmap.
Import ListNotations.

Local Open Scope Z_scope.

(** ** JavaScript strings *)

Module JSString.

(** A string value is a finite sequence of 16-bit code units. *)
Definition t := list N.

(** Literals of the development are written as ASCII text. *)
Definition js (s : string) : t := map N_of_ascii (list_ascii_of_string s).

Definition eqb (a b : t) : bool := bool_decide (a = b).

(** [ToBoolean] of a string: only the empty string is falsy. *)
Definition truthy (s : t) : bool :=
  match s with [] => false | _ :: _ => true end.

(** ECMAScript [WhiteSpace] and [LineTerminator] code points, the ones that
    [String.prototype.trim] strips. *)
Definition isWhiteSpace (c : N) : bool :=
  let c := Z.of_N c in
  ((9 <=? c) && (c <=? 13))
  || (c =? 32) || (c =? 160) || (c =? 5760)
  || ((8192 <=? c) && (c <=? 8202))
  || (c =? 8232) || (c =? 8233) || (c =? 8239) || (c =? 8287)
  || (c =? 12288) || (c =? 65279).

Fixpoint trimStart (s : t) : t :=
  match s with
  | c :: s' => if isWhiteSpace c then trimStart s' else s
  | [] => []
  end.

Definition trimEnd (s : t) : t := rev (trimStart (rev s)).

(** [String.prototype.trim] *)
Definition trim (s : t) : t := trimEnd (trimStart s).

Fixpoint startsWith (s p : t) : bool :=
  match p, s with
  | [], _ => true
  | _ :: _, [] => false
  | a :: p', b :: s' => (a =? b)%N && startsWith s' p'
  end.

(** [String.prototype.includes]: [p] occurs in [s] at some position. *)
Fixpoint includes (s p : t) : bool :=
  startsWith s p ||
  match s with
  | [] => false
  | _ :: s' => includes s' p
  end.

(** [s.split(sep)[0]] for a one-unit separator: the text before the first
    occurrence of [sep] (all of [s] when there is none). *)
Fixpoint beforeFirst (sep : N) (s : t) : t :=
  match s with
  | [] => []
  | c :: s' => if (c =? sep)%N then [] else c :: beforeFirst sep s'
  end.

(** [s.split(sep)[1]] for a one-unit separator: the text between the
    first and the second occurrence of [sep]; [None], for [undefined],
    when [sep] does not occur. *)
Fixpoint secondPiece (sep : N) (s : t) : option t :=
  match s with
  | [] => None
  | c :: s' => if (c =? sep)%N then Some (beforeFirst sep s') else secondPiece sep s'
  end.

(** The occurrence relation that [includes] decides. *)
Definition occursIn (p s : t) : Prop := exists u v, s = u ++ p ++ v.

End JSString.

Abbreviation jsstring := JSString.t.
Abbreviation js := JSString.js.

(** ** JavaScript numbers: IEEE-754 binary64 *)

Module Number.

Definition prec : Z := 53.
Definition emax : Z := 1024.

Definition t := spec_float.

Definition NaN : t := S754_nan.
Definition zero : t := S754_zero false.

(** The number nearest to an integer (exact up to 2^53). *)
Definition of_Z (z : Z) : t := binary_normalize prec emax z 0 false.

Definition mul : t -> t -> t := SFmul prec emax.
Definition div : t -> t -> t := SFdiv prec emax.

(** [a > b], [a >= b]: false as soon as an operand is NaN. *)
Definition gtb (a b : t) : bool := SFltb b a.
Definition geb (a b : t) : bool := SFleb b a.

Definition isFinite (x : t) : bool :=
  match x with
  | S754_zero _ | S754_finite _ _ _ => true
  | _ => false
  end.

(** The integer part of a number, rounding toward zero; 0 for NaN and the
    infinities (the [IntegerPart] step of the Web IDL conversions). *)
Definition truncate (x : t) : Z :=
  match x with
  | S754_finite s m e =>
      let a := match e with
               | Zneg k => Z.shiftr (Zpos m) (Zpos k)
               | _ => Z.shiftl (Zpos m) e
               end in
      if s then - a else a
  | _ => 0
  end.

(** Web IDL conversion of a number to [unsigned long], the type of
    [HTMLCanvasElement.width] and [.height]. *)
Definition toUnsignedLong (x : t) : Z := truncate x mod 2 ^ 32.

(** The decimal text of an integer, as a template literal renders a
    number that is a small integer. *)
Fixpoint decimalDigits (fuel : nat) (z : Z) (acc : jsstring) : jsstring :=
  match fuel with
  | O => acc
  | S fuel' =>
      let acc' := Z.to_N (48 + z mod 10) :: acc in
      if z <? 10 then acc' else decimalDigits fuel' (z / 10) acc'
  end.

Definition integerText (z : Z) : jsstring :=
  if z <? 0 then 45%N :: decimalDigits 24 (- z) [] else decimalDigits 24 z [].

(** *** [parseFloat] *)

Definition digitValue (c : N) : option Z :=
  if ((48 <=? c) && (c <=? 57))%N then Some (Z.of_N c - 48) else None.

(** The longest run of decimal digits at the head of [s], most significant
    digit first, and the rest of [s]. *)
Fixpoint takeDigits (s : jsstring) : list Z * jsstring :=
  match s with
  | c :: s' =>
      match digitValue c with
      | Some d => let '(ds, r) := takeDigits s' in (d :: ds, r)
      | None => ([], s)
      end
  | [] => ([], [])
  end.

Definition digitsValue (ds : list Z) : Z :=
  fold_left (fun acc d => 10 * acc + d) ds 0.

Definition takeSign (s : jsstring) : bool * jsstring :=
  match s with
  | 45%N :: s' => (true, s')
  | 43%N :: s' => (false, s')
  | _ => (false, s)
  end.

(** The binary64 value nearest to [m * 10^e] (ties to even), [m > 0]. *)
Definition ofDecimal (neg : bool) (m : positive) (e : Z) : t :=
  match e with
  | Zneg k => SFdiv prec emax (S754_finite neg m 0)
                              (S754_finite false (10 ^ k)%positive 0)
  | _ => binary_normalize prec emax
           (if neg then - (Zpos m * 10 ^ e) else Zpos m * 10 ^ e) 0 false
  end.

(** [ExponentPart]: [e] or [E], an optional sign and at least one digit;
    0 when the text does not continue with one. *)
Definition takeExponent (s : jsstring) : Z :=
  match s with
  | c :: s' =>
      if ((c =? 101) || (c =? 69))%N then
        let '(neg, s'') := takeSign s' in
        match takeDigits s'' with
        | ([], _) => 0
        | (ds, _) => if neg then - digitsValue ds else digitsValue ds
        end
      else 0
  | [] => 0
  end.

(** [parseFloat(s)]: skip leading white space, read the longest prefix
    that is a [StrDecimalLiteral], and round its value; NaN when there is
    no such prefix. *)
Definition parseFloat (s : jsstring) : t :=
  let '(neg, s1) := takeSign (JSString.trimStart s) in
  if JSString.startsWith s1 (js "Infinity") then S754_infinity neg
  else
    let '(ip, r1) := takeDigits s1 in
    let '(fp, r2) :=
      match r1 with
      | 46%N :: r =>
          match ip, takeDigits r with
          | [], ([], _) => ([], r1)
          | _, p => p
          end
      | _ => ([], r1)
      end in
    match ip ++ fp with
    | [] => NaN
    | ds =>
        match digitsValue ds with
        | Zpos m => ofDecimal neg m (takeExponent r2 - Z.of_nat (length fp))
        | _ => S754_zero neg
        end
    end.

End Number.

Abbreviation number := Number.t.

(** ** The host environment

    Built-ins whose result depends on tables or settings of the browser the
    page runs in. *)

Record Host := {
  (** [String.prototype.toLowerCase] (Unicode default case conversion) *)
  toLowerCase : jsstring -> jsstring;
  (** the time value of a local date-time given as if it were UTC, under the
      time zone of the browser (ECMAScript's [UTC(t)]) *)
  utcOfLocal : Z -> Z;
  (** what [Date.parse] makes of a string that is not in the ECMAScript
      date-time string format (implementation-defined) *)
  legacyDateParse : jsstring -> option Z
}.

(** ** JavaScript dates *)

Module JSDate.

Definition msPerDay : Z := 86400000.
Definition maxTime : Z := 8640000000000000.

(** [TimeClip]: a time value is an integer number of milliseconds within
    100,000,000 days of the epoch; anything else is NaN, here [None]. *)
Definition timeClip (t : Z) : option Z :=
  if Z.abs t <=? maxTime then Some t else None.

(** Year, month (1..12) and day of the month of a day number (days since
    1970-01-01) in the proleptic Gregorian calendar: [YearFromTime],
    [MonthFromTime] and [DateFromTime]. *)
Definition civilFromDays (days : Z) : Z * Z * Z :=
  let z := days + 719468 in
  let era := z / 146097 in
  let doe := z - era * 146097 in
  let yoe := (doe - doe / 1460 + doe / 36524 - doe / 146096) / 365 in
  let doy := doe - (365 * yoe + yoe / 4 - yoe / 100) in
  let mp := (5 * doy + 2) / 153 in
  let d := doy - (153 * mp + 2) / 5 + 1 in
  let m := if mp <? 10 then mp + 3 else mp - 9 in
  let y := yoe + era * 400 + (if m <=? 2 then 1 else 0) in
  (y, m, d).

(** [MakeDay]: the day number of year [y], month [m] (1..12), day [d]. *)
Definition daysFromCivil (y m d : Z) : Z :=
  let y := if m <=? 2 then y - 1 else y in
  let era := y / 400 in
  let yoe := y - era * 400 in
  let doy := (153 * (if 2 <? m then m - 3 else m + 9) + 2) / 5 + d - 1 in
  let doe := yoe * 365 + yoe / 4 - yoe / 100 + doy in
  era * 146097 + doe - 719468.

(** [MakeDate (MakeDay ..) (MakeTime ..)] *)
Definition makeTime (y mo d h mi s ms : Z) : Z :=
  daysFromCivil y mo d * msPerDay + h * 3600000 + mi * 60000 + s * 1000 + ms.

(** *** Formatting *)

Definition digitChar (d : Z) : N := Z.to_N (48 + d mod 10).

(** The [n] low decimal digits of [v], most significant first. *)
Fixpoint digitsOf (n : nat) (v : Z) : jsstring :=
  match n with
  | O => []
  | S n' => digitsOf n' (v / 10) ++ [digitChar v]
  end.

Definition yearString (y : Z) : jsstring :=
  if (0 <=? y) && (y <=? 9999) then digitsOf 4 y
  else (if y <? 0 then js "-" else js "+") ++ digitsOf 6 (Z.abs y).

(** The date part of the ISO string of a time value: [YYYY-MM-DD]. *)
Definition isoDate (t : Z) : jsstring :=
  let '(y, m, d) := civilFromDays (t / msPerDay) in
  yearString y ++ js "-" ++ digitsOf 2 m ++ js "-" ++ digitsOf 2 d.

Definition isoTime (t : Z) : jsstring :=
  let r := t mod msPerDay in
  digitsOf 2 (r / 3600000) ++ js ":" ++ digitsOf 2 (r / 60000 mod 60)
    ++ js ":" ++ digitsOf 2 (r / 1000 mod 60) ++ js "." ++ digitsOf 3 (r mod 1000).

(** [Date.prototype.toISOString] on a valid time value (UTC). *)
Definition isoString (t : Z) : jsstring :=
  isoDate t ++ js "T" ++ isoTime t ++ js "Z".

(** *** Parsing: the ECMAScript date-time string format *)

(** Exactly [n] decimal digits at the head of [s]: their value and the
    rest of [s]. *)
Fixpoint readDigits (n : nat) (acc : Z) (s : jsstring) : option (Z * jsstring) :=
  match n with
  | O => Some (acc, s)
  | S n' =>
      match s with
      | c :: s' =>
          match Number.digitValue c with
          | Some d => readDigits n' (10 * acc + d) s'
          | None => None
          end
      | [] => None
      end
  end.

(** The year: four digits, or a sign and six digits ([-000000] is not a
    year). *)
Definition readYear (s : jsstring) : option (Z * jsstring) :=
  match s with
  | c :: r =>
      if (c =? 43)%N then readDigits 6 0 r
      else if (c =? 45)%N then
        match readDigits 6 0 r with
        | Some (y, r') => if y =? 0 then None else Some (- y, r')
        | None => None
        end
      else readDigits 4 0 s
  | [] => None
  end.

(** An optional [-NN] field, [dflt] when the text does not go on with a
    hyphen. *)
Definition readOptField (dflt : Z) (s : jsstring) : option (Z * jsstring) :=
  match s with
  | 45%N :: r => readDigits 2 0 r
  | _ => Some (dflt, s)
  end.

(** The UTC offset designator: [Z] or [+HH:mm] or [-HH:mm], which must end
    the string; [Some None] when the string ends without one. The offset
    is in minutes. *)
Definition readZone (s : jsstring) : option (option Z) :=
  match s with
  | [] => Some None
  | [90%N] => Some (Some 0)
  | c :: r =>
      if ((c =? 43) || (c =? 45))%N then
        match readDigits 2 0 r with
        | Some (h, 58%N :: r') =>
            match readDigits 2 0 r' with
            | Some (m, []) =>
                if (h <=? 23) && (m <=? 59)
                then Some (Some ((if (c =? 45)%N then -1 else 1) * (h * 60 + m)))
                else None
            | _ => None
            end
        | _ => None
        end
      else None
  end.

(** [HH:mm], then optionally [:ss], then optionally [.sss]. *)
Definition readClock (s : jsstring) : option (Z * Z * Z * Z * jsstring) :=
  match readDigits 2 0 s with
  | Some (h, 58%N :: r1) =>
      match readDigits 2 0 r1 with
      | Some (mi, 58%N :: r2) =>
          match readDigits 2 0 r2 with
          | Some (sec, 46%N :: r3) =>
              match readDigits 3 0 r3 with
              | Some (ms, r4) => Some (h, mi, sec, ms, r4)
              | None => None
              end
          | Some (sec, r3) => Some (h, mi, sec, 0, r3)
          | None => None
          end
      | Some (mi, r2) => Some (h, mi, 0, 0, r2)
      | None => None
      end
  | _ => None
  end.

Definition validClock (h mi s : Z) (ms : Z) : bool :=
  ((h <=? 23) && (mi <=? 59) && (s <=? 59))
  || ((h =? 24) && (mi =? 0) && (s =? 0) && (ms =? 0)).

Inductive parsed :=
| NotInFormat              (* not of the date-time string format *)
| IllegalValue             (* of the format, with an out-of-range field *)
| UtcTime (t : Z)          (* a date-only form, or one with an offset *)
| LocalTime (t : Z).       (* a date-time form without offset *)

Definition parseFormat (s : jsstring) : parsed :=
  match readYear s with
  | Some (y, r0) =>
      match readOptField 1 r0 with
      | Some (mo, r1) =>
          match (match r0 with 45%N :: _ => readOptField 1 r1 | _ => Some (1, r1) end) with
          | Some (d, r2) =>
              if negb ((1 <=? mo) && (mo <=? 12) && (1 <=? d) && (d <=? 31))
              then IllegalValue
              else
                match r2 with
                | [] => UtcTime (makeTime y mo d 0 0 0 0)
                | 84%N :: r3 =>
                    match readClock r3 with
                    | Some (h, mi, sec, ms, r4) =>
                        match readZone r4 with
                        | Some z =>
                            if validClock h mi sec ms then
                              match z with
                              | Some off => UtcTime (makeTime y mo d h mi sec ms - off * 60000)
                              | None => LocalTime (makeTime y mo d h mi sec ms)
                              end
                            else IllegalValue
                        | None => NotInFormat
                        end
                    | None => NotInFormat
                    end
                | _ => NotInFormat
                end
          | None => NotInFormat
          end
      | None => NotInFormat
      end
  | None => NotInFormat
  end.

(** [new Date(s).getTime()]: the time value of the string, [None] for an
    invalid date (NaN). *)
Definition parse (H : Host) (s : jsstring) : option Z :=
  match parseFormat s with
  | UtcTime t => timeClip t
  | LocalTime t => timeClip (utcOfLocal H t)
  | IllegalValue => None
  | NotInFormat =>
      match legacyDateParse H s with
      | Some t => timeClip t
      | None => None
      end
  end.

(** [new Date(s).toISOString()]: raises a [RangeError] on an invalid date,
    here [None]. *)
Definition toISOString (d : option Z) : option jsstring :=
  match d with
  | Some t => Some (isoString t)
  | None => None
  end.

End JSDate.

(** A host for running examples: lower-casing of the ASCII letters only, a
    browser set to UTC, and no fallback date formats. *)
Definition asciiLower (c : N) : N :=
  if ((65 <=? c) && (c <=? 90))%N then (c + 32)%N else c.

Definition asciiHost : Host := {|
  toLowerCase := map asciiLower;
  utcOfLocal := fun t => t;
  legacyDateParse := fun _ => None
|}.

(** ** Records ([src/types.ts]) *)

Record GeolocationPosition := {
  latitude : number;
  longitude : number
}.

Record ProductRecord := {
  id : jsstring;
  imageUrl : jsstring;
  name : jsstring;
  price : number;
  date : jsstring;
  location : option GeolocationPosition   (* [null] is [None] *)
}.

Record OcrResult := {
  productName : jsstring;
  ocrPrice : number                        (* the [price] field *)
}.

(** ** Completions: a statement ends normally or throws *)

Inductive completion (A : Type) :=
| Normal (a : A)
| Throw (message : jsstring).             (* the thrown error's [message] *)
Arguments Normal {A} a.
Arguments Throw {A} message.

Definition bindC {A B} (c : completion A) (k : A -> completion B) : completion B :=
  match c with
  | Normal a => k a
  | Throw m => Throw m
  end.

(** [try { c } catch (e) { h e }] *)
Definition tryCatch {A} (c : completion A) (h : jsstring -> completion A) : completion A :=
  match c with
  | Normal a => Normal a
  | Throw m => h m
  end.

(** ** JSON and the persistent storage slot *)

#[local] Unset Elimination Schemes.
Inductive json :=
| JNull
| JBool (b : bool)
| JNumber (x : number)
| JString (s : jsstring)
| JArray (items : list json)
| JObject (members : list (jsstring * json)).
#[local] Set Elimination Schemes.

(** The text held by a storage entry, up to what [JSON.parse] makes of it:
    either text that [JSON.parse] accepts, identified with the value it
    denotes, or text that it rejects with a [SyntaxError]. *)
Inductive payload :=
| JsonText (v : json)
| BadText (s : jsstring).

Module JSON.

(** [JSON.stringify] of a number: [null] unless finite, and the sign of
    zero is not written. *)
Definition ofNumber (x : number) : json :=
  match x with
  | S754_zero _ => JNumber Number.zero
  | S754_finite _ _ _ => JNumber x
  | _ => JNull
  end.

Definition ofLocation (l : option GeolocationPosition) : json :=
  match l with
  | None => JNull
  | Some g => JObject [(js "latitude", ofNumber (latitude g));
                       (js "longitude", ofNumber (longitude g))]
  end.

Definition ofRecord (r : ProductRecord) : json :=
  JObject [(js "id", JString (id r));
           (js "imageUrl", JString (imageUrl r));
           (js "name", JString (name r));
           (js "price", ofNumber (price r));
           (js "date", JString (date r));
           (js "location", ofLocation (location r))].

(** [JSON.stringify(records)] *)
Definition stringify (rs : list ProductRecord) : payload :=
  JsonText (JArray (map ofRecord rs)).

(** [JSON.parse]: throws a [SyntaxError] on text that is not JSON; the
    empty string is such a text. *)
Definition parse (p : payload) : completion json :=
  match p with
  | JsonText v => Normal v
  | BadText _ => Throw (js "Unexpected token")
  end.

Definition asNumber (v : json) : option number :=
  match v with JNumber x => Some x | _ => None end.

Definition asLocation (v : json) : option (option GeolocationPosition) :=
  match v with
  | JNull => Some None
  | JObject [(k1, JNumber la); (k2, JNumber lo)] =>
      if JSString.eqb k1 (js "latitude") && JSString.eqb k2 (js "longitude")
      then Some (Some {| latitude := la; longitude := lo |})
      else None
  | _ => None
  end.

(** A parsed value seen at type [ProductRecord]: an object with exactly
    the six properties of a record, each of its declared type; [None] for
    any other value. *)
Definition asRecord (v : json) : option ProductRecord :=
  match v with
  | JObject [(k1, JString i); (k2, JString u); (k3, JString n);
             (k4, JNumber p); (k5, JString d); (k6, l)] =>
      if JSString.eqb k1 (js "id") && JSString.eqb k2 (js "imageUrl")
         && JSString.eqb k3 (js "name") && JSString.eqb k4 (js "price")
         && JSString.eqb k5 (js "date") && JSString.eqb k6 (js "location")
      then
        match asLocation l with
        | Some l' =>
            Some {| id := i; imageUrl := u; name := n; price := p; date := d; location := l' |}
        | None => None
        end
      else None
  | _ => None
  end.

Fixpoint asRecordList (vs : list json) : option (list ProductRecord) :=
  match vs with
  | [] => Some []
  | v :: vs' =>
      match asRecord v, asRecordList vs' with
      | Some r, Some rs => Some (r :: rs)
      | _, _ => None
      end
  end.

Definition asRecords (v : json) : option (list ProductRecord) :=
  match v with
  | JArray vs => asRecordList vs
  | _ => None
  end.

End JSON.

(** [window.localStorage] *)
Record Storage := {
  entries : gmap jsstring payload;
  (** access is denied (the getter throws a [SecurityError]) *)
  denied : bool;
  (** whether a write of this text fits the quota *)
  fits : payload -> bool
}.

Module LocalStorage.

Definition getItem (st : Storage) (k : jsstring) : completion (option payload) :=
  if denied st then Throw (js "The operation is insecure.")
  else Normal (entries st !! k).

Definition setItem (st : Storage) (k : jsstring) (p : payload) : completion Storage :=
  if denied st then Throw (js "The operation is insecure.")
  else if fits st p then
    Normal {| entries := <[k := p]> (entries st); denied := denied st; fits := fits st |}
  else Throw (js "The quota has been exceeded.").

End LocalStorage.

(** ** The [App] component *)

Module App.

(** The state hooks of the component, in the order of the source. *)
Record State := {
  records : list ProductRecord;
  filteredRecords : list ProductRecord;
  isLoadingOcr : bool;
  isLoadingAnalysis : bool;
  ocrResult : option OcrResult;
  analysisResult : jsstring;
  error : option jsstring;
  analysisQuery : jsstring;
  imagePreview : option jsstring;
  userLocation : option GeolocationPosition;
  searchTerm : jsstring;
  dateFilter : jsstring
}.

(** The state of a freshly mounted component. *)
Definition initial : State := {|
  records := [];
  filteredRecords := [];
  isLoadingOcr := false;
  isLoadingAnalysis := false;
  ocrResult := None;
  analysisResult := [];
  error := None;
  analysisQuery := [];
  imagePreview := None;
  userLocation := None;
  searchTerm := [];
  dateFilter := []
|}.

Definition setRecords (v : list ProductRecord) (s : State) : State :=
  {| records := v; filteredRecords := filteredRecords s;
     isLoadingOcr := isLoadingOcr s; isLoadingAnalysis := isLoadingAnalysis s;
     ocrResult := ocrResult s; analysisResult := analysisResult s;
     error := error s; analysisQuery := analysisQuery s;
     imagePreview := imagePreview s; userLocation := userLocation s;
     searchTerm := searchTerm s; dateFilter := dateFilter s |}.

Definition setFilteredRecords (v : list ProductRecord) (s : State) : State :=
  {| records := records s; filteredRecords := v;
     isLoadingOcr := isLoadingOcr s; isLoadingAnalysis := isLoadingAnalysis s;
     ocrResult := ocrResult s; analysisResult := analysisResult s;
     error := error s; analysisQuery := analysisQuery s;
     imagePreview := imagePreview s; userLocation := userLocation s;
     searchTerm := searchTerm s; dateFilter := dateFilter s |}.

Definition setIsLoadingOcr (v : bool) (s : State) : State :=
  {| records := records s; filteredRecords := filteredRecords s;
     isLoadingOcr := v; isLoadingAnalysis := isLoadingAnalysis s;
     ocrResult := ocrResult s; analysisResult := analysisResult s;
     error := error s; analysisQuery := analysisQuery s;
     imagePreview := imagePreview s; userLocation := userLocation s;
     searchTerm := searchTerm s; dateFilter := dateFilter s |}.

Definition setIsLoadingAnalysis (v : bool) (s : State) : State :=
  {| records := records s; filteredRecords := filteredRecords s;
     isLoadingOcr := isLoadingOcr s; isLoadingAnalysis := v;
     ocrResult := ocrResult s; analysisResult := analysisResult s;
     error := error s; analysisQuery := analysisQuery s;
     imagePreview := imagePreview s; userLocation := userLocation s;
     searchTerm := searchTerm s; dateFilter := dateFilter s |}.

Definition setOcrResult (v : option OcrResult) (s : State) : State :=
  {| records := records s; filteredRecords := filteredRecords s;
     isLoadingOcr := isLoadingOcr s; isLoadingAnalysis := isLoadingAnalysis s;
     ocrResult := v; analysisResult := analysisResult s;
     error := error s; analysisQuery := analysisQuery s;
     imagePreview := imagePreview s; userLocation := userLocation s;
     searchTerm := searchTerm s; dateFilter := dateFilter s |}.

Definition setAnalysisResult (v : jsstring) (s : State) : State :=
  {| records := records s; filteredRecords := filteredRecords s;
     isLoadingOcr := isLoadingOcr s; isLoadingAnalysis := isLoadingAnalysis s;
     ocrResult := ocrResult s; analysisResult := v;
     error := error s; analysisQuery := analysisQuery s;
     imagePreview := imagePreview s; userLocation := userLocation s;
     searchTerm := searchTerm s; dateFilter := dateFilter s |}.

Definition setError (v : option jsstring) (s : State) : State :=
  {| records := records s; filteredRecords := filteredRecords s;
     isLoadingOcr := isLoadingOcr s; isLoadingAnalysis := isLoadingAnalysis s;
     ocrResult := ocrResult s; analysisResult := analysisResult s;
     error := v; analysisQuery := analysisQuery s;
     imagePreview := imagePreview s; userLocation := userLocation s;
     searchTerm := searchTerm s; dateFilter := dateFilter s |}.

Definition setImagePreview (v : option jsstring) (s : State) : State :=
  {| records := records s; filteredRecords := filteredRecords s;
     isLoadingOcr := isLoadingOcr s; isLoadingAnalysis := isLoadingAnalysis s;
     ocrResult := ocrResult s; analysisResult := analysisResult s;
     error := error s; analysisQuery := analysisQuery s;
     imagePreview := v; userLocation := userLocation s;
     searchTerm := searchTerm s; dateFilter := dateFilter s |}.

Definition setUserLocation (v : option GeolocationPosition) (s : State) : State :=
  {| records := records s; filteredRecords := filteredRecords s;
     isLoadingOcr := isLoadingOcr s; isLoadingAnalysis := isLoadingAnalysis s;
     ocrResult := ocrResult s; analysisResult := analysisResult s;
     error := error s; analysisQuery := analysisQuery s;
     imagePreview := imagePreview s; userLocation := v;
     searchTerm := searchTerm s; dateFilter := dateFilter s |}.

(** What the component does to the world outside its state. *)
Inductive effect :=
| ConsoleError (label message : jsstring)
| ConsoleWarn (message : jsstring)
| AnalyzeCall (query : jsstring) (history : list ProductRecord)
| ExtractCall (base64 : option jsstring) (mimeType : jsstring).

Definition storageKey : jsstring := js "shoppingHistory".

(** *** Loading (the first [useEffect], run once after mounting) *)

(** The component after an effect or a handler has run. [records] is
    declared as [ProductRecord[]], but [setRecords(JSON.parse(..))] stores
    whatever was parsed, without a check: after a parsed value that is not
    an array of records as [save] writes them, the component is outside
    its declared types, and outside this development. *)
Inductive outcome :=
| Ok (s : State) (log : list effect)
| Foreign (v : json).

(** [if (storedRecords)]: the entry exists and is not the empty string. *)
Definition storedTruthy (p : payload) : bool :=
  match p with
  | BadText [] => false
  | _ => true
  end.

Definition load (st : Storage) (s : State) : completion outcome :=
  tryCatch
    (bindC (LocalStorage.getItem st storageKey) (fun storedRecords =>
       match storedRecords with
       | Some p =>
           if storedTruthy p then
             bindC (JSON.parse p) (fun v =>
               match JSON.asRecords v with
               | Some rs => Normal (Ok (setRecords rs s) [])
               | None => Normal (Foreign v)
               end)
           else Normal (Ok s [])
       | None => Normal (Ok s [])
       end))
    (fun e =>
       Normal (Ok s [ConsoleError (js "Failed to load records from localStorage") e])).

(** *** Saving (the second [useEffect], run after every change of
    [records]) *)

Definition save (st : Storage) (s : State) : completion (Storage * State * list effect) :=
  tryCatch
    (bindC (LocalStorage.setItem st storageKey (JSON.stringify (records s)))
           (fun st' => Normal (st', s, [])))
    (fun e =>
       Normal
         (st,
          setError (Some (js "Could not save new records. Your browser's storage might be full.")) s,
          [ConsoleError (js "Failed to save records to localStorage") e])).

(** *** The add-record form *)

(** The state setters of [resetAddForm]; the value of the file input,
    which it clears as well, is not part of the state. *)
Definition resetAddForm (s : State) : State :=
  setError None (setUserLocation None (setImagePreview None (setOcrResult None s))).

(** [catch (err) { setError(err.message || ..); resetAddForm(); }] of
    [handleFileChange] *)
Definition fileChangeFailed (m : jsstring) (s : State) : State :=
  resetAddForm
    (setError
       (Some (if JSString.truthy m then m
              else js "An unknown error occurred during image processing.")) s).

(** [handleFileChange]. [chosen] is [None] when the input holds no file,
    and else what [resizeImage] of the file settles to: the data URL of the
    downscaled image, or a rejection. [extractProductInfoFromImage] is the
    service, given as a function of its request. *)
Definition handleFileChange
    (chosen : option (completion jsstring))
    (extractProductInfoFromImage : option jsstring -> jsstring -> completion OcrResult)
    (s : State) : State * list effect :=
  match chosen with
  | None => (s, [])
  | Some resized =>
      let s0 := setError None (setIsLoadingOcr true (resetAddForm s)) in
      match resized with
      | Normal resizedDataUrl =>
          let s1 := setImagePreview (Some resizedDataUrl) s0 in
          let base64 := JSString.secondPiece 44 resizedDataUrl in
          let mimeType := js "image/jpeg" in
          (setIsLoadingOcr false
             match extractProductInfoFromImage base64 mimeType with
             | Normal result => setOcrResult (Some result) s1
             | Throw m => fileChangeFailed m s1
             end,
           [ExtractCall base64 mimeType])
      | Throw m => (setIsLoadingOcr false (fileChangeFailed m s0), [])
      end
  end.

(** What [navigator.geolocation] does with the request. *)
Inductive geolocation :=
| GeoUnsupported                                  (* no [navigator.geolocation] *)
| GeoPosition (lat lon : number)                  (* the success callback runs *)
| GeoError (code : Z) (message : jsstring).       (* the error callback runs *)

Definition handleGetLocation (g : geolocation) (s : State) : State * list effect :=
  match g with
  | GeoPosition lat lon =>
      (setUserLocation (Some {| latitude := lat; longitude := lon |}) s, [])
  | GeoError code message =>
      (setError (Some (js "Could not get location. Please ensure location services are enabled.")) s,
       [ConsoleWarn (js "ERROR(" ++ Number.integerText code ++ js "): " ++ message)])
  | GeoUnsupported =>
      (setError (Some (js "Geolocation is not supported by this browser.")) s, [])
  end.

(** The fields of the submitted form, as [FormData.get] returns them. *)
Record FormData := {
  productNameField : jsstring;
  priceField : jsstring
}.

(** What [handleAddRecord] reads from its environment: the clock at the
    two [new Date()] calls (milliseconds since the epoch) and the text of
    [Math.random()] as the template literal renders it. *)
Record AddEnv := {
  nowForId : Z;
  randomText : jsstring;
  nowForDate : Z
}.

Definition newId (env : AddEnv) : jsstring :=
  JSDate.isoString (nowForId env) ++ js "-" ++ randomText env.

Definition newRecord (env : AddEnv) (form : FormData) (s : State) (img : jsstring)
  : ProductRecord :=
  {| id := newId env;
     imageUrl := img;
     name := productNameField form;
     price := Number.parseFloat (priceField form);
     date := JSDate.isoString (nowForDate env);
     location := userLocation s |}.

Definition handleAddRecord (env : AddEnv) (form : FormData) (s : State) : State :=
  match ocrResult s, imagePreview s with
  | Some _, Some img =>
      if JSString.truthy img
      then resetAddForm (setRecords (newRecord env form s img :: records s) s)
      else s
  | _, _ => s
  end.

(** *** Deleting *)

Definition handleDeleteRecord (id0 : jsstring) (s : State) : State :=
  setRecords (List.filter (fun record => negb (JSString.eqb (id record) id0)) (records s)) s.

(** *** The analysis form

    [handleAnalyze] against a service given as a function of the request;
    [analyzeSettled] is the part of the handler that runs after the
    [await]. *)

Definition analyzeSettled (answer : completion jsstring) (s : State) : State :=
  setIsLoadingAnalysis false
    match answer with
    | Normal result => setAnalysisResult result s
    | Throw m =>
        setError
          (Some (if JSString.truthy m then m
                 else js "An unknown error occurred during analysis.")) s
    end.

Definition handleAnalyze
    (analyzeShoppingHistory : jsstring -> list ProductRecord -> completion jsstring)
    (s : State) : State * list effect :=
  if negb (JSString.truthy (JSString.trim (analysisQuery s))) then (s, [])
  else
    let s1 := setError None (setAnalysisResult [] (setIsLoadingAnalysis true s)) in
    (analyzeSettled (analyzeShoppingHistory (analysisQuery s) (records s)) s1,
     [AnalyzeCall (analysisQuery s) (records s)]).

End App.

(** ** Arrays as heap objects

    An array is an object: [filter] and the spread syntax allocate a new
    one, [sort] reorders the one it is called on. The history view filter
    is embedded over a heap of arrays, so that what it does to the array
    held in [records] can be stated. *)

Module Heap.

Definition loc := positive.

Abbreviation heap := (gmap loc (list ProductRecord)).

(** A computation over the heap that ends normally or throws. *)
Definition M (A : Type) : Type := heap -> completion A * heap.

Definition ret {A} (a : A) : M A := fun h => (Normal a, h).

Definition bind {A B} (m : M A) (k : A -> M B) : M B :=
  fun h =>
    match m h with
    | (Normal a, h') => k a h'
    | (Throw e, h') => (Throw e, h')
    end.

Definition alloc (v : list ProductRecord) : M loc :=
  fun h => let l := fresh (dom h) in (Normal l, <[l := v]> h).

(** The elements of the array at [l]. *)
Definition read (l : loc) : M (list ProductRecord) :=
  fun h => (Normal (default [] (h !! l)), h).

Definition write (l : loc) (v : list ProductRecord) : M unit :=
  fun h => (Normal tt, <[l := v]> h).

Definition lift {A} (c : completion A) : M A := fun h => (c, h).

End Heap.

Declare Scope heap_scope.
Delimit Scope heap_scope with heap.
Notation "'let*' x ':=' m 'in' k" := (Heap.bind m (fun x => k))
  (at level 10, x name, m at level 100, k at level 200, only parsing) : heap_scope.

(** ** Array methods *)

Module JSArray.
Import Heap.
Local Open Scope heap_scope.

(** The elements for which the callback returns true, in order; the first
    throw of the callback ends the traversal. *)
Fixpoint filterC {A} (f : A -> completion bool) (xs : list A) : completion (list A) :=
  match xs with
  | [] => Normal []
  | x :: xs' =>
      bindC (f x) (fun b =>
      bindC (filterC f xs') (fun ys =>
      Normal (if b then x :: ys else ys)))
  end.

(** [[...a]] *)
Definition spread (a : loc) : M loc :=
  let* xs := read a in alloc xs.

(** [a.filter(f)] *)
Definition filter (f : ProductRecord -> completion bool) (a : loc) : M loc :=
  let* xs := read a in
  let* ys := lift (filterC f xs) in
  alloc ys.

(** The comparator's verdict on [(a, b)]: its result [v] is a number, and
    the sort puts [b] before [a] only when [v > 0]; a NaN ([None]) counts
    as [+0]. *)
Definition after (v : option Z) : bool :=
  match v with
  | Some d => 0 <? d
  | None => false
  end.

(** Stable insertion of [x] in front of a sorted array. *)
Fixpoint insert {A} (cmp : A -> A -> option Z) (x : A) (xs : list A) : list A :=
  match xs with
  | [] => [x]
  | y :: ys => if after (cmp x y) then y :: insert cmp x ys else x :: xs
  end.

(** The order that [Array.prototype.sort] produces: the sort is stable,
    which fixes its result for every consistent comparator. *)
Definition sorted {A} (cmp : A -> A -> option Z) (xs : list A) : list A :=
  fold_right (insert cmp) [] xs.

(** [a.sort(cmp)]: sorts the array in place and returns it. *)
Definition sort (cmp : ProductRecord -> ProductRecord -> option Z) (a : loc) : M loc :=
  let* xs := read a in
  let* _ := write a (sorted cmp xs) in
  ret a.

End JSArray.

(** ** The history view filter (the third [useEffect]) *)

Module HistoryView.
Import Heap.
Local Open Scope heap_scope.

(** [new Date(record.date).getTime()] *)
Definition getTime (H : Host) (r : ProductRecord) : option Z :=
  JSDate.parse H (date r).

(** [record.name.toLowerCase().includes(searchTerm.toLowerCase())] *)
Definition nameMatches (H : Host) (searchTerm : jsstring) (record : ProductRecord) : bool :=
  JSString.includes (toLowerCase H (name record)) (toLowerCase H searchTerm).

(** [new Date(record.date).toISOString().split('T')[0]] *)
Definition calendarDay (H : Host) (record : ProductRecord) : completion jsstring :=
  match JSDate.toISOString (getTime H record) with
  | Some iso => Normal (JSString.beforeFirst 84 iso)
  | None => Throw (js "Invalid time value")
  end.

Definition dateMatches (H : Host) (dateFilter : jsstring) (record : ProductRecord)
  : completion bool :=
  bindC (calendarDay H record) (fun day => Normal (JSString.eqb day dateFilter)).

(** [new Date(b.date).getTime() - new Date(a.date).getTime()]: NaN when
    either date is invalid. The difference of two time values has the sign
    of its exact value after rounding to a number. *)
Definition byDateDescending (H : Host) (a b : ProductRecord) : option Z :=
  match getTime H b, getTime H a with
  | Some tb, Some ta => Some (tb - ta)
  | _, _ => None
  end.

(** The body of the effect: [records] is the array held by the state, the
    result is the array passed to [setFilteredRecords]. *)
Definition filterEffect (H : Host) (records : loc) (searchTerm dateFilter : jsstring)
  : M loc :=
  let* tempRecords := JSArray.spread records in
  let* tempRecords :=
    (if JSString.truthy searchTerm
     then JSArray.filter (fun record => Normal (nameMatches H searchTerm record)) tempRecords
     else ret tempRecords) in
  let* tempRecords :=
    (if JSString.truthy dateFilter
     then JSArray.filter (dateMatches H dateFilter) tempRecords
     else ret tempRecords) in
  JSArray.sort (byDateDescending H) tempRecords.

(** The elements of the array that the effect passes to
    [setFilteredRecords], as a function of the elements of [records]. *)
Definition filteredView (H : Host) (rs : list ProductRecord) (searchTerm dateFilter : jsstring)
  : completion (list ProductRecord) :=
  let byName :=
    if JSString.truthy searchTerm then List.filter (nameMatches H searchTerm) rs else rs in
  bindC (if JSString.truthy dateFilter
         then JSArray.filterC (dateMatches H dateFilter) byName
         else Normal byName)
        (fun byDate => Normal (JSArray.sorted (byDateDescending H) byDate)).

End HistoryView.

(** ** The image preprocessor ([resizeImage])

    The part of [resizeImage] that decides the size of the canvas the image
    is drawn on. [img.width] and [img.height] are integers (of IDL type
    [unsigned long]); the assignments to [canvas.width] and [canvas.height]
    convert the computed numbers to that type again. *)

Module Preprocessor.

Definition MAX_WIDTH : number := Number.of_Z 400.
Definition MAX_HEIGHT : number := Number.of_Z 400.

(** The values of [width] and [height] after the two nested
    conditionals. *)
Definition scaledSize (imgWidth imgHeight : Z) : number * number :=
  let width := Number.of_Z imgWidth in
  let height := Number.of_Z imgHeight in
  if Number.gtb width height then
    if Number.gtb width MAX_WIDTH
    then (MAX_WIDTH, Number.mul height (Number.div MAX_WIDTH width))
    else (width, height)
  else
    if Number.gtb height MAX_HEIGHT
    then (Number.mul width (Number.div MAX_HEIGHT height), MAX_HEIGHT)
    else (width, height).

(** [canvas.width] and [canvas.height] after the assignments. *)
Definition canvasSize (imgWidth imgHeight : Z) : Z * Z :=
  let '(width, height) := scaledSize imgWidth imgHeight in
  (Number.toUnsignedLong width, Number.toUnsignedLong height).

End Preprocessor.

(** * The vocabulary of the properties *)

Section Vocabulary.
Import App Heap HistoryView.

(** ** Dates *)

(** A time value: what a [Date] that is not invalid holds, and what
    [new Date()] reads from the clock. *)
Definition validTime (t : Z) : Prop := Z.abs t <= JSDate.maxTime.

(** A day number whose calendar date has a month and a day of the month
    in range and maps back to the day number. *)
Definition calendarDayOk (days : Z) : bool :=
  let '(y, m, d) := JSDate.civilFromDays days in
  (1 <=? m) && (m <=? 12) && (1 <=? d) && (d <=? 31)
  && (JSDate.daysFromCivil y m d =? days).

(** [f] holds on the [2^bits] integers from [base] on. *)
Fixpoint allFrom (bits : nat) (base : Z) (f : Z -> bool) : bool :=
  match bits with
  | O => f base
  | S b => allFrom b base f && allFrom b (base + 2 ^ Z.of_nat b) f
  end.

(** ** The record store *)

Definition ids (rs : list ProductRecord) : list jsstring := map id rs.

(** The number of records that carry an id. *)
Definition occurrences (i : jsstring) (rs : list ProductRecord) : nat :=
  length (List.filter (fun r => JSString.eqb (id r) i) rs).

(** The add form is showing a recognised product with its preview, so
    that [handleAddRecord] goes past its guard. *)
Definition readyToAdd (s : State) : Prop :=
  exists o img, ocrResult s = Some o /\ imagePreview s = Some img
                /\ JSString.truthy img = true.

(** [price >= 0] *)
Definition nonNegative (x : number) : Prop := Number.geb x Number.zero = true.

(** [setRecords] is called by the load effect, by [handleAddRecord] and by
    [handleDeleteRecord] only. A state is reached from a loaded collection
    [rs0] through add-record submissions, deletions, and steps of the other
    handlers and effects, which leave [records] as it is; [envs] lists what
    the submissions read from the clock and from [Math.random], latest
    first. *)
Inductive reaches (rs0 : list ProductRecord) : list AddEnv -> State -> Prop :=
| reaches_loaded : reaches rs0 [] (setRecords rs0 initial)
| reaches_add envs s env form :
    reaches rs0 envs s -> reaches rs0 (env :: envs) (handleAddRecord env form s)
| reaches_delete envs s i :
    reaches rs0 envs s -> reaches rs0 envs (handleDeleteRecord i s)
| reaches_other envs s s' :
    reaches rs0 envs s -> records s' = records s -> reaches rs0 envs s'.

(** The clock reading and the random text of a submission. *)
Definition draw (env : AddEnv) : Z * jsstring := (nowForId env, randomText env).

(** ** The history view *)

(** The record has a valid date under the host. *)
Definition validDate (H : Host) (r : ProductRecord) : Prop := is_Some (getTime H r).

(** [a] has a valid date, and so has [b], and [a] is not earlier. *)
Definition notEarlier (H : Host) (a b : ProductRecord) : Prop :=
  exists ta tb, getTime H a = Some ta /\ getTime H b = Some tb /\ tb <= ta.

(** The active predicates of the filter inputs at a record: its name,
    lower-cased, contains the lower-cased search text, and the calendar day
    of its date is the date filter. An empty input is no filter. *)
Definition passes (H : Host) (st df : jsstring) (r : ProductRecord) : Prop :=
  (st <> [] -> JSString.occursIn (toLowerCase H st) (toLowerCase H (name r)))
  /\ (df <> [] -> calendarDay H r = Normal df).

(** After some steps of the effect from heap [h0]: the array at [l] was
    allocated by the effect and holds [v], and every array of [h0] is as
    it was. *)
Definition scratch (h0 : heap) (l : loc) (v : list ProductRecord) (h : heap) : Prop :=
  h !! l = Some v /\ h0 !! l = None /\
  forall l0, is_Some (h0 !! l0) -> h !! l0 = h0 !! l0.

(** ** Persistence *)

(** A record whose numbers are written by [JSON.stringify] as numbers:
    a finite price, as the price field of the form yields, and finite
    coordinates. *)
Definition validRecord (r : ProductRecord) : Prop :=
  Number.isFinite (price r) = true
  /\ match location r with
     | Some g => Number.isFinite (latitude g) = true /\ Number.isFinite (longitude g) = true
     | None => True
     end.

(** [a === b] on numbers. *)
Definition sameNumber (a b : number) : Prop := SFeqb a b = true.

Definition sameLocation (a b : option GeolocationPosition) : Prop :=
  match a, b with
  | None, None => True
  | Some g, Some g' =>
      sameNumber (latitude g) (latitude g') /\ sameNumber (longitude g) (longitude g')
  | _, _ => False
  end.

(** Two records are equal: field by field, numbers as [===] compares
    them. *)
Definition sameRecord (a b : ProductRecord) : Prop :=
  id a = id b /\ imageUrl a = imageUrl b /\ name a = name b
  /\ sameNumber (price a) (price b) /\ date a = date b
  /\ sameLocation (location a) (location b).

(** A number as it comes back from storage: zero has lost its sign. *)
Definition storedNumber (x : number) : number :=
  match x with
  | S754_zero _ => Number.zero
  | _ => x
  end.

Definition storedLocation (l : option GeolocationPosition) : option GeolocationPosition :=
  match l with
  | Some g => Some {| latitude := storedNumber (latitude g);
                      longitude := storedNumber (longitude g) |}
  | None => None
  end.

Definition storedRecord (r : ProductRecord) : ProductRecord :=
  {| id := id r; imageUrl := imageUrl r; name := name r;
     price := storedNumber (price r); date := date r;
     location := storedLocation (location r) |}.

(** The state of a component mounted over a storage: what the load effect
    leaves of the initial state. *)
Definition freshStart (st : Storage) : completion outcome := load st initial.

End Vocabulary.

(** ** The verdicts of the filter, as functions *)

Section ViewVocabulary.
Import App HistoryView.

(** The verdict of the date filter on a record: whether the calendar day of
    its date is the filter value; false for an invalid date. *)
Definition dayIs (H : Host) (df : jsstring) (r : ProductRecord) : bool :=
  match calendarDay H r with
  | Normal day => JSString.eqb day df
  | Throw _ => false
  end.

(** Whether the filter inputs keep a record: each of them is empty or
    matches. *)
Definition keeps (H : Host) (st df : jsstring) (r : ProductRecord) : bool :=
  (negb (JSString.truthy st) || nameMatches H st r)
  && (negb (JSString.truthy df) || dayIs H df r).

(** The record has a valid date of time value [t]. *)
Definition atTime (H : Host) (t : Z) (r : ProductRecord) : bool :=
  match getTime H r with
  | Some t' => t' =? t
  | None => false
  end.

End ViewVocabulary.

(** * Sample data: the scenario of two purchases *)

Module Sample.
Import App.

Definition preview : jsstring := js "data:image/jpeg;base64,/9j/4AAQ".

(** A state in which the add form shows a recognised product. *)
Definition formOpen (s : State) : State :=
  setImagePreview (Some preview)
    (setOcrResult
       (Some {| productName := js "Milk"; ocrPrice := Number.parseFloat (js "2.5") |}) s).

(** 2024-01-01T10:00:00.000Z and the day after. *)
Definition milkEnv : AddEnv :=
  {| nowForId := 1704103200000; randomText := js "0.25"; nowForDate := 1704103200000 |}.
Definition breadEnv : AddEnv :=
  {| nowForId := 1704189600000; randomText := js "0.75"; nowForDate := 1704189600000 |}.

Definition milkForm : FormData := {| productNameField := js "Milk"; priceField := js "2.5" |}.
Definition breadForm : FormData := {| productNameField := js "Bread"; priceField := js "3.0" |}.
Definition refundForm : FormData := {| productNameField := js "Refund"; priceField := js "-5" |}.

Definition withMilk : State := handleAddRecord milkEnv milkForm (formOpen initial).
Definition withBoth : State := handleAddRecord breadEnv breadForm (formOpen withMilk).

Definition milk : ProductRecord :=
  {| id := js "2024-01-01T10:00:00.000Z-0.25"; imageUrl := preview; name := js "Milk";
     price := Number.parseFloat (js "2.5"); date := js "2024-01-01T10:00:00.000Z";
     location := None |}.
Definition bread : ProductRecord :=
  {| id := js "2024-01-02T10:00:00.000Z-0.75"; imageUrl := preview; name := js "Bread";
     price := Number.parseFloat (js "3.0"); date := js "2024-01-02T10:00:00.000Z";
     location := None |}.

(** Two submissions that read the same clock value and the same random
    text. *)
Definition withTwins : State := handleAddRecord milkEnv breadForm (formOpen withMilk).

(** A query of white space only. *)
Definition blankQuery : State :=
  {| records := [bread; milk]; filteredRecords := [bread; milk]; isLoadingOcr := false;
     isLoadingAnalysis := false; ocrResult := None;
     analysisResult := js "You spent 5.5 in total."; error := None;
     analysisQuery := js "   "; imagePreview := None; userLocation := None;
     searchTerm := []; dateFilter := [] |}.

(** A browser ten hours west of Greenwich. *)
Definition honoluluHost : Host :=
  {| toLowerCase := map asciiLower;
     utcOfLocal := fun t => t + 36000000;
     legacyDateParse := fun _ => None |}.

(** A heap in which the array of [records] is at location 1. *)
Definition heap1 : gmap Heap.loc (list ProductRecord) := {[ 1%positive := [bread; milk] ]}.

(** An accessible storage with room for everything. *)
Definition emptyStorage : Storage :=
  {| entries := ∅; denied := false; fits := fun _ => true |}.

(** A storage whose entry is not JSON. *)
Definition brokenStorage : Storage :=
  {| entries := {[ storageKey := BadText (js "[{oops") ]}; denied := false;
     fits := fun _ => true |}.

End Sample.

(** * Sample data: a damaged record, a photo and a position *)

Module Scenario.
Import App.

(** A record whose date is no date; under [asciiHost] nothing but the
    ECMAScript format parses. *)
Definition undated : ProductRecord :=
  {| id := js "x-0.5"; imageUrl := Sample.preview; name := js "Milk tea";
     price := Number.parseFloat (js "4"); date := js "yesterday"; location := None |}.

(** A heap in which the array of [records] is at location 1 and holds the
    damaged record between the two purchases. *)
Definition heap2 : gmap Heap.loc (list ProductRecord) :=
  {[ 1%positive := [Sample.bread; undated; Sample.milk] ]}.

(** A purchase of the instant of the milk. *)
Definition tea : ProductRecord :=
  {| id := js "2024-01-01T10:00:00.000Z-0.5"; imageUrl := Sample.preview; name := js "Tea";
     price := Number.parseFloat (js "1.2"); date := js "2024-01-01T10:00:00.000Z";
     location := None |}.

(** A heap in which the array of [records] holds two purchases of the same
    instant. *)
Definition heap3 : gmap Heap.loc (list ProductRecord) :=
  {[ 1%positive := [Sample.bread; tea; Sample.milk] ]}.

(** A recognition service that reads the label, and one that is out of
    quota. *)
Definition reads : option jsstring -> jsstring -> completion OcrResult :=
  fun _ _ => Normal {| productName := js "Milk"; ocrPrice := Number.parseFloat (js "2.5") |}.
Definition outOfQuota : option jsstring -> jsstring -> completion OcrResult :=
  fun _ _ => Throw (js "Quota exceeded").

(** A state with a message from an earlier failure and a position captured
    before any photo. *)
Definition located : State :=
  setUserLocation (Some {| latitude := Number.of_Z 21; longitude := Number.of_Z (-157) |})
    (setError (Some (js "Earlier failure")) Sample.withMilk).

(** A form whose price field holds no number. *)
Definition wordForm : FormData := {| productNameField := js "Gift"; priceField := js "free" |}.

(** The record of a submission with that form, and a collection that holds
    it. *)
Definition gift : ProductRecord :=
  newRecord Sample.breadEnv wordForm (Sample.formOpen Sample.withMilk) Sample.preview.
Definition withGift : State :=
  handleAddRecord Sample.breadEnv wordForm (Sample.formOpen Sample.withMilk).

(** An analysis service that fails. *)
Definition overloaded : jsstring -> list ProductRecord -> completion jsstring :=
  fun _ _ => Throw (js "Service overloaded").

(** A query with text, over an older answer and an older error. *)
Definition askTotal : State :=
  {| records := [Sample.bread; Sample.milk]; filteredRecords := [Sample.bread; Sample.milk];
     isLoadingOcr := false; isLoadingAnalysis := false; ocrResult := None;
     analysisResult := js "An older answer."; error := Some (js "Earlier failure");
     analysisQuery := js " total? "; imagePreview := None; userLocation := None;
     searchTerm := []; dateFilter := [] |}.


(** A record dated by hand, in the date-time form without offset: eight in
    the evening, local time. *)
Definition evening : ProductRecord :=
  {| id := js "y-0.5"; imageUrl := Sample.preview; name := js "Wine";
     price := Number.parseFloat (js "9"); date := js "2024-01-01T20:00:00";
     location := None |}.

(** A storage whose entry is the JSON text [null]. *)
Definition nullStorage : Storage :=
  {| entries := {[ storageKey := JsonText JNull ]}; denied := false;
     fits := fun _ => true |}.

End Scenario.

(** * Properties *)

(** ** Strings *)

Section StringFacts.

Lemma eqb_eq (a b : jsstring) : JSString.eqb a b = true <-> a = b.
Proof. unfold JSString.eqb. rewrite bool_decide_eq_true. tauto. Qed.

Lemma eqb_refl (a : jsstring) : JSString.eqb a a = true.
Proof. now apply eqb_eq. Qed.

Lemma startsWith_spec (s p : jsstring) :
  JSString.startsWith s p = true <-> exists v, s = p ++ v.
Proof.
  revert s; induction p as [|a p IH]; intros s; simpl.
  - split; [intros _; now exists s | intros _; now destruct s].
  - destruct s as [|b s].
    + simpl. split; [discriminate | intros [v Hv]; discriminate].
    + simpl. rewrite andb_true_iff, N.eqb_eq, IH. split.
      * intros [-> [v ->]]. eauto.
      * intros [v Hv]. injection Hv as -> ->. eauto.
Qed.

Lemma includes_spec (s p : jsstring) :
  JSString.includes s p = true <-> JSString.occursIn p s.
Proof.
  unfold JSString.occursIn. induction s as [|c s IH]; cbn [JSString.includes].
  - rewrite orb_false_r, startsWith_spec. split.
    + intros [v Hv]. exists [], v. exact Hv.
    + intros (u & v & H). destruct u; [eauto | discriminate].
  - rewrite orb_true_iff, startsWith_spec, IH. split.
    + intros [[v Hv] | (u & v & Hv)].
      * exists [], v. exact Hv.
      * exists (c :: u), v. simpl. now rewrite Hv.
    + intros (u & v & H). destruct u as [|c' u].
      * left. eauto.
      * right. injection H as -> ->. eauto.
Qed.

End StringFacts.

Example canvas_800_600 : Preprocessor.canvasSize 800 600 = (400, 300).
Proof. vm_compute. reflexivity. Qed.

Example canvas_square_539 : Preprocessor.canvasSize 539 539 = (399, 400).
Proof. vm_compute. reflexivity. Qed.

Example canvas_small : Preprocessor.canvasSize 320 200 = (320, 200).
Proof. vm_compute. reflexivity. Qed.

Example canvas_thin : Preprocessor.canvasSize 4000 1 = (400, 0).
Proof. vm_compute. reflexivity. Qed.

Example parseFloat_2_5 :
  Number.parseFloat (js "2.5") = S754_finite false 5629499534213120 (-51).
Proof. vm_compute. reflexivity. Qed.

Example parseFloat_0_1 :
  Number.parseFloat (js " 0.1kg") = S754_finite false 7205759403792794 (-56).
Proof. vm_compute. reflexivity. Qed.

Example parseFloat_exp :
  Number.parseFloat (js "-25e-1") = S754_finite true 5629499534213120 (-51).
Proof. vm_compute. reflexivity. Qed.

Example parseFloat_empty : Number.parseFloat (js "") = Number.NaN.
Proof. reflexivity. Qed.

Example isoString_epoch : JSDate.isoString 0 = js "1970-01-01T00:00:00.000Z".
Proof. vm_compute. reflexivity. Qed.

Example isoString_2024 :
  JSDate.isoString 1704103200123 = js "2024-01-01T10:00:00.123Z".
Proof. vm_compute. reflexivity. Qed.

Example isoString_before_epoch :
  JSDate.isoString (-1) = js "1969-12-31T23:59:59.999Z".
Proof. vm_compute. reflexivity. Qed.

Example isoString_far : JSDate.isoString JSDate.maxTime = js "+275760-09-13T00:00:00.000Z".
Proof. vm_compute. reflexivity. Qed.

Example parse_2024 :
  JSDate.parse asciiHost (js "2024-01-01T10:00:00Z") = Some 1704103200000.
Proof. vm_compute. reflexivity. Qed.

Example parse_offset :
  JSDate.parse asciiHost (js "2024-01-01T10:00:00.123+02:00") = Some 1704096000123.
Proof. vm_compute. reflexivity. Qed.

Example parse_date_only :
  JSDate.parse asciiHost (js "2024-01-02") = Some 1704153600000.
Proof. vm_compute. reflexivity. Qed.

Example parse_garbage : JSDate.parse asciiHost (js "yesterday") = None.
Proof. vm_compute. reflexivity. Qed.

(** ** The analysis form *)

Section Analysis.
Import App.

(** C7. A query that is empty after trimming white space makes
    [handleAnalyze] return at once: the external service is not called (no
    effect is recorded) and the state of the component is left as it was,
    whatever the service would have answered. *)
Theorem handleAnalyze_blank_query
    (service : jsstring -> list ProductRecord -> completion jsstring) (s : State) :
  JSString.trim (analysisQuery s) = [] ->
  handleAnalyze service s = (s, []).
Proof.
  intros Hblank. unfold handleAnalyze. rewrite Hblank. reflexivity.
Qed.

(** A query with visible text does reach the service, with the query as
    typed and the whole record list. *)
Lemma handleAnalyze_calls service s :
  JSString.trim (analysisQuery s) <> [] ->
  snd (handleAnalyze service s) = [AnalyzeCall (analysisQuery s) (records s)].
Proof.
  intros Hq. unfold handleAnalyze.
  destruct (JSString.trim (analysisQuery s)); [congruence | reflexivity].
Qed.

(** White space only, of any kind that [trim] strips, is blank. *)
Lemma trim_whitespace (q : jsstring) :
  forallb JSString.isWhiteSpace q = true -> JSString.trim q = [].
Proof.
  intros Hq. unfold JSString.trim.
  assert (Hs : JSString.trimStart q = []).
  { induction q as [|c q IH]; [reflexivity|].
    simpl in Hq. apply andb_true_iff in Hq as [Hc Hq].
    simpl. rewrite Hc. now apply IH. }
  now rewrite Hs.
Qed.

End Analysis.

(** ** The record store: deleting *)

Section Delete.
Import App.

Lemma delete_records i s :
  records (handleDeleteRecord i s)
  = List.filter (fun r => negb (JSString.eqb (id r) i)) (records s).
Proof. reflexivity. Qed.

(** Deleting removes every record of that id, however many there are. *)
Lemma delete_length i s :
  (length (records (handleDeleteRecord i s)) + occurrences i (records s)
   = length (records s))%nat.
Proof.
  rewrite delete_records. unfold occurrences.
  induction (records s) as [|r rs IH]; [reflexivity|].
  simpl. destruct (JSString.eqb (id r) i); simpl; lia.
Qed.

Lemma elem_of_filter {A} (f : A -> bool) (x : A) (l : list A) :
  x ∈ List.filter f l <-> x ∈ l /\ f x = true.
Proof. rewrite !list_elem_of_In. apply filter_In. Qed.

Lemma delete_gone i s :
  Forall (fun r => id r <> i) (records (handleDeleteRecord i s)).
Proof.
  rewrite delete_records. apply Forall_forall. intros r Hr.
  apply elem_of_filter in Hr as [_ Hr]. apply negb_true_iff in Hr.
  intros Heq. apply eqb_eq in Heq. congruence.
Qed.

Lemma filter_all {A} (f : A -> bool) (l : list A) :
  Forall (fun x => f x = true) l -> List.filter f l = l.
Proof.
  induction 1 as [|x l Hx _ IH]; simpl; [reflexivity|]. now rewrite Hx, IH.
Qed.

Lemma filter_none {A} (f : A -> bool) (l : list A) :
  Forall (fun x => f x = false) l -> List.filter f l = [].
Proof.
  induction 1 as [|x l Hx _ IH]; simpl; [reflexivity|]. now rewrite Hx.
Qed.

Lemma id_absent i rs :
  i ∉ ids rs -> Forall (fun r => JSString.eqb (id r) i = false) rs.
Proof.
  intros Hi. apply Forall_forall. intros r Hr.
  destruct (JSString.eqb (id r) i) eqn:E; [|reflexivity].
  apply eqb_eq in E. exfalso. apply Hi. unfold ids. rewrite <- E.
  now apply list_elem_of_fmap_2.
Qed.

Lemma delete_absent i s :
  i ∉ ids (records s) -> handleDeleteRecord i s = s.
Proof.
  intros Hi. unfold handleDeleteRecord. rewrite filter_all.
  - now destruct s.
  - eapply Forall_impl; [apply (id_absent i), Hi|].
    intros r Hr. simpl in Hr. now rewrite Hr.
Qed.

Lemma occurrences_absent i rs : i ∉ ids rs -> occurrences i rs = O.
Proof.
  intros Hi. unfold occurrences. rewrite filter_none; [reflexivity|].
  now apply id_absent.
Qed.

Lemma occurrences_unique i rs :
  NoDup (ids rs) -> i ∈ ids rs -> occurrences i rs = 1%nat.
Proof.
  unfold ids. induction rs as [|r rs IH]; simpl.
  - intros _ Hin. now apply elem_of_nil in Hin.
  - intros Hnd Hin. apply NoDup_cons in Hnd as [Hr Hnd].
    unfold occurrences. simpl. destruct (JSString.eqb (id r) i) eqn:E.
    + apply eqb_eq in E. subst i. simpl. f_equal.
      now apply occurrences_absent.
    + apply elem_of_cons in Hin as [Heq | Hin].
      * rewrite Heq, eqb_refl in E. discriminate.
      * now apply IH.
Qed.

(** C2. For every collection and every id, [handleDeleteRecord] leaves a
    collection in which no record has the id; the collection is shorter by
    the number of records that had the id, and the state is unchanged when
    none had it. In a store whose ids are pairwise distinct the collection
    is one record shorter when a record of that id existed. *)
Theorem handleDeleteRecord_spec (i : jsstring) (s : State) :
  Forall (fun r => id r <> i) (records (handleDeleteRecord i s))
  /\ (length (records (handleDeleteRecord i s)) + occurrences i (records s)
      = length (records s))%nat
  /\ (i ∉ ids (records s) -> handleDeleteRecord i s = s)
  /\ (NoDup (ids (records s)) -> i ∈ ids (records s) ->
      (length (records (handleDeleteRecord i s)) + 1 = length (records s))%nat).
Proof.
  split; [apply delete_gone | split; [apply delete_length | split]].
  - apply delete_absent.
  - intros Hnd Hin. rewrite <- (delete_length i s).
    now rewrite (occurrences_unique i (records s) Hnd Hin).
Qed.

End Delete.

(** ** Dates: the ISO string of a time value parses back to it *)

Section DateFacts.
Import JSDate.

Lemma digitValue_digitChar d : Number.digitValue (digitChar d) = Some (d mod 10).
Proof.
  unfold Number.digitValue, digitChar.
  pose proof (Z.mod_pos_bound d 10 ltac:(lia)) as Hb.
  replace ((48 <=? Z.to_N (48 + d mod 10))%N && (Z.to_N (48 + d mod 10) <=? 57)%N)
    with true by (symmetry; apply andb_true_iff; split; apply N.leb_le; lia).
  f_equal. lia.
Qed.

Lemma readDigits_snoc n : forall acc s,
  readDigits (S n) acc s =
  match readDigits n acc s with
  | Some (a, c :: r) =>
      match Number.digitValue c with
      | Some d => Some (10 * a + d, r)
      | None => None
      end
  | _ => None
  end.
Proof.
  induction n as [|n IH]; intros acc s.
  - simpl. destruct s as [|c s]; [reflexivity|].
    now destruct (Number.digitValue c).
  - change (readDigits (S (S n)) acc s) with
      (match s with
       | c :: s' => match Number.digitValue c with
                    | Some d => readDigits (S n) (10 * acc + d) s'
                    | None => None
                    end
       | [] => None
       end).
    destruct s as [|c s]; [reflexivity|].
    simpl (readDigits (S n) acc (c :: s)).
    destruct (Number.digitValue c); [apply IH | reflexivity].
Qed.

Lemma readDigits_digitsOf n : forall acc v rest,
  0 <= v ->
  readDigits n acc (digitsOf n v ++ rest)
  = Some (acc * 10 ^ Z.of_nat n + v mod 10 ^ Z.of_nat n, rest).
Proof.
  induction n as [|n IH]; intros acc v rest Hv.
  - simpl. f_equal. f_equal. rewrite Z.mod_1_r. lia.
  - rewrite readDigits_snoc. cbn [digitsOf]. rewrite <- app_assoc.
    rewrite IH by (apply Z.div_pos; lia).
    cbn [app]. rewrite digitValue_digitChar. f_equal. f_equal.
    rewrite Nat2Z.inj_succ, Z.pow_succ_r by lia.
    pose proof (Z.pow_pos_nonneg 10 (Z.of_nat n) ltac:(lia) ltac:(lia)) as Hp.
    rewrite Z.rem_mul_r by lia.
    lia.
Qed.

(** *** The calendar *)

Lemma allFrom_spec bits : forall base f,
  allFrom bits base f = true ->
  forall d, base <= d < base + 2 ^ Z.of_nat bits -> f d = true.
Proof.
  induction bits as [|b IH]; intros base f Hall d Hd.
  - simpl in *. replace d with base by lia. exact Hall.
  - cbn [allFrom] in Hall. apply andb_true_iff in Hall as [H1 H2].
    rewrite Nat2Z.inj_succ, Z.pow_succ_r in Hd by lia.
    destruct (Z.lt_ge_cases d (base + 2 ^ Z.of_nat b)).
    + apply (IH base f H1). lia.
    + apply (IH _ f H2). lia.
Qed.

(** The days of one 400-year cycle, checked one by one. *)
Lemma calendar_cycle :
  allFrom 17 0 (fun k => calendarDayOk (k - 719468))
  && allFrom 14 131072 (fun k => calendarDayOk (k - 719468)) = true.
Proof. vm_cast_no_check (eq_refl true). Qed.

Lemma civilFromDays_shift days k :
  civilFromDays (days + 146097 * k)
  = let '(y, m, d) := civilFromDays days in (y + 400 * k, m, d).
Proof.
  unfold civilFromDays.
  replace (days + 146097 * k + 719468) with (days + 719468 + k * 146097) by lia.
  rewrite Z.div_add by lia.
  set (z := days + 719468). set (era := z / 146097).
  replace (z + k * 146097 - (era + k) * 146097) with (z - era * 146097) by lia.
  set (doe := z - era * 146097).
  set (yoe := (doe - doe / 1460 + doe / 36524 - doe / 146096) / 365).
  set (doy := doe - (365 * yoe + yoe / 4 - yoe / 100)).
  set (mp := (5 * doy + 2) / 153).
  f_equal. f_equal. lia.
Qed.

Lemma daysFromCivil_shift y m d k :
  daysFromCivil (y + 400 * k) m d = daysFromCivil y m d + 146097 * k.
Proof.
  unfold daysFromCivil.
  set (y0 := if m <=? 2 then y - 1 else y).
  replace (if m <=? 2 then y + 400 * k - 1 else y + 400 * k) with (y0 + k * 400)
    by (unfold y0; destruct (m <=? 2); lia).
  rewrite Z.div_add by lia.
  set (era := y0 / 400).
  replace (y0 + k * 400 - (era + k) * 400) with (y0 - era * 400) by lia.
  lia.
Qed.

Lemma calendarDayOk_all days : calendarDayOk days = true.
Proof.
  set (k := (days + 719468) / 146097).
  set (d0 := days - 146097 * k).
  assert (Hd0 : 0 <= d0 + 719468 < 146097).
  { unfold d0, k. pose proof (Z.mod_pos_bound (days + 719468) 146097 ltac:(lia)).
    pose proof (Z.div_mod (days + 719468) 146097 ltac:(lia)). lia. }
  assert (Hbase : calendarDayOk d0 = true).
  { pose proof calendar_cycle as Hc. apply andb_true_iff in Hc as [Hc1 Hc2].
    replace d0 with (d0 + 719468 - 719468) by lia.
    destruct (Z.lt_ge_cases (d0 + 719468) 131072).
    - apply (allFrom_spec _ _ _ Hc1). change (2 ^ Z.of_nat 17) with 131072. lia.
    - apply (allFrom_spec _ _ _ Hc2). change (2 ^ Z.of_nat 14) with 16384. lia. }
  replace days with (d0 + 146097 * k) by (unfold d0; lia).
  unfold calendarDayOk in *. rewrite civilFromDays_shift.
  destruct (civilFromDays d0) as [[y m] d].
  rewrite daysFromCivil_shift.
  rewrite !andb_true_iff in *. rewrite Z.eqb_eq in *.
  destruct Hbase as [Hr Heq]. split; [exact Hr | lia].
Qed.

Lemma civilFromDays_spec days y m d :
  civilFromDays days = (y, m, d) ->
  1 <= m <= 12 /\ 1 <= d <= 31 /\ daysFromCivil y m d = days.
Proof.
  intros Hc. pose proof (calendarDayOk_all days) as Hok.
  unfold calendarDayOk in Hok. rewrite Hc in Hok.
  rewrite !andb_true_iff, !Z.leb_le, Z.eqb_eq in Hok. lia.
Qed.

Lemma civilFromDays_year days y m d :
  civilFromDays days = (y, m, d) ->
  -100000000 <= days <= 100000000 -> -272000 <= y <= 276001.
Proof.
  intros Hc Hd.
  unfold civilFromDays in Hc.
  set (z := days + 719468) in *. set (era := z / 146097) in *.
  set (doe := z - era * 146097) in *.
  set (yoe := (doe - doe / 1460 + doe / 36524 - doe / 146096) / 365) in *.
  assert (Hdoe : 0 <= doe < 146097).
  { unfold doe, era. pose proof (Z.mod_pos_bound z 146097 ltac:(lia)).
    pose proof (Z.div_mod z 146097 ltac:(lia)). lia. }
  assert (Hyoe : 0 <= yoe <= 400).
  { unfold yoe. clearbody doe. clear -Hdoe. Z.div_mod_to_equations. lia. }
  assert (Hera : -680 <= era <= 689).
  { unfold era, z. clear -Hd. Z.div_mod_to_equations. lia. }
  injection Hc as Hy _ _.
  destruct (_ <=? 2) in Hy; lia.
Qed.

Lemma readDigits_2 v rest :
  0 <= v < 100 -> readDigits 2 0 (digitsOf 2 v ++ rest) = Some (v, rest).
Proof.
  intros Hv. rewrite readDigits_digitsOf by lia.
  change (10 ^ Z.of_nat 2) with 100. rewrite Z.mod_small by lia. reflexivity.
Qed.

Lemma readDigits_3 v rest :
  0 <= v < 1000 -> readDigits 3 0 (digitsOf 3 v ++ rest) = Some (v, rest).
Proof.
  intros Hv. rewrite readDigits_digitsOf by lia.
  change (10 ^ Z.of_nat 3) with 1000. rewrite Z.mod_small by lia. reflexivity.
Qed.

Lemma digitChar_range d : (48 <= digitChar d <= 57)%N.
Proof.
  unfold digitChar. pose proof (Z.mod_pos_bound d 10 ltac:(lia)). lia.
Qed.

Lemma readYear_yearString y rest :
  -999999 <= y <= 999999 -> readYear (yearString y ++ rest) = Some (y, rest).
Proof.
  intros Hy. unfold yearString.
  destruct ((0 <=? y) && (y <=? 9999)) eqn:E.
  - apply andb_true_iff in E as [E1 E2]. apply Z.leb_le in E1, E2.
    pose proof (readDigits_digitsOf 4 0 y rest E1) as Hr.
    change (10 ^ Z.of_nat 4) with 10000 in Hr. rewrite Z.mod_small in Hr by lia.
    cbn [digitsOf app] in *. unfold readYear.
    pose proof (digitChar_range (y / 10 / 10 / 10)) as Hc.
    destruct (N.eqb_spec (digitChar (y / 10 / 10 / 10)) 43); [lia|].
    destruct (N.eqb_spec (digitChar (y / 10 / 10 / 10)) 45); [lia|].
    exact Hr.
  - destruct (y <? 0) eqn:En.
    + apply Z.ltb_lt in En. change (js "-") with [45%N]. cbn [app readYear].
      change ((45 =? 43)%N) with false. change ((45 =? 45)%N) with true. cbv iota.
      rewrite readDigits_digitsOf by lia.
      change (10 ^ Z.of_nat 6) with 1000000. rewrite Z.mod_small by lia.
      destruct (Z.eqb_spec (0 * 1000000 + Z.abs y) 0); [lia|]. f_equal. f_equal. lia.
    + apply Z.ltb_ge in En. change (js "+") with [43%N]. cbn [app readYear].
      change ((43 =? 43)%N) with true. cbv iota.
      rewrite readDigits_digitsOf by lia.
      change (10 ^ Z.of_nat 6) with 1000000. rewrite Z.mod_small by lia.
      f_equal. f_equal. lia.
Qed.


Theorem parseFormat_isoString t :
  validTime t -> parseFormat (isoString t) = UtcTime t.
Proof.
  unfold validTime, maxTime. intros Ht.
  unfold parseFormat, isoString, isoDate, isoTime.
  destruct (civilFromDays (t / msPerDay)) as [[y m] d] eqn:Hc.
  destruct (civilFromDays_spec _ _ _ _ Hc) as (Hm & Hd & Hdays).
  assert (Hq : -100000000 <= t / msPerDay <= 100000000).
  { unfold msPerDay. clear -Ht. Z.div_mod_to_equations. lia. }
  pose proof (civilFromDays_year _ _ _ _ Hc Hq) as Hy.
  pose proof (Z.mod_pos_bound t msPerDay ltac:(unfold msPerDay; lia)) as Hr.
  pose proof (Z.div_mod t msPerDay ltac:(unfold msPerDay; lia)) as Hdm.
  set (r := t mod msPerDay) in *.
  change (js "-") with [45%N]. change (js "T") with [84%N].
  change (js ":") with [58%N]. change (js ".") with [46%N]. change (js "Z") with [90%N].
  rewrite <- !app_assoc. cbn [app].
  rewrite readYear_yearString by lia.
  cbn [readOptField]. rewrite readDigits_2 by lia.
  cbn [readOptField]. rewrite readDigits_2 by lia.
  replace ((1 <=? m) && (m <=? 12) && (1 <=? d) && (d <=? 31)) with true
    by (symmetry; rewrite !andb_true_iff, !Z.leb_le; lia).
  cbn [negb]. cbv iota. unfold readClock.
  assert (Hh : 0 <= r / 3600000 <= 23)
    by (clearbody r; unfold msPerDay in Hr; clear -Hr; Z.div_mod_to_equations; lia).
  assert (Hmi : 0 <= r / 60000 mod 60 <= 59)
    by (clear; Z.div_mod_to_equations; lia).
  assert (Hs : 0 <= r / 1000 mod 60 <= 59)
    by (clear; Z.div_mod_to_equations; lia).
  assert (Hms : 0 <= r mod 1000 <= 999)
    by (clear; Z.div_mod_to_equations; lia).
  rewrite readDigits_2 by lia. rewrite readDigits_2 by lia.
  rewrite readDigits_2 by lia. rewrite readDigits_3 by lia.
  change (readZone [90%N]) with (Some (Some 0)). cbv iota.
  replace (validClock (r / 3600000) (r / 60000 mod 60) (r / 1000 mod 60) (r mod 1000))
    with true
    by (symmetry; unfold validClock; rewrite orb_true_iff, !andb_true_iff, !Z.leb_le; lia).
  f_equal. unfold makeTime. rewrite Hdays.
  clearbody r. unfold msPerDay in *. clear -Hr Hdm.
  Z.div_mod_to_equations. lia.
Qed.

Lemma parse_isoString H t : validTime t -> parse H (isoString t) = Some t.
Proof.
  intros Ht. unfold parse. rewrite parseFormat_isoString by exact Ht.
  unfold timeClip. unfold validTime in Ht. apply Z.leb_le in Ht. now rewrite Ht.
Qed.

Lemma isoString_inj t1 t2 :
  validTime t1 -> validTime t2 -> isoString t1 = isoString t2 -> t1 = t2.
Proof.
  intros H1 H2 Heq.
  pose proof (parseFormat_isoString t1 H1) as P1.
  rewrite Heq, (parseFormat_isoString t2 H2) in P1. congruence.
Qed.

End DateFacts.

(** ** The history view filter *)

Section ViewFacts.
Import Heap HistoryView.
Variable H : Host.

(** *** Sorting *)

Lemma insert_perm {A} (cmp : A -> A -> option Z) x xs :
  Permutation (JSArray.insert cmp x xs) (x :: xs).
Proof.
  induction xs as [|y ys IH]; simpl; [reflexivity|].
  destruct (JSArray.after (cmp x y)); [|reflexivity].
  rewrite IH. apply perm_swap.
Qed.

Lemma sorted_perm {A} (cmp : A -> A -> option Z) xs :
  Permutation (JSArray.sorted cmp xs) xs.
Proof.
  induction xs as [|x xs IH]; simpl; [reflexivity|].
  rewrite insert_perm. now rewrite IH.
Qed.

Lemma insert_sorted x xs :
  (validDate H) x -> Forall (validDate H) xs ->
  StronglySorted (notEarlier H) xs ->
  StronglySorted (notEarlier H) (JSArray.insert (byDateDescending H) x xs).
Proof.
  intros [tx Hx] Hv Hs. induction Hs as [|y ys Hs IH Hy]; simpl.
  - repeat constructor.
  - apply Forall_cons in Hv as [[ty Hty] Hv].
    unfold byDateDescending at 1. rewrite Hty, Hx. simpl.
    destruct (Z.ltb_spec 0 (ty - tx)).
    + constructor; [now apply IH|].
      rewrite insert_perm. constructor; [|exact Hy].
      exists ty, tx. repeat split; [assumption..|lia].
    + constructor; [now constructor|].
      constructor; [exists tx, ty; repeat split; [assumption..|lia]|].
      eapply Forall_impl; [exact Hy|]. cbv beta.
      intros z (ty' & tz & Hty' & Htz & Hle).
      exists tx, tz. repeat split; [assumption..|]. rewrite Hty in Hty'. injection Hty' as <-. lia.
Qed.

Lemma sorted_sorted xs :
  Forall (validDate H) xs ->
  StronglySorted (notEarlier H) (JSArray.sorted (byDateDescending H) xs).
Proof.
  induction 1 as [|x xs Hx Hxs IH]; simpl; [constructor|].
  apply insert_sorted; [exact Hx | | exact IH].
  eapply Permutation_Forall; [|exact Hxs]. symmetry. apply sorted_perm.
Qed.

(** *** Filtering *)

Lemma filterC_pure {A} (f : A -> completion bool) (g : A -> bool) xs :
  Forall (fun x => f x = Normal (g x)) xs ->
  JSArray.filterC f xs = Normal (List.filter g xs).
Proof.
  induction 1 as [|x xs Hx _ IH]; simpl; [reflexivity|].
  rewrite Hx, IH. simpl. now destruct (g x).
Qed.

Lemma filterC_sound {A} (f : A -> completion bool) xs ys :
  JSArray.filterC f xs = Normal ys ->
  Forall (fun y => y ∈ xs /\ f y = Normal true) ys.
Proof.
  revert ys. induction xs as [|x xs IH]; simpl; intros ys Hys.
  - injection Hys as <-. constructor.
  - destruct (f x) as [b|] eqn:Hx; [|discriminate]. simpl in Hys.
    destruct (JSArray.filterC f xs) as [zs|]; [|discriminate]. simpl in Hys.
    injection Hys as <-. specialize (IH zs eq_refl).
    assert (Hzs : Forall (fun y => y ∈ x :: xs /\ f y = Normal true) zs).
    { eapply Forall_impl; [exact IH|]. intros y [Hy1 Hy2]. split; [now right | exact Hy2]. }
    destruct b; [constructor; [split; [left|exact Hx]|]|]; assumption.
Qed.

Lemma dateMatches_valid df r t :
  getTime H r = Some t ->
  dateMatches H df r = Normal (JSString.eqb (JSString.beforeFirst 84 (JSDate.isoString t)) df).
Proof. intros Ht. unfold dateMatches, calendarDay. now rewrite Ht. Qed.

Lemma dateMatches_true df r :
  dateMatches H df r = Normal true <-> calendarDay H r = Normal df.
Proof.
  unfold dateMatches. destruct (calendarDay H r) as [day|]; simpl.
  - split.
    + intros Heq. injection Heq as Heq. apply eqb_eq in Heq. now subst.
    + intros Heq. injection Heq as ->. now rewrite eqb_refl.
  - split; discriminate.
Qed.

(** With valid dates the date filter does not throw. *)
Lemma filterC_dates df rs :
  Forall (validDate H) rs -> exists out, JSArray.filterC (dateMatches H df) rs = Normal out.
Proof.
  induction 1 as [|r rs [t Ht] _ [out IH]]; simpl; [eauto|].
  rewrite (dateMatches_valid df r t Ht), IH. simpl. eauto.
Qed.

(** *** The effect on the heap *)

Lemma alloc_scratch h0 h v :
  (forall l0, is_Some (h0 !! l0) -> is_Some (h !! l0) /\ h !! l0 = h0 !! l0) ->
  exists l h', alloc v h = (Normal l, h') /\ scratch h0 l v h'.
Proof.
  intros Hext. unfold alloc.
  pose proof (is_fresh (dom h)) as Hfresh. set (l := fresh (dom h)) in *.
  rewrite elem_of_dom in Hfresh.
  exists l, (<[l := v]> h). split; [reflexivity|]. split; [|split].
  - apply lookup_insert_eq.
  - destruct (h0 !! l) eqn:E; [|reflexivity].
    exfalso. apply Hfresh. apply Hext. eauto.
  - intros l0 Hl0. destruct (Hext l0 Hl0) as [Hs Heq].
    rewrite lookup_insert_ne; [exact Heq|]. intros ->. now apply Hfresh.
Qed.

Lemma scratch_ext h0 l v h :
  scratch h0 l v h ->
  forall l0, is_Some (h0 !! l0) -> is_Some (h !! l0) /\ h !! l0 = h0 !! l0.
Proof.
  intros (_ & _ & Hk) l0 Hl0. rewrite (Hk l0 Hl0). auto.
Qed.

Lemma spread_scratch h recs :
  exists l h', JSArray.spread recs h = (Normal l, h')
               /\ scratch h l (default [] (h !! recs)) h'.
Proof.
  unfold JSArray.spread, bind, read. apply alloc_scratch. auto.
Qed.

Lemma filter_scratch f h0 l v h :
  scratch h0 l v h ->
  match JSArray.filterC f v with
  | Normal ys => exists l' h', JSArray.filter f l h = (Normal l', h') /\ scratch h0 l' ys h'
  | Throw e => JSArray.filter f l h = (Throw e, h)
  end.
Proof.
  intros Hs. unfold JSArray.filter, bind, read, lift.
  destruct Hs as (Hl & Hs). rewrite Hl. simpl.
  destruct (JSArray.filterC f v) as [ys|e]; [|reflexivity].
  apply alloc_scratch. apply (scratch_ext h0 l v). split; assumption.
Qed.

Lemma sort_scratch cmp h0 l v h :
  scratch h0 l v h ->
  exists h', JSArray.sort cmp l h = (Normal l, h') /\ scratch h0 l (JSArray.sorted cmp v) h'.
Proof.
  intros (Hl & Hnew & Hk). unfold JSArray.sort, bind, read, write, ret.
  rewrite Hl. simpl. eexists. split; [reflexivity|]. split; [|split].
  - apply lookup_insert_eq.
  - exact Hnew.
  - intros l0 Hl0. rewrite lookup_insert_ne; [now apply Hk|].
    intros ->. rewrite Hnew in Hl0. now destruct Hl0.
Qed.

(** The effect computes [filteredView] of the elements of [records] into
    an array of its own, or throws as [filteredView] does; either way the
    arrays that existed before are as they were. *)
Lemma filterEffect_run h recs st df :
  match filteredView H (default [] (h !! recs)) st df with
  | Normal out =>
      exists l h', filterEffect H recs st df h = (Normal l, h') /\ scratch h l out h'
  | Throw e =>
      exists h', filterEffect H recs st df h = (Throw e, h')
                 /\ forall l0, is_Some (h !! l0) -> h' !! l0 = h !! l0
  end.
Proof.
  unfold filterEffect, filteredView.
  destruct (spread_scratch h recs) as (l1 & h1 & E1 & S1).
  set (rs := default [] (h !! recs)) in *.
  unfold bind. rewrite E1.
  assert (exists l2 h2,
    (if JSString.truthy st
     then JSArray.filter (fun record => Normal (nameMatches H st record)) l1
     else ret l1) h1 = (Normal l2, h2)
    /\ scratch h l2 (if JSString.truthy st then List.filter (nameMatches H st) rs else rs) h2)
    as (l2 & h2 & E2 & S2).
  { destruct (JSString.truthy st).
    - pose proof (filter_scratch (fun record => Normal (nameMatches H st record)) h l1 rs h1 S1) as Hf.
      rewrite (filterC_pure _ (nameMatches H st)) in Hf by (apply Forall_forall; auto).
      exact Hf.
    - exists l1, h1. split; [reflexivity | exact S1]. }
  set (byName := if JSString.truthy st then List.filter (nameMatches H st) rs else rs) in *.
  rewrite E2.
  destruct (JSString.truthy df).
  - pose proof (filter_scratch (dateMatches H df) h l2 byName h2 S2) as Hf.
    destruct (JSArray.filterC (dateMatches H df) byName) as [ys|e]; simpl.
    + destruct Hf as (l3 & h3 & E3 & S3). rewrite E3.
      destruct (sort_scratch (byDateDescending H) h l3 ys h3 S3) as (h4 & E4 & S4).
      exists l3, h4. split; assumption.
    + rewrite Hf. exists h2. split; [reflexivity|]. apply S2.
  - simpl.
    destruct (sort_scratch (byDateDescending H) h l2 byName h2 S2) as (h4 & E4 & S4).
    exists l2, h4. split; assumption.
Qed.

(** *** What the view holds *)

Lemma truthy_false (s : jsstring) : JSString.truthy s = false -> s = [].
Proof. now destruct s. Qed.

Lemma filteredView_spec rs st df :
  Forall (validDate H) rs ->
  exists out,
    filteredView H rs st df = Normal out
    /\ Forall (fun r => r ∈ rs /\ passes H st df r) out
    /\ StronglySorted (notEarlier H) out.
Proof.
  intros Hv. unfold filteredView.
  set (byName := if JSString.truthy st then List.filter (nameMatches H st) rs else rs).
  assert (Hn : Forall (fun r => r ∈ rs /\ (st <> [] ->
                JSString.occursIn (toLowerCase H st) (toLowerCase H (name r)))) byName).
  { unfold byName. destruct (JSString.truthy st) eqn:Et.
    - apply Forall_forall. intros r Hr. apply elem_of_filter in Hr as [Hr Hm].
      split; [exact Hr|]. intros _. now apply includes_spec.
    - apply Forall_forall. intros r Hr. split; [exact Hr|].
      intros Hne. now apply truthy_false in Et. }
  assert (Hvn : Forall (validDate H) byName).
  { apply Forall_forall. intros r Hr.
    rewrite Forall_forall in Hn, Hv. apply Hv, Hn, Hr. }
  assert (exists byDate,
    (if JSString.truthy df then JSArray.filterC (dateMatches H df) byName
     else Normal byName) = Normal byDate
    /\ Forall (fun r => r ∈ rs /\ passes H st df r) byDate) as (byDate & Ed & Hd).
  { destruct (JSString.truthy df) eqn:Ed.
    - destruct (filterC_dates df byName Hvn) as [out Hout].
      exists out. split; [exact Hout|].
      apply filterC_sound in Hout. rewrite Forall_forall in Hn, Hout.
      apply Forall_forall. intros r Hr. destruct (Hout r Hr) as [Hin Hm].
      destruct (Hn r Hin) as [Hrs Hname]. repeat split; [exact Hrs | exact Hname |].
      intros _. now apply dateMatches_true.
    - exists byName. split; [reflexivity|].
      eapply Forall_impl; [exact Hn|]. intros r [Hrs Hname].
      repeat split; [exact Hrs | exact Hname |].
      intros Hne. now apply truthy_false in Ed. }
  rewrite Ed. simpl. eexists. split; [reflexivity|]. split.
  - eapply Permutation_Forall; [|exact Hd]. symmetry. apply sorted_perm.
  - apply sorted_sorted. apply Forall_forall. intros r Hr.
    rewrite Forall_forall in Hd, Hv. apply Hv, Hd, Hr.
Qed.

(** C9. Whatever the filter inputs, and whether the effect ends
    normally or throws, the array held in [records] has the same elements in
    the same order afterwards, as has every other array that existed
    before; the array passed to [setFilteredRecords] is another one. *)
Theorem filterEffect_frame
    (h : heap) (recs : loc) (rs : list ProductRecord) (st df : jsstring) :
  h !! recs = Some rs ->
  snd (filterEffect H recs st df h) !! recs = Some rs
  /\ fst (filterEffect H recs st df h) <> Normal recs
  /\ forall l0, is_Some (h !! l0) -> snd (filterEffect H recs st df h) !! l0 = h !! l0.
Proof.
  intros Hrecs.
  pose proof (filterEffect_run h recs st df) as Hrun.
  destruct (filteredView H (default [] (h !! recs)) st df) as [out|e].
  - destruct Hrun as (l & h' & -> & Hl & Hnew & Hk). simpl. repeat split.
    + rewrite Hk by eauto. exact Hrecs.
    + intros Heq. injection Heq as ->. congruence.
    + exact Hk.
  - destruct Hrun as (h' & -> & Hk). simpl. repeat split.
    + rewrite Hk by eauto. exact Hrecs.
    + discriminate.
    + exact Hk.
Qed.

End ViewFacts.

(** ** The date filter and the time zone *)

Section UtcDay.
Import HistoryView.

Lemma beforeFirst_app sep (a b : jsstring) :
  Forall (fun c => c <> sep) a -> JSString.beforeFirst sep (a ++ sep :: b) = a.
Proof.
  induction 1 as [|c a Hc _ IH]; simpl.
  - now rewrite N.eqb_refl.
  - destruct (N.eqb_spec c sep); [contradiction|]. now rewrite IH.
Qed.

Lemma digitsOf_digits n : forall v, Forall (fun c => (48 <= c <= 57)%N) (JSDate.digitsOf n v).
Proof.
  induction n as [|n IH]; intros v; simpl; [constructor|].
  apply Forall_app. split; [apply IH|]. repeat constructor; apply digitChar_range.
Qed.

Lemma isoDate_chars t : Forall (fun c => c <> 84%N) (JSDate.isoDate t).
Proof.
  unfold JSDate.isoDate. destruct (JSDate.civilFromDays _) as [[y m] d].
  assert (Hd : forall n v, Forall (fun c => c <> 84%N) (JSDate.digitsOf n v)).
  { intros n v. eapply Forall_impl; [apply digitsOf_digits|]. intros c Hc. cbv beta in Hc. lia. }
  rewrite !Forall_app. repeat split; try apply Hd; try (repeat constructor; discriminate).
  unfold JSDate.yearString. destruct (_ && _); [apply Hd|].
  apply Forall_app. split; [|apply Hd].
  destruct (_ <? _); repeat constructor; discriminate.
Qed.

(** The text before the [T] of an ISO string is its date part. *)
Lemma isoString_day t : JSString.beforeFirst 84 (JSDate.isoString t) = JSDate.isoDate t.
Proof.
  unfold JSDate.isoString. change (js "T") with [84%N]. cbn [app].
  apply beforeFirst_app, isoDate_chars.
Qed.

(** A date string with a UTC offset designator, or of a date-only form, has
    the same time value in every browser. *)
Lemma getTime_designated (H : Host) r t :
  JSDate.parseFormat (date r) = JSDate.UtcTime t -> getTime H r = JSDate.timeClip t.
Proof. intros Hp. unfold getTime, JSDate.parse. now rewrite Hp. Qed.

Lemma getTime_created (H : Host) r t :
  validTime t -> date r = JSDate.isoString t -> getTime H r = Some t.
Proof. intros Ht Hd. unfold getTime. rewrite Hd. now apply parse_isoString. Qed.

(** C10. For a record with a valid date the date predicate compares the
    UTC calendar day of its time value -- the date part of its ISO string --
    with the filter value. Its verdict is the same under any two hosts,
    whatever their time zones, when the date string designates a UTC
    instant: it is of the date-only form or carries an offset, as the ISO
    string of a time value does that [handleAddRecord] writes. *)
Theorem dateMatches_utc (H1 H2 : Host) (r : ProductRecord) (df : jsstring) (t : Z) :
  (getTime H1 r = Some t ->
   dateMatches H1 df r = Normal (JSString.eqb (JSDate.isoDate t) df))
  /\ (JSDate.parseFormat (date r) = JSDate.UtcTime t ->
      dateMatches H2 df r = dateMatches H1 df r)
  /\ (validTime t ->
      date r = JSDate.isoString t ->
      dateMatches H1 df r = Normal (JSString.eqb (JSDate.isoDate t) df)
      /\ dateMatches H2 df r = dateMatches H1 df r).
Proof.
  split; [|split].
  - intros Ht. rewrite (dateMatches_valid H1 df r t Ht). now rewrite isoString_day.
  - intros Hp. unfold dateMatches, calendarDay.
    now rewrite (getTime_designated H1 r t Hp), (getTime_designated H2 r t Hp).
  - intros Ht Hd.
    assert (Hall : forall H, dateMatches H df r = Normal (JSString.eqb (JSDate.isoDate t) df)).
    { intros H. rewrite (dateMatches_valid H df r t (getTime_created H r t Ht Hd)).
      now rewrite isoString_day. }
    split; [apply Hall|]. now rewrite !Hall.
Qed.

End UtcDay.

(** ** The record store: adding *)

Section Add.
Import App.

Lemma handleAddRecord_records env form s :
  readyToAdd s ->
  exists r,
    records (handleAddRecord env form s) = r :: records s
    /\ id r = newId env
    /\ name r = productNameField form
    /\ price r = Number.parseFloat (priceField form)
    /\ date r = JSDate.isoString (nowForDate env)
    /\ location r = userLocation s.
Proof.
  intros (o & img & Ho & Hi & Ht). unfold handleAddRecord. rewrite Ho, Hi, Ht.
  eexists. split; [reflexivity|]. repeat split.
Qed.

Lemma handleAddRecord_idle env form s :
  ~ readyToAdd s -> handleAddRecord env form s = s.
Proof.
  intros Hn. unfold handleAddRecord.
  destruct (ocrResult s) as [o|] eqn:Ho; [|reflexivity].
  destruct (imagePreview s) as [img|] eqn:Hi; [|reflexivity].
  destruct (JSString.truthy img) eqn:Ht; [|reflexivity].
  exfalso. apply Hn. exists o, img. auto.
Qed.

(** C6, as the code has it. The record that [handleAddRecord] stores has
    the price that [parseFloat] reads from the price field, of either
    sign, and the records already stored keep theirs: the prices in the
    store are all non-negative afterwards exactly when they were before
    and the confirmed price is. *)
Theorem handleAddRecord_price (env : AddEnv) (form : FormData) (s : State) :
  readyToAdd s ->
  (exists r, records (handleAddRecord env form s) = r :: records s
             /\ price r = Number.parseFloat (priceField form))
  /\ (Forall (fun r => nonNegative (price r)) (records (handleAddRecord env form s))
      <-> nonNegative (Number.parseFloat (priceField form))
          /\ Forall (fun r => nonNegative (price r)) (records s)).
Proof.
  intros Hready.
  destruct (handleAddRecord_records env form s Hready) as (r & Hr & _ & _ & Hp & _).
  split; [exists r; auto|].
  rewrite Hr, Forall_cons, Hp. reflexivity.
Qed.

(** *** Identifiers *)

(** An ISO string starts with a digit and has 24 code units, or starts
    with a sign and has 27. *)
Lemma isoString_cases t :
  (exists c s, JSDate.isoString t = c :: s /\ (48 <= c <= 57)%N /\ length s = 23%nat)
  \/ (exists c s, JSDate.isoString t = c :: s /\ (c = 43 \/ c = 45)%N /\ length s = 26%nat).
Proof.
  unfold JSDate.isoString, JSDate.isoDate, JSDate.isoTime.
  destruct (JSDate.civilFromDays _) as [[y m] d]. unfold JSDate.yearString.
  change (js "-") with [45%N]. change (js "+") with [43%N].
  destruct (_ && _).
  - left. cbn [JSDate.digitsOf app]. do 2 eexists.
    split; [reflexivity|]. split; [apply digitChar_range | reflexivity].
  - right. destruct (_ <? _); cbn [JSDate.digitsOf app]; do 2 eexists;
      (split; [reflexivity|]); (split; [|reflexivity]); auto.
Qed.

Lemma isoString_prefix_free t1 t2 (x1 x2 : jsstring) :
  JSDate.isoString t1 ++ x1 = JSDate.isoString t2 ++ x2 ->
  JSDate.isoString t1 = JSDate.isoString t2 /\ x1 = x2.
Proof.
  intros Heq. apply app_inj_1; [|exact Heq].
  destruct (isoString_cases t1) as [(c1 & s1 & E1 & Hc1 & L1) | (c1 & s1 & E1 & Hc1 & L1)],
           (isoString_cases t2) as [(c2 & s2 & E2 & Hc2 & L2) | (c2 & s2 & E2 & Hc2 & L2)];
    rewrite E1, E2 in *; simpl in *; try congruence;
    injection Heq as Hc _; lia.
Qed.

(** Two add-record submissions make the same id only from the same clock
    reading and the same random text. *)
Lemma newId_inj e1 e2 :
  validTime (nowForId e1) -> validTime (nowForId e2) ->
  newId e1 = newId e2 ->
  nowForId e1 = nowForId e2 /\ randomText e1 = randomText e2.
Proof.
  intros V1 V2 Heq. unfold newId in Heq.
  apply isoString_prefix_free in Heq as [Ht Hx].
  split; [now apply isoString_inj|]. now injection Hx.
Qed.

Lemma reaches_ids rs0 envs s :
  reaches rs0 envs s ->
  forall i, i ∈ ids (records s) -> i ∈ ids rs0 \/ i ∈ map newId envs.
Proof.
  induction 1 as [|envs s env form _ IH|envs s i0 _ IH|envs s s' _ IH Hrec]; intros i Hi.
  - now left.
  - unfold handleAddRecord in Hi.
    destruct (ocrResult s); [|destruct (IH i Hi); [now left | right; now right]].
    destruct (imagePreview s) as [img|]; [|destruct (IH i Hi); [now left | right; now right]].
    destruct (JSString.truthy img); [|destruct (IH i Hi); [now left | right; now right]].
    simpl in Hi. apply elem_of_cons in Hi as [-> | Hi].
    + right. now left.
    + destruct (IH i Hi); [now left | right; now right].
  - apply IH. rewrite delete_records in Hi. unfold ids in *.
    apply list_elem_of_fmap in Hi as (r & -> & Hr).
    apply elem_of_filter in Hr as [Hr _]. now apply list_elem_of_fmap_2.
  - apply IH. now rewrite <- Hrec.
Qed.

Lemma filter_ids_NoDup (f : ProductRecord -> bool) rs :
  NoDup (ids rs) -> NoDup (ids (List.filter f rs)).
Proof.
  unfold ids. induction rs as [|r rs IH]; simpl; [auto|].
  intros Hnd. apply NoDup_cons in Hnd as [Hr Hnd].
  destruct (f r); simpl; [|now apply IH].
  apply NoDup_cons. split; [|now apply IH].
  intros Hin. apply Hr. apply list_elem_of_fmap in Hin as (r' & -> & Hr').
  apply elem_of_filter in Hr' as [Hr' _]. now apply list_elem_of_fmap_2.
Qed.

(** C5, as the code has it. From a loaded collection with pairwise
    distinct ids, every state reached has pairwise distinct ids, provided
    that no two add-record submissions read the same clock value together
    with the same random text, and that no submission makes an id that
    the loaded collection already has. *)
Theorem reaches_ids_distinct
    (rs0 : list ProductRecord) (envs : list AddEnv) (s : State) :
  reaches rs0 envs s ->
  NoDup (ids rs0) ->
  Forall (fun env => validTime (nowForId env)) envs ->
  NoDup (map draw envs) ->
  Forall (fun env => newId env ∉ ids rs0) envs ->
  NoDup (ids (records s)).
Proof.
  induction 1 as [|envs s env form Hreach IH|envs s i0 _ IH|envs s s' _ IH Hrec];
    intros H0 Hvalid Hdraws Hfresh.
  - exact H0.
  - apply Forall_cons in Hvalid as [Hv Hvalid]. apply Forall_cons in Hfresh as [Hf Hfresh].
    simpl in Hdraws. apply NoDup_cons in Hdraws as [Hd Hdraws].
    specialize (IH H0 Hvalid Hdraws Hfresh).
    unfold handleAddRecord.
    destruct (ocrResult s); [|exact IH].
    destruct (imagePreview s) as [img|]; [|exact IH].
    destruct (JSString.truthy img); [|exact IH].
    simpl. apply NoDup_cons. split; [|exact IH].
    intros Hin. destruct (reaches_ids rs0 envs s Hreach _ Hin) as [Hin0 | Hine].
    + now apply Hf.
    + apply list_elem_of_fmap in Hine as (env' & Heq & Henv').
      apply Hd. rewrite Forall_forall in Hvalid.
      destruct (newId_inj env env' Hv (Hvalid env' Henv') Heq) as [Ht Hr].
      replace (draw env) with (draw env') by (unfold draw; now rewrite Ht, Hr).
      now apply list_elem_of_fmap_2.
  - rewrite delete_records. apply filter_ids_NoDup. now apply IH.
  - rewrite Hrec. now apply IH.
Qed.

End Add.

(** ** The record store: saving and loading *)

Section Persistence.
Import App.

Lemma ofNumber_finite x :
  Number.isFinite x = true -> JSON.ofNumber x = JNumber (storedNumber x).
Proof. destruct x; simpl; congruence. Qed.

Lemma storedNumber_same x : Number.isFinite x = true -> sameNumber (storedNumber x) x.
Proof.
  unfold sameNumber, SFeqb. destruct x as [s|s| |s m e]; simpl; try discriminate; intros _.
  - reflexivity.
  - destruct s; rewrite Z.compare_refl, Pos.compare_cont_refl; reflexivity.
Qed.

Lemma asLocation_ofLocation l :
  match l with
  | Some g => Number.isFinite (latitude g) = true /\ Number.isFinite (longitude g) = true
  | None => True
  end ->
  JSON.asLocation (JSON.ofLocation l) = Some (storedLocation l).
Proof.
  destruct l as [g|]; [|reflexivity]. intros [Hla Hlo].
  unfold JSON.ofLocation, JSON.asLocation.
  rewrite (ofNumber_finite _ Hla), (ofNumber_finite _ Hlo). cbv beta iota.
  now rewrite !eqb_refl.
Qed.

Lemma asRecord_ofRecord r :
  validRecord r -> JSON.asRecord (JSON.ofRecord r) = Some (storedRecord r).
Proof.
  intros [Hp Hl]. unfold JSON.ofRecord, JSON.asRecord.
  rewrite (ofNumber_finite _ Hp). cbv beta iota. rewrite !eqb_refl.
  rewrite (asLocation_ofLocation _ Hl). reflexivity.
Qed.

Lemma asRecords_stringify rs :
  Forall validRecord rs ->
  JSON.asRecordList (map JSON.ofRecord rs) = Some (map storedRecord rs).
Proof.
  induction 1 as [|r rs Hr _ IH]; cbn [JSON.asRecordList map]; [reflexivity|].
  now rewrite (asRecord_ofRecord r Hr), IH.
Qed.

Lemma storedRecord_same r : validRecord r -> sameRecord (storedRecord r) r.
Proof.
  intros [Hp Hl]. unfold sameRecord, storedRecord. simpl.
  repeat split; [now apply storedNumber_same|].
  destruct (location r) as [g|]; simpl; [|exact I].
  destruct Hl. split; now apply storedNumber_same.
Qed.

(** C3. When saving succeeds -- storage is accessible and the text fits --
    the entry holds the serialization of the in-memory collection; and for
    a collection of valid records, a component freshly mounted over that
    storage loads, without logging an error, a collection equal to the one
    saved, record by record and field by field. What is loaded is the saved
    collection itself but for the sign of a zero, which the text does not
    carry. *)
Theorem save_then_load (st : Storage) (s : State) :
  denied st = false ->
  fits st (JSON.stringify (records s)) = true ->
  Forall validRecord (records s) ->
  exists st' s',
    save st s = Normal (st', s, [])
    /\ entries st' !! storageKey = Some (JSON.stringify (records s))
    /\ freshStart st' = Normal (Ok s' [])
    /\ records s' = map storedRecord (records s)
    /\ Forall2 sameRecord (records s') (records s).
Proof.
  intros Hacc Hfits Hvalid.
  unfold save, LocalStorage.setItem. rewrite Hacc, Hfits. simpl.
  eexists. exists (setRecords (map storedRecord (records s)) initial).
  split; [reflexivity|]. split; [apply lookup_insert_eq|].
  split; [|split].
  - unfold freshStart, load, LocalStorage.getItem. simpl.
    rewrite lookup_insert_eq. simpl.
    now rewrite (asRecords_stringify _ Hvalid).
  - reflexivity.
  - simpl. clear Hfits. induction Hvalid as [|r rs Hr _ IH]; simpl; constructor.
    + now apply storedRecord_same.
    + exact IH.
Qed.

(** Without a zero of negative sign among its numbers, a valid record
    comes back as it was. *)
Lemma storedRecord_id r :
  storedNumber (price r) = price r ->
  location r = None ->
  storedRecord r = r.
Proof. intros Hp Hl. destruct r; simpl in *. unfold storedRecord; simpl. now rewrite Hp, Hl. Qed.

(** C8. The load effect never raises: whatever the storage holds, and
    even when access to it is denied, it ends normally. When the entry is
    text that [JSON.parse] rejects, the error is logged, and the collection
    of the freshly mounted component stays empty; when access is denied the
    error is logged and the state is kept. An entry that [JSON.parse]
    accepts is stored without a check and nothing is logged: the collection
    is the parsed records when the value is a list of records as [save]
    writes them, and otherwise the component holds that value in place of
    a collection. *)
Theorem load_never_raises (st : Storage) (s : State) :
  (exists o, load st s = Normal o)
  /\ (forall c text,
        denied st = false ->
        entries st !! storageKey = Some (BadText (c :: text)) ->
        exists e,
          load st s
          = Normal (Ok s [ConsoleError (js "Failed to load records from localStorage") e])
          /\ freshStart st
             = Normal (Ok initial [ConsoleError (js "Failed to load records from localStorage") e])
          /\ records initial = [])
  /\ (denied st = true ->
      exists e,
        load st s
        = Normal (Ok s [ConsoleError (js "Failed to load records from localStorage") e]))
  /\ (forall v,
        denied st = false ->
        entries st !! storageKey = Some (JsonText v) ->
        load st s = match JSON.asRecords v with
                    | Some rs => Normal (Ok (setRecords rs s) [])
                    | None => Normal (Foreign v)
                    end).
Proof.
  split; [|split; [|split]].
  - unfold load, LocalStorage.getItem.
    destruct (denied st); simpl; [eauto|].
    destruct (entries st !! storageKey) as [p|]; simpl; [|eauto].
    destruct (storedTruthy p); simpl; [|eauto].
    destruct (JSON.parse p) as [v|e]; simpl; [|eauto].
    destruct (JSON.asRecords v); eauto.
  - intros c text Hacc Hentry. unfold freshStart, load, LocalStorage.getItem.
    rewrite Hacc. simpl. rewrite Hentry. simpl. eauto.
  - intros Hd. unfold load, LocalStorage.getItem. rewrite Hd. simpl. eauto.
  - intros v Hacc Hentry. unfold load, LocalStorage.getItem.
    rewrite Hacc. simpl. rewrite Hentry. simpl.
    now destruct (JSON.asRecords v).
Qed.

(** The other ways the load effect ends. *)
Lemma load_denied st s :
  denied st = true ->
  exists e, load st s
            = Normal (Ok s [ConsoleError (js "Failed to load records from localStorage") e]).
Proof. intros Hd. unfold load, LocalStorage.getItem. rewrite Hd. simpl. eauto. Qed.

Lemma load_absent st s :
  denied st = false -> entries st !! storageKey = None -> load st s = Normal (Ok s []).
Proof.
  intros Hd He. unfold load, LocalStorage.getItem. rewrite Hd. simpl. now rewrite He.
Qed.

(** A failed save keeps the collection in memory and warns the user. *)
Lemma save_failed st s :
  denied st = true \/ fits st (JSON.stringify (records s)) = false ->
  exists s' log,
    save st s = Normal (st, s', log)
    /\ records s' = records s
    /\ error s' = Some (js "Could not save new records. Your browser's storage might be full.").
Proof.
  intros Hf. unfold save, LocalStorage.setItem.
  destruct (denied st); simpl; [eauto|].
  destruct Hf as [Hf|Hf]; [discriminate|]. rewrite Hf. simpl. eauto.
Qed.

End Persistence.


(** ** Binary64 arithmetic: what rounding does *)

Section Rounding.

Local Abbreviation prec := Number.prec.
Local Abbreviation emax := Number.emax.

(** *** Number of binary digits *)

Lemma digits2_pos_size p : digits2_pos p = Pos.size p.
Proof. induction p; simpl; congruence. Qed.

Lemma Zdigits2_log2 m : 0 < m -> Zdigits2 m = Z.log2 m + 1.
Proof.
  destruct m as [|p|p]; try lia. intros _. simpl.
  destruct p; simpl; rewrite ?digits2_pos_size; lia.
Qed.

Lemma Zdigits2_bounds m :
  0 < m -> 2 ^ (Zdigits2 m - 1) <= m < 2 ^ Zdigits2 m.
Proof.
  intros Hm. rewrite (Zdigits2_log2 m Hm).
  pose proof (Z.log2_spec m Hm) as Hs.
  replace (Z.log2 m + 1 - 1) with (Z.log2 m) by lia.
  replace (Z.log2 m + 1) with (Z.succ (Z.log2 m)) by lia. exact Hs.
Qed.

Lemma Zdigits2_unique m k :
  0 < k -> 2 ^ (k - 1) <= m < 2 ^ k -> Zdigits2 m = k.
Proof.
  intros Hk Hm.
  assert (0 < m) by (pose proof (Z.pow_pos_nonneg 2 (k - 1) ltac:(lia) ltac:(lia)); lia).
  rewrite Zdigits2_log2 by assumption.
  rewrite (Z.log2_unique m (k - 1)); [lia | lia |].
  replace (Z.succ (k - 1)) with k by lia. exact Hm.
Qed.

(** *** Shifting right *)

Lemma shr_1_m mrs : 0 <= shr_m mrs -> shr_m (shr_1 mrs) = shr_m mrs / 2.
Proof.
  destruct mrs as [m r s]. simpl. intros Hm.
  destruct m as [|p|p]; try lia; [reflexivity|].
  destruct p; simpl.
  - rewrite Pos2Z.inj_xI. apply (Z.div_unique _ 2 _ 1); lia.
  - rewrite (Pos2Z.inj_xO p). apply (Z.div_unique _ 2 _ 0); lia.
  - reflexivity.
Qed.

Lemma shr_iter_m p : forall mrs,
  0 <= shr_m mrs -> shr_m (SpecFloat.iter_pos shr_1 p mrs) = shr_m mrs / 2 ^ Zpos p.
Proof.
  induction p as [p IH|p IH|]; intros mrs Hm; simpl SpecFloat.iter_pos;
    try pose proof (Z.pow_pos_nonneg 2 (Zpos p) ltac:(lia) ltac:(lia)) as Hp.
  - assert (H1 : 0 <= shr_m (shr_1 mrs)) by (rewrite shr_1_m by lia; apply Z.div_pos; lia).
    assert (H2 : 0 <= shr_m (SpecFloat.iter_pos shr_1 p (shr_1 mrs)))
      by (rewrite IH by lia; apply Z.div_pos; [lia | apply Z.pow_pos_nonneg; lia]).
    rewrite IH, IH, shr_1_m by lia.
    rewrite !Z.div_div by lia.
    assert (E : 2 ^ Zpos p~1 = 2 * 2 ^ Zpos p * 2 ^ Zpos p).
    { rewrite Pos2Z.inj_xI.
      replace (2 * Zpos p + 1) with (1 + Zpos p + Zpos p) by lia.
      rewrite !Z.pow_add_r by lia. lia. }
    rewrite E. f_equal. lia.
  - assert (H2 : 0 <= shr_m (SpecFloat.iter_pos shr_1 p mrs))
      by (rewrite IH by lia; apply Z.div_pos; [lia | apply Z.pow_pos_nonneg; lia]).
    rewrite IH, IH by lia.
    rewrite !Z.div_div by lia.
    assert (E : 2 ^ Zpos p~0 = 2 ^ Zpos p * 2 ^ Zpos p).
    { rewrite (Pos2Z.inj_xO p), Z.mul_comm, Z.pow_mul_r, Z.pow_2_r by lia. reflexivity. }
    now rewrite E.
  - rewrite shr_1_m by lia. reflexivity.
Qed.

Lemma shr_record_of_loc_m m l : shr_m (shr_record_of_loc m l) = m.
Proof. destruct l as [|[]]; reflexivity. Qed.

Lemma loc_of_shr_record_of_loc m l : loc_of_shr_record (shr_record_of_loc m l) = l.
Proof. destruct l as [|[]]; reflexivity. Qed.

Lemma round_nearest_even_bounds m l :
  m <= round_nearest_even m l <= m + 1.
Proof.
  unfold round_nearest_even. destruct l as [|[]]; try lia. destruct (Z.even m); lia.
Qed.

(** The mantissa after [shr_fexp], for a mantissa of at least [prec]
    digits in the normal range. *)
Lemma shr_fexp_m m e l :
  0 < m -> prec <= Zdigits2 m -> emin prec emax <= Zdigits2 m + e - prec ->
  shr_m (fst (shr_fexp prec emax m e l)) = m / 2 ^ (Zdigits2 m - prec)
  /\ snd (shr_fexp prec emax m e l) = e + (Zdigits2 m - prec).
Proof.
  intros Hm Hd He. unfold shr_fexp, fexp.
  rewrite Z.max_l by lia.
  replace (Zdigits2 m + e - prec - e) with (Zdigits2 m - prec) by lia.
  unfold shr. destruct (Zdigits2 m - prec) as [|p|p] eqn:En; try lia.
  - simpl. rewrite shr_record_of_loc_m, Z.div_1_r. split; [reflexivity | lia].
  - simpl. rewrite shr_iter_m by (rewrite shr_record_of_loc_m; lia).
    rewrite shr_record_of_loc_m. split; reflexivity.
Qed.

(** Rounding a positive mantissa of at least [prec] digits, in the normal
    range and short of overflow: the result is finite, its mantissa has
    [prec] digits, and its value is the one of the mantissa cut to [prec]
    digits or of the next one. *)
Lemma binary_round_aux_normal mx ex lx :
  0 < mx -> prec <= Zdigits2 mx ->
  emin prec emax <= Zdigits2 mx + ex - prec ->
  Zdigits2 mx + ex <= emax - 1 ->
  exists m e c,
    binary_round_aux prec emax false mx ex lx = S754_finite false m e
    /\ (c = 0 \/ c = 1)
    /\ e = ex + (Zdigits2 mx - prec) + c
    /\ mx / 2 ^ (Zdigits2 mx - prec) <= Zpos m * 2 ^ c <= mx / 2 ^ (Zdigits2 mx - prec) + 1
    /\ 2 ^ 52 <= Zpos m < 2 ^ 53.
Proof.
  intros Hmx Hd Hlo Hhi. unfold binary_round_aux.
  destruct (shr_fexp_m mx ex lx Hmx Hd Hlo) as [Hm1 He1].
  destruct (shr_fexp prec emax mx ex lx) as [mrs' e'] eqn:E1. simpl in Hm1, He1.
  set (n := Zdigits2 mx - prec) in *.
  pose proof (Zdigits2_bounds mx Hmx) as Hb.
  assert (Hn : 0 <= n) by (unfold n; lia).
  pose proof (Z.pow_pos_nonneg 2 n ltac:(lia) Hn) as Hpn.
  assert (Hm1b : 2 ^ 52 <= shr_m mrs' < 2 ^ 53).
  { rewrite Hm1. unfold Number.prec in *.
    replace (Zdigits2 mx - 1) with (n + 52) in Hb by (unfold n; lia).
    replace (Zdigits2 mx) with (n + 53) in Hb by (unfold n; lia).
    rewrite !Z.pow_add_r in Hb by lia. split.
    - apply Z.div_le_lower_bound; lia.
    - apply Z.div_lt_upper_bound; lia. }
  pose proof (round_nearest_even_bounds (shr_m mrs') (loc_of_shr_record mrs')) as Hr.
  set (m2 := round_nearest_even (shr_m mrs') (loc_of_shr_record mrs')) in *.
  destruct (Z.eq_dec m2 (2 ^ 53)) as [Htop | Hntop].
  - assert (Hd2 : Zdigits2 m2 = 54) by (apply Zdigits2_unique; rewrite ?Htop; lia).
    destruct (shr_fexp_m m2 e' loc_Exact) as [Hm3 He3];
      [lia | unfold Number.prec; lia | unfold emin, Number.prec, Number.emax in *; lia |].
    destruct (shr_fexp prec emax m2 e' loc_Exact) as [mrs'' e''].
    simpl in Hm3, He3. rewrite Hd2 in Hm3, He3. unfold Number.prec in Hm3, He3.
    rewrite Hm3, Htop. change (2 ^ 53 / 2 ^ (54 - 53)) with (Zpos (2 ^ 52)).
    cbv iota.
    replace (e'' <=? emax - prec) with true
      by (symmetry; apply Z.leb_le; unfold Number.emax, Number.prec in *; lia).
    exists (2 ^ 52)%positive, e'', 1. repeat split; try lia.
  - assert (Hd2 : Zdigits2 m2 = 53) by (apply Zdigits2_unique; lia).
    destruct (shr_fexp_m m2 e' loc_Exact) as [Hm3 He3];
      [lia | unfold Number.prec; lia | unfold emin, Number.prec, Number.emax in *; lia |].
    destruct (shr_fexp prec emax m2 e' loc_Exact) as [mrs'' e''].
    simpl in Hm3, He3. rewrite Hd2 in Hm3, He3. unfold Number.prec in Hm3, He3.
    change (2 ^ (53 - 53)) with 1 in Hm3. rewrite Z.div_1_r in Hm3.
    rewrite Hm3. destruct m2 as [|p|p] eqn:Em2; try lia.
    replace (e'' <=? emax - prec) with true
      by (symmetry; apply Z.leb_le; unfold Number.emax, Number.prec in *; lia).
    exists p, e'', 0. rewrite Z.mul_1_r. repeat split; try lia.
Qed.

(** A mantissa of exactly [prec] digits that is exact is not changed. *)
Lemma binary_round_aux_exact mx ex :
  0 < mx -> Zdigits2 mx = prec ->
  emin prec emax <= ex -> ex <= emax - prec ->
  binary_round_aux prec emax false mx ex loc_Exact = S754_finite false (Z.to_pos mx) ex.
Proof.
  intros Hmx Hd Hlo Hhi. unfold binary_round_aux.
  assert (Hs : shr_fexp prec emax mx ex loc_Exact
               = ({| shr_m := mx; shr_r := false; shr_s := false |}, ex)).
  { unfold shr_fexp, fexp. rewrite Hd, Z.max_l by lia.
    replace (prec + ex - prec - ex) with 0 by lia. reflexivity. }
  rewrite Hs. cbn [shr_m loc_of_shr_record round_nearest_even]. rewrite Hs.
  cbn [shr_m]. destruct mx as [|p|p]; try lia.
  apply Z.leb_le in Hhi. rewrite Hhi. reflexivity.
Qed.

(** *** Integers as numbers *)

Lemma iter_xO m k : Zpos (Pos.iter xO m k) = Zpos m * 2 ^ Zpos k.
Proof.
  induction k as [|k IH] using Pos.peano_ind.
  - simpl. lia.
  - rewrite Pos.iter_succ, Pos2Z.inj_xO, IH, Pos2Z.inj_succ, Z.pow_succ_r by lia. lia.
Qed.

(** An integer below [2^53] is a number: the one whose 53-digit mantissa
    is the integer shifted left. *)
Lemma of_Z_normal L :
  0 < L < 2 ^ 53 ->
  Number.of_Z L
  = S754_finite false (Z.to_pos (L * 2 ^ (53 - Zdigits2 L))) (Zdigits2 L - 53).
Proof.
  intros HL. destruct L as [|p|p]; try lia.
  pose proof (Zdigits2_bounds (Zpos p) ltac:(lia)) as Hb.
  set (d := Zdigits2 (Zpos p)) in *.
  assert (Hd : 1 <= d <= 53).
  { split.
    - destruct (Z.le_gt_cases 1 d) as [|Hlt]; [assumption|].
      unfold d in Hlt. simpl in Hlt. lia.
    - destruct (Z.le_gt_cases d 53) as [|Hgt]; [assumption|].
      assert (2 ^ 53 <= 2 ^ (d - 1)) by (apply Z.pow_le_mono_r; lia). lia. }
  unfold Number.of_Z, binary_normalize, binary_round.
  change (Zpos (digits2_pos p)) with d.
  assert (Hal : shl_align p 0 (fexp prec emax (d + 0))
                = (Z.to_pos (Zpos p * 2 ^ (53 - d)), d - 53)).
  { unfold shl_align, fexp, emin, Number.prec, Number.emax.
    rewrite Z.max_l by lia.
    destruct (d + 0 - 53 - 0) as [|k|k] eqn:Ek; try lia.
    - replace (53 - d) with 0 by lia. replace (d - 53) with 0 by lia.
      rewrite Z.mul_1_r. reflexivity.
    - f_equal. apply Pos2Z.inj. rewrite iter_xO.
      replace (53 - d) with (Zpos k) by lia.
      rewrite Z2Pos.id; [reflexivity|].
      pose proof (Z.pow_pos_nonneg 2 (Zpos k) ltac:(lia) ltac:(lia)). lia. }
  rewrite Hal.
  assert (Hpos : 0 < Zpos p * 2 ^ (53 - d))
    by (pose proof (Z.pow_pos_nonneg 2 (53 - d) ltac:(lia) ltac:(lia)); lia).
  rewrite Z2Pos.id by exact Hpos.
  apply binary_round_aux_exact; [exact Hpos | |
    unfold emin, Number.prec, Number.emax; lia | unfold Number.prec, Number.emax; lia].
  apply Zdigits2_unique; [unfold Number.prec; lia|]. unfold Number.prec.
  replace (2 ^ (53 - 1)) with (2 ^ (d - 1) * 2 ^ (53 - d))
    by (rewrite <- Z.pow_add_r by lia; f_equal; lia).
  replace (2 ^ 53) with (2 ^ d * 2 ^ (53 - d))
    by (rewrite <- Z.pow_add_r by lia; f_equal; lia).
  pose proof (Z.pow_pos_nonneg 2 (53 - d) ltac:(lia) ltac:(lia)). nia.
Qed.

Lemma of_Z_zero : Number.of_Z 0 = S754_zero false.
Proof. reflexivity. Qed.

Lemma Zdigits2_range L : 0 < L < 2 ^ 53 -> 1 <= Zdigits2 L <= 53.
Proof.
  intros HL. pose proof (Zdigits2_bounds L ltac:(lia)) as Hb. split.
  - destruct L as [|p|p]; try lia. simpl. lia.
  - destruct (Z.le_gt_cases (Zdigits2 L) 53) as [|Hgt]; [assumption|].
    assert (2 ^ 53 <= 2 ^ (Zdigits2 L - 1)) by (apply Z.pow_le_mono_r; lia). lia.
Qed.

Lemma Zdigits2_mono a b : 0 < a -> a <= b -> Zdigits2 a <= Zdigits2 b.
Proof.
  intros Ha Hab. rewrite !Zdigits2_log2 by lia.
  pose proof (Z.log2_le_mono a b Hab). lia.
Qed.

(** [truncate] gives the integer back. *)
Lemma truncate_of_Z L : 0 <= L < 2 ^ 53 -> Number.truncate (Number.of_Z L) = L.
Proof.
  intros HL. destruct (Z.eq_dec L 0) as [->|Hne]; [reflexivity|].
  rewrite of_Z_normal by lia. pose proof (Zdigits2_range L ltac:(lia)) as Hd.
  unfold Number.truncate.
  assert (Hpos : 0 < L * 2 ^ (53 - Zdigits2 L))
    by (pose proof (Z.pow_pos_nonneg 2 (53 - Zdigits2 L) ltac:(lia) ltac:(lia)); lia).
  rewrite Z2Pos.id by exact Hpos.
  destruct (Zdigits2 L - 53) as [|k|k] eqn:Ek; try lia.
  - replace (53 - Zdigits2 L) with 0 by lia. rewrite Z.shiftl_0_r. lia.
  - rewrite Z.shiftr_div_pow2 by lia.
    replace (53 - Zdigits2 L) with (Zpos k) by lia.
    apply Z.div_mul. pose proof (Z.pow_pos_nonneg 2 (Zpos k) ltac:(lia) ltac:(lia)). lia.
Qed.

(** [>] on integers below [2^53] is [>] on the numbers. *)
Lemma gtb_of_Z a b :
  0 <= a < 2 ^ 53 -> 0 <= b < 2 ^ 53 ->
  Number.gtb (Number.of_Z a) (Number.of_Z b) = (b <? a).
Proof.
  intros Ha Hb. unfold Number.gtb, SFltb.
  destruct (Z.eq_dec a 0) as [->|Hna], (Z.eq_dec b 0) as [->|Hnb].
  - reflexivity.
  - rewrite of_Z_zero, of_Z_normal by lia. simpl.
    symmetry. apply Z.ltb_ge. lia.
  - rewrite of_Z_zero, of_Z_normal by lia. simpl.
    symmetry. apply Z.ltb_lt. lia.
  - rewrite !of_Z_normal by lia. unfold SFcompare.
    pose proof (Zdigits2_bounds a ltac:(lia)) as Ba.
    pose proof (Zdigits2_bounds b ltac:(lia)) as Bb.
    pose proof (Zdigits2_range a ltac:(lia)) as Ra.
    pose proof (Zdigits2_range b ltac:(lia)) as Rb.
    destruct (Z.compare_spec (Zdigits2 b - 53) (Zdigits2 a - 53)) as [He|He|He].
    + assert (Hd : Zdigits2 b = Zdigits2 a) by lia. rewrite Hd.
      pose proof (Z.pow_pos_nonneg 2 (53 - Zdigits2 a) ltac:(lia) ltac:(lia)) as Hp.
      rewrite Pos.compare_cont_spec. simpl.
      rewrite <- Z2Pos.inj_compare by nia.
      destruct (Z.compare_spec (b * 2 ^ (53 - Zdigits2 a)) (a * 2 ^ (53 - Zdigits2 a)));
        symmetry; [apply Z.ltb_ge | apply Z.ltb_lt | apply Z.ltb_ge]; nia.
    + symmetry. apply Z.ltb_lt.
      assert (2 ^ Zdigits2 b <= 2 ^ (Zdigits2 a - 1)) by (apply Z.pow_le_mono_r; lia). lia.
    + symmetry. apply Z.ltb_ge.
      assert (2 ^ Zdigits2 a <= 2 ^ (Zdigits2 b - 1)) by (apply Z.pow_le_mono_r; lia). lia.
Qed.

(** *** Division and multiplication *)

Lemma SFdiv_core_binary_spec m1 e1 m2 e2 :
  0 < m1 -> 0 < m2 ->
  exists l,
    SFdiv_core_binary prec emax m1 e1 m2 e2
    = (m1 * 2 ^ (e1 - e2 - Z.min (fexp prec emax (Zdigits2 m1 + e1 - (Zdigits2 m2 + e2)))
                                 (e1 - e2)) / m2,
       Z.min (fexp prec emax (Zdigits2 m1 + e1 - (Zdigits2 m2 + e2))) (e1 - e2), l).
Proof.
  intros H1 H2. unfold SFdiv_core_binary. cbv zeta.
  set (e' := Z.min (fexp prec emax (Zdigits2 m1 + e1 - (Zdigits2 m2 + e2))) (e1 - e2)).
  assert (He' : e' <= e1 - e2) by (unfold e'; lia).
  assert (Hm : match e1 - e2 - e' with
               | Zpos _ => Z.shiftl m1 (e1 - e2 - e')
               | Z0 => m1
               | Zneg _ => 0
               end = m1 * 2 ^ (e1 - e2 - e')).
  { destruct (e1 - e2 - e') as [|k|k] eqn:Es; [simpl; lia | | lia].
    now rewrite Z.shiftl_mul_pow2 by lia. }
  rewrite Hm. unfold Z.div.
  destruct (Z.div_eucl (m1 * 2 ^ (e1 - e2 - e')) m2) as [q r]. eauto.
Qed.

(** [400 / L]: a 53-digit mantissa [mq] at exponent [g - (44 + d)], where
    [d] is the number of digits of [L], within two units of [2^-(44+d)]
    of the quotient. *)
Lemma div_400 L :
  0 < L < 2 ^ 53 ->
  exists mq g,
    Number.div (Number.of_Z 400) (Number.of_Z L)
    = S754_finite false mq (g - (44 + Zdigits2 L))
    /\ 0 <= g <= 2
    /\ 2 ^ 52 <= Zpos mq < 2 ^ 53
    /\ 400 * 2 ^ (44 + Zdigits2 L) - 2 * L <= L * (Zpos mq * 2 ^ g)
        <= 400 * 2 ^ (44 + Zdigits2 L) + 2 * L.
Proof.
  intros HL. pose proof (Zdigits2_range L HL) as Hd.
  pose proof (Zdigits2_bounds L ltac:(lia)) as Hb.
  set (d := Zdigits2 L) in *.
  rewrite (of_Z_normal L HL). fold d.
  change (Number.of_Z 400) with (S754_finite false 7036874417766400 (-44)).
  set (W := 2 ^ (53 - d)).
  assert (HW : 0 < W) by (apply Z.pow_pos_nonneg; lia).
  assert (HWd : 2 ^ (d - 1) * W = 2 ^ 52)
    by (unfold W; rewrite <- Z.pow_add_r by lia; f_equal; lia).
  assert (HWd' : 2 ^ d * W = 2 ^ 53)
    by (unfold W; rewrite <- Z.pow_add_r by lia; f_equal; lia).
  assert (HmL : 2 ^ 52 <= L * W < 2 ^ 53) by nia.
  unfold Number.div, SFdiv. cbn [xorb].
  rewrite Z2Pos.id by lia.
  destruct (SFdiv_core_binary_spec 7036874417766400 (-44) (L * W) (d - 53)) as [l Hcore];
    [lia | lia |].
  assert (HdL : Zdigits2 (L * W) = 53) by (apply Zdigits2_unique; lia).
  rewrite HdL in Hcore.
  change (Zdigits2 7036874417766400) with 53 in Hcore.
  replace (Z.min (fexp prec emax (53 + -44 - (53 + (d - 53)))) (-44 - (d - 53)))
    with (- (44 + d)) in Hcore
    by (unfold fexp, emin, Number.prec, Number.emax; lia).
  replace (-44 - (d - 53) - - (44 + d)) with 53 in Hcore by lia.
  rewrite Hcore. clear Hcore.
  set (M := 7036874417766400 * 2 ^ 53).
  set (q := M / (L * W)).
  assert (HM : M = 400 * 2 ^ (44 + d) * W).
  { unfold M, W. rewrite <- Z.mul_assoc, <- Z.pow_add_r by lia.
    replace (44 + d + (53 - d)) with 97 by lia. reflexivity. }
  set (B := 2 ^ (44 + d)) in *.
  assert (HB : 0 < B) by (apply Z.pow_pos_nonneg; lia).
  assert (Hq : L * W * q <= M < L * W * (q + 1)).
  { unfold q. pose proof (Z.div_mod M (L * W) ltac:(lia)).
    pose proof (Z.mod_pos_bound M (L * W) ltac:(lia)). lia. }
  assert (Hq' : L * q <= 400 * B < L * (q + 1)) by (rewrite HM in Hq; nia).
  assert (Hqr : 2 ^ 52 <= q < 2 ^ 54).
  { split.
    - unfold q. apply Z.div_le_lower_bound; [lia|].
      unfold M. change (2 ^ 52) with 4503599627370496.
      change (2 ^ 53) with 9007199254740992 in *. lia.
    - unfold q. apply Z.div_lt_upper_bound; [lia|].
      unfold M. change (2 ^ 54) with 18014398509481984.
      change (2 ^ 53) with 9007199254740992.
      change (2 ^ 52) with 4503599627370496 in HmL. lia. }
  assert (Hdq : Zdigits2 q = 53 \/ Zdigits2 q = 54).
  { destruct (Z.lt_ge_cases q (2 ^ 53)).
    - left. apply Zdigits2_unique; lia.
    - right. apply Zdigits2_unique; lia. }
  destruct (binary_round_aux_normal q (- (44 + d)) l) as (m & e & c & Hr & Hc & He & Hm & Hmr);
    [lia | unfold Number.prec; lia
     | unfold emin, Number.prec, Number.emax; lia | unfold Number.emax; lia |].
  rewrite Hr. unfold Number.prec in He, Hm.
  exists m, (Zdigits2 q - 53 + c). split; [f_equal; lia|].
  split; [lia|]. split; [exact Hmr|].
  rewrite Z.pow_add_r by lia.
  set (P := 2 ^ (Zdigits2 q - 53)) in *.
  assert (HP : P = 1 \/ P = 2) by (unfold P; destruct Hdq as [-> | ->]; [left | right]; reflexivity).
  pose proof (Z.div_mod q P ltac:(lia)) as Hdm.
  pose proof (Z.mod_pos_bound q P ltac:(lia)) as Hmb.
  set (X := Zpos m * 2 ^ c) in *.
  replace (Zpos m * (P * 2 ^ c)) with (P * X) by (unfold X; ring).
  assert (HX : q - 1 <= P * X <= q + 2).
  { assert (P * (q / P) <= P * X <= P * (q / P + 1))
      by (split; apply Z.mul_le_mono_nonneg_l; lia).
    lia. }
  assert (L * (q - 1) <= L * (P * X) <= L * (q + 2))
    by (split; apply Z.mul_le_mono_nonneg_l; lia).
  lia.
Qed.

(** The arithmetic of the scaled dimension, on integers: [mq * G / B]
    approximates [400 / L], [m3 / (N * TT)] approximates its product with
    [s], and [ch] is the integer part of that. *)
Lemma scaled_within (L s mq A B G N TT m3 ch : Z) :
  0 < s <= L -> L < 2 ^ 32 -> 0 < A -> 2 ^ 44 * L <= B ->
  0 < G -> 0 < N -> N * G <= 8 * s * A -> 0 < TT -> TT * N * G = A * B ->
  400 * B - 2 * L <= L * (mq * G) <= 400 * B + 2 * L ->
  N * m3 <= s * A * mq + N -> s * A * mq < N * (m3 + 1) ->
  TT * ch <= m3 < TT * (ch + 1) ->
  ch * L <= 400 * s <= ch * L + L.
Proof.
  intros Hs HL HA HB HG HN HNG HTT Hrel HQ Hm3u Hm3l Hch.
  change (2 ^ 32) with 4294967296 in HL. change (2 ^ 44) with 17592186044416 in HB.
  assert (HNG0 : 0 <= N * G) by (apply Z.mul_nonneg_nonneg; lia).
  assert (HLG0 : 0 <= L * G) by (apply Z.mul_nonneg_nonneg; lia).
  assert (HsA0 : 0 <= s * A) by (apply Z.mul_nonneg_nonneg; lia).
  assert (HAB0 : 0 <= A * B) by (apply Z.mul_nonneg_nonneg; lia).
  assert (HsAL0 : 0 <= s * A * L) by (apply Z.mul_nonneg_nonneg; lia).
  assert (H10 : A * (10 * s * L) < A * B).
  { apply Z.mul_lt_mono_pos_l; [lia|].
    assert ((10 * s) * L <= 17592186044416 * L)
      by (apply Z.mul_le_mono_nonneg_r; lia).
    assert (10 * s * L < 17592186044416 * L); [|lia].
    assert ((10 * s) * L < 17592186044416 * L); [|lia].
    apply Z.mul_lt_mono_pos_r; lia. }
  assert (E6 : L * (N * G) <= L * (8 * s * A))
    by (apply Z.mul_le_mono_nonneg_l; lia).
  split.
  - destruct (Z.le_gt_cases (ch * L) (400 * s)) as [|Hgt]; [assumption|exfalso].
    assert (E1 : (N * G) * (TT * ch) <= (N * G) * m3)
      by (apply Z.mul_le_mono_nonneg_l; lia).
    replace (N * G * (TT * ch)) with (TT * N * G * ch) in E1 by ring.
    rewrite Hrel in E1.
    assert (E2 : (A * B) * (400 * s + 1) <= (A * B) * (ch * L))
      by (apply Z.mul_le_mono_nonneg_l; lia).
    assert (E3 : L * (A * B * ch) <= L * (N * G * m3))
      by (apply Z.mul_le_mono_nonneg_l; lia).
    assert (E4 : (L * G) * (N * m3) <= (L * G) * (s * A * mq + N))
      by (apply Z.mul_le_mono_nonneg_l; lia).
    assert (E5 : (s * A) * (L * (mq * G)) <= (s * A) * (400 * B + 2 * L))
      by (apply Z.mul_le_mono_nonneg_l; lia).
    lia.
  - destruct (Z.le_gt_cases (400 * s) (ch * L + L)) as [|Hgt]; [assumption|exfalso].
    assert (F1 : (N * G) * (m3 + 1) <= (N * G) * (TT * (ch + 1)))
      by (apply Z.mul_le_mono_nonneg_l; lia).
    replace (N * G * (TT * (ch + 1))) with (TT * N * G * (ch + 1)) in F1 by ring.
    rewrite Hrel in F1.
    assert (F2 : (A * B) * ((ch + 1) * L) <= (A * B) * (400 * s - 1))
      by (apply Z.mul_le_mono_nonneg_l; lia).
    assert (F3 : L * (N * G * (m3 + 1)) <= L * (A * B * (ch + 1)))
      by (apply Z.mul_le_mono_nonneg_l; lia).
    assert (F4 : (L * G) * (s * A * mq) <= (L * G) * (N * (m3 + 1)))
      by (apply Z.mul_le_mono_nonneg_l; lia).
    assert (F5 : (s * A) * (400 * B - 2 * L) <= (s * A) * (L * (mq * G)))
      by (apply Z.mul_le_mono_nonneg_l; lia).
    lia.
Qed.

(** [s * (400 / L)] as the preprocessor computes it, converted to an
    integer: the exact [400 * s / L] cut to an integer, or one less. *)
Lemma scaled_dimension s L :
  0 < s <= L -> 400 < L < 2 ^ 32 ->
  Number.toUnsignedLong
    (Number.mul (Number.of_Z s) (Number.div (Number.of_Z 400) (Number.of_Z L))) * L
  <= 400 * s
  <= Number.toUnsignedLong
       (Number.mul (Number.of_Z s) (Number.div (Number.of_Z 400) (Number.of_Z L))) * L + L.
Proof.
  intros Hs HL.
  assert (HL53 : 0 < L < 2 ^ 53) by (change (2 ^ 53) with 9007199254740992; lia).
  assert (Hs53 : 0 < s < 2 ^ 53) by lia.
  destruct (div_400 L HL53) as (mq & g & Hdiv & Hg & Hmq & HQ). rewrite Hdiv.
  rewrite (of_Z_normal s Hs53).
  pose proof (Zdigits2_range L HL53) as Hd. pose proof (Zdigits2_range s Hs53) as Hds.
  pose proof (Zdigits2_bounds L ltac:(lia)) as Hb.
  pose proof (Zdigits2_bounds s ltac:(lia)) as Hbs.
  pose proof (Zdigits2_mono s L ltac:(lia) ltac:(lia)) as Hmono.
  set (d := Zdigits2 L) in *. set (ds := Zdigits2 s) in *.
  assert (Hd32 : d <= 32).
  { destruct (Z.le_gt_cases d 32) as [|Hgt]; [assumption|].
    assert (2 ^ 32 <= 2 ^ (d - 1)) by (apply Z.pow_le_mono_r; lia). lia. }
  set (A := 2 ^ (53 - ds)).
  assert (HA : 0 < A) by (apply Z.pow_pos_nonneg; lia).
  assert (HAs : 2 ^ (ds - 1) * A = 2 ^ 52)
    by (unfold A; rewrite <- Z.pow_add_r by lia; f_equal; lia).
  assert (HAs' : 2 ^ ds * A = 2 ^ 53)
    by (unfold A; rewrite <- Z.pow_add_r by lia; f_equal; lia).
  assert (Hms : 2 ^ 52 <= s * A < 2 ^ 53) by nia.
  unfold Number.mul, SFmul. cbn [xorb].
  rewrite Pos2Z.inj_mul, Z2Pos.id by lia.
  set (P0 := s * A * Zpos mq).
  assert (HP0 : 2 ^ 104 <= P0 < 2 ^ 106).
  { unfold P0. change (2 ^ 104) with (2 ^ 52 * 2 ^ 52).
    change (2 ^ 106) with (2 ^ 53 * 2 ^ 53). nia. }
  assert (HdP : Zdigits2 P0 = 105 \/ Zdigits2 P0 = 106).
  { destruct (Z.lt_ge_cases P0 (2 ^ 105)).
    - left. apply Zdigits2_unique; lia.
    - right. apply Zdigits2_unique; lia. }
  destruct (binary_round_aux_normal P0 (ds - 53 + (g - (44 + d))) loc_Exact)
    as (m & e & c & Hr & Hc & He & Hm & Hmr);
    [lia | unfold Number.prec; lia
     | unfold emin, Number.prec, Number.emax; lia | unfold Number.emax; lia |].
  rewrite Hr. unfold Number.prec in He, Hm.
  set (n := Zdigits2 P0 - 53) in *.
  assert (Hn : n = 52 \/ n = 53) by (unfold n; lia).
  assert (Hneg : e < 0) by lia.
  set (t := Zpos m / 2 ^ (- e)).
  assert (Htrunc : Number.truncate (S754_finite false m e) = t).
  { unfold Number.truncate, t. destruct e as [|k|k]; try lia.
    rewrite Z.shiftr_div_pow2 by lia. reflexivity. }
  assert (Hmain : t * L <= 400 * s <= t * L + L).
  { pose proof (Z.pow_pos_nonneg 2 (- e) ltac:(lia) ltac:(lia)) as HE.
    pose proof (Z.pow_pos_nonneg 2 c ltac:(lia) ltac:(lia)) as HC.
    pose proof (Z.pow_pos_nonneg 2 g ltac:(lia) ltac:(lia)) as HG.
    pose proof (Z.pow_pos_nonneg 2 n ltac:(lia) ltac:(lia)) as HN.
    apply (scaled_within L s (Zpos mq) A (2 ^ (44 + d)) (2 ^ g) (2 ^ n)
             (2 ^ (- e) * 2 ^ c) (Zpos m * 2 ^ c) t); try lia.
    - rewrite Z.pow_add_r by lia. apply Z.mul_le_mono_nonneg_l; lia.
    - assert (2 ^ n <= 2 ^ 53) by (apply Z.pow_le_mono_r; lia).
      assert (2 ^ g <= 2 ^ 2) by (apply Z.pow_le_mono_r; lia).
      assert (2 ^ n * 2 ^ g <= 2 ^ 53 * 2 ^ 2) by (apply Z.mul_le_mono_nonneg; lia).
      assert (2 ^ (ds - 1) * A <= s * A) by (apply Z.mul_le_mono_nonneg_r; lia).
      change (2 ^ 53 * 2 ^ 2) with (8 * 2 ^ 52) in *. lia.
    - unfold A. rewrite <- !Z.pow_add_r by lia. f_equal. lia.
    - pose proof (Z.div_mod P0 (2 ^ n) ltac:(lia)) as Hdm.
      pose proof (Z.mod_pos_bound P0 (2 ^ n) ltac:(lia)) as Hmb.
      fold P0.
      assert (2 ^ n * (Zpos m * 2 ^ c) <= 2 ^ n * (P0 / 2 ^ n + 1))
        by (apply Z.mul_le_mono_nonneg_l; lia).
      lia.
    - pose proof (Z.div_mod P0 (2 ^ n) ltac:(lia)) as Hdm.
      pose proof (Z.mod_pos_bound P0 (2 ^ n) ltac:(lia)) as Hmb.
      fold P0.
      assert (2 ^ n * (P0 / 2 ^ n + 1) <= 2 ^ n * (Zpos m * 2 ^ c + 1))
        by (apply Z.mul_le_mono_nonneg_l; lia).
      lia.
    - pose proof (Z.div_mod (Zpos m) (2 ^ (- e)) ltac:(lia)) as Hdm.
      pose proof (Z.mod_pos_bound (Zpos m) (2 ^ (- e)) ltac:(lia)) as Hmb.
      fold t in Hdm.
      assert (2 ^ (- e) * t * 2 ^ c <= Zpos m * 2 ^ c)
        by (apply Z.mul_le_mono_nonneg_r; lia).
      assert ((Zpos m + 1) * 2 ^ c <= 2 ^ (- e) * (t + 1) * 2 ^ c)
        by (apply Z.mul_le_mono_nonneg_r; lia).
      lia. }
  assert (Ht : 0 <= t <= 400).
  { split; [apply Z.div_pos; [lia | apply Z.pow_pos_nonneg; lia]|].
    assert (t * L <= 400 * L) by lia.
    apply (Z.mul_le_mono_pos_r _ _ L); lia. }
  unfold Number.toUnsignedLong. rewrite Htrunc.
  rewrite Z.mod_small by (change (2 ^ 32) with 4294967296; lia).
  exact Hmain.
Qed.

End Rounding.

(** ** The image preprocessor *)

Section Canvas.
Import Preprocessor.

Lemma toUnsignedLong_of_Z n :
  0 <= n < 2 ^ 32 -> Number.toUnsignedLong (Number.of_Z n) = n.
Proof.
  intros Hn. unfold Number.toUnsignedLong.
  rewrite truncate_of_Z by (change (2 ^ 53) with 9007199254740992; lia).
  apply Z.mod_small. lia.
Qed.

(** The side that is not the longer one, after scaling. *)
Lemma scaled_side s L :
  0 <= s <= L -> 400 < L < 2 ^ 32 ->
  let side := Number.toUnsignedLong
                (Number.mul (Number.of_Z s) (Number.div (Number.of_Z 400) (Number.of_Z L))) in
  0 <= side <= 400 /\ side * L <= 400 * s <= side * L + L.
Proof.
  intros Hs HL. destruct (Z.eq_dec s 0) as [->|Hne].
  - destruct (div_400 L ltac:(change (2 ^ 53) with 9007199254740992; lia))
      as (mq & g & Hdiv & _).
    rewrite Hdiv. change (Number.of_Z 0) with (S754_zero false).
    unfold Number.mul, SFmul, Number.toUnsignedLong, Number.truncate.
    cbn [xorb]. change (0 mod 2 ^ 32) with 0. lia.
  - pose proof (scaled_dimension s L ltac:(lia) HL) as Hsd. cbv zeta.
    split; [nia | exact Hsd].
Qed.

(** C4. For an image of [w] by [h] pixels, both below [2^32] as the type
    of [img.width] has it: no side of the canvas is longer than 400; an
    image with no side longer than 400 keeps its size; otherwise the longer
    side becomes 400 and the other one is its length times [400 / max w h]
    cut to an integer, or one less when the product of the two numbers
    falls short of that integer: within one pixel of the exact ratio. *)
Theorem canvasSize_spec (w h : Z) :
  0 <= w < 2 ^ 32 -> 0 <= h < 2 ^ 32 ->
  (0 <= fst (canvasSize w h) <= 400 /\ 0 <= snd (canvasSize w h) <= 400)
  /\ (Z.max w h <= 400 -> canvasSize w h = (w, h))
  /\ (400 < Z.max w h -> h < w ->
      fst (canvasSize w h) = 400
      /\ snd (canvasSize w h) * w <= 400 * h <= snd (canvasSize w h) * w + w)
  /\ (400 < Z.max w h -> w <= h ->
      snd (canvasSize w h) = 400
      /\ fst (canvasSize w h) * h <= 400 * w <= fst (canvasSize w h) * h + h).
Proof.
  intros Hw Hh.
  assert (H53 : 2 ^ 32 < 2 ^ 53) by reflexivity.
  assert (H400 : Number.toUnsignedLong MAX_WIDTH = 400) by reflexivity.
  unfold canvasSize, scaledSize.
  rewrite (gtb_of_Z w h) by lia.
  unfold MAX_HEIGHT, MAX_WIDTH in *.
  rewrite (gtb_of_Z w 400), (gtb_of_Z h 400) by lia.
  destruct (Z.ltb_spec h w) as [Hlt | Hge].
  - destruct (Z.ltb_spec 400 w) as [Hbig | Hsmall]; cbn [fst snd].
    + pose proof (scaled_side h w ltac:(lia) ltac:(lia)) as [Hr Hs]. cbv zeta in Hr, Hs.
      rewrite H400. repeat split; try lia.
    + rewrite !toUnsignedLong_of_Z by lia. repeat split; try lia.
  - destruct (Z.ltb_spec 400 h) as [Hbig | Hsmall]; cbn [fst snd].
    + pose proof (scaled_side w h ltac:(lia) ltac:(lia)) as [Hr Hs]. cbv zeta in Hr, Hs.
      rewrite H400. repeat split; try lia.
    + rewrite !toUnsignedLong_of_Z by lia. repeat split; try lia.
Qed.

End Canvas.

(** * The theorems at the sample data *)

Section Instances.
Import App.

(** C2 fails as stated: where two records share an id, one deletion
    removes both. *)
Lemma deleting_a_shared_id_removes_both :
  reaches [] [Sample.milkEnv; Sample.milkEnv] Sample.withTwins
  /\ newId Sample.milkEnv ∈ ids (records Sample.withTwins)
  /\ length (records Sample.withTwins) = 2%nat
  /\ length (records (handleDeleteRecord (newId Sample.milkEnv) Sample.withTwins)) = 0%nat
  /\ (length (records (handleDeleteRecord (newId Sample.milkEnv) Sample.withTwins)) + 1
      <> length (records Sample.withTwins))%nat.
Proof.
  split; [|split; [|split; [|split]]].
  - unfold Sample.withTwins. apply reaches_add.
    apply (reaches_other [] [Sample.milkEnv] Sample.withMilk); [|reflexivity].
    unfold Sample.withMilk. apply reaches_add.
    apply (reaches_other [] [] (setRecords [] initial)); [|reflexivity].
    apply reaches_loaded.
  - change (ids (records Sample.withTwins))
      with [newId Sample.milkEnv; newId Sample.milkEnv].
    apply elem_of_cons. now left.
  - reflexivity.
  - vm_compute. reflexivity.
  - vm_compute. discriminate.
Qed.

Lemma handleDeleteRecord_spec_witness :
  NoDup (ids (records Sample.withBoth))
  /\ id Sample.milk ∈ ids (records Sample.withBoth)
  /\ Forall (fun r => id r <> id Sample.milk)
       (records (handleDeleteRecord (id Sample.milk) Sample.withBoth))
  /\ (length (records (handleDeleteRecord (id Sample.milk) Sample.withBoth))
      + occurrences (id Sample.milk) (records Sample.withBoth)
      = length (records Sample.withBoth))%nat
  /\ (length (records (handleDeleteRecord (id Sample.milk) Sample.withBoth)) + 1
      = length (records Sample.withBoth))%nat.
Proof.
  assert (H1 : NoDup (ids (records Sample.withBoth)))
    by compute_done.
  assert (H2 : id Sample.milk ∈ ids (records Sample.withBoth))
    by compute_done.
  split; [exact H1 | split; [exact H2|]].
  destruct (handleDeleteRecord_spec (id Sample.milk) Sample.withBoth)
    as (Hgone & Hlen & _ & Hone).
  split; [exact Hgone | split; [exact Hlen | exact (Hone H1 H2)]].
Defined.

Lemma save_then_load_witness :
  denied Sample.emptyStorage = false
  /\ fits Sample.emptyStorage (JSON.stringify (records Sample.withBoth)) = true
  /\ Forall validRecord (records Sample.withBoth)
  /\ exists st' s',
       save Sample.emptyStorage Sample.withBoth = Normal (st', Sample.withBoth, [])
       /\ entries st' !! storageKey = Some (JSON.stringify (records Sample.withBoth))
       /\ freshStart st' = Normal (Ok s' [])
       /\ records s' = map storedRecord (records Sample.withBoth)
       /\ Forall2 sameRecord (records s') (records Sample.withBoth).
Proof.
  assert (H3 : Forall validRecord (records Sample.withBoth))
    by (vm_compute; repeat constructor).
  split; [reflexivity | split; [reflexivity | split; [exact H3|]]].
  exact (save_then_load Sample.emptyStorage Sample.withBoth eq_refl eq_refl H3).
Defined.

Lemma canvasSize_spec_witness :
  0 <= 539 < 2 ^ 32 /\ 0 <= 539 < 2 ^ 32
  /\ (0 <= fst (Preprocessor.canvasSize 539 539) <= 400
      /\ 0 <= snd (Preprocessor.canvasSize 539 539) <= 400)
  /\ (Z.max 539 539 <= 400 -> Preprocessor.canvasSize 539 539 = (539, 539))
  /\ (400 < Z.max 539 539 -> 539 < 539 ->
      fst (Preprocessor.canvasSize 539 539) = 400
      /\ snd (Preprocessor.canvasSize 539 539) * 539 <= 400 * 539
         <= snd (Preprocessor.canvasSize 539 539) * 539 + 539)
  /\ (400 < Z.max 539 539 -> 539 <= 539 ->
      snd (Preprocessor.canvasSize 539 539) = 400
      /\ fst (Preprocessor.canvasSize 539 539) * 539 <= 400 * 539
         <= fst (Preprocessor.canvasSize 539 539) * 539 + 539).
Proof.
  assert (H1 : 0 <= 539 < 2 ^ 32) by (change (2 ^ 32) with 4294967296; lia).
  split; [exact H1 | split; [exact H1|]].
  exact (canvasSize_spec 539 539 H1 H1).
Defined.

(** C5 fails as stated: two submissions that read the same clock value and
    the same random text make the same id. *)
Lemma twin_submissions_share_an_id :
  reaches [] [Sample.milkEnv; Sample.milkEnv] Sample.withTwins
  /\ ~ NoDup (ids (records Sample.withTwins)).
Proof.
  split.
  - unfold Sample.withTwins. apply reaches_add.
    apply (reaches_other [] [Sample.milkEnv] Sample.withMilk); [|reflexivity].
    unfold Sample.withMilk. apply reaches_add.
    apply (reaches_other [] [] (setRecords [] initial)); [|reflexivity].
    apply reaches_loaded.
  - intros Hnd. change (ids (records Sample.withTwins))
      with [newId Sample.milkEnv; newId Sample.milkEnv] in Hnd.
    apply NoDup_cons in Hnd as [Hn _]. apply Hn. left.
Qed.

Lemma reaches_ids_distinct_witness :
  reaches [] [Sample.breadEnv; Sample.milkEnv] Sample.withBoth
  /\ NoDup (ids [])
  /\ Forall (fun env => validTime (nowForId env)) [Sample.breadEnv; Sample.milkEnv]
  /\ NoDup (map draw [Sample.breadEnv; Sample.milkEnv])
  /\ Forall (fun env => newId env ∉ ids []) [Sample.breadEnv; Sample.milkEnv]
  /\ NoDup (ids (records Sample.withBoth)).
Proof.
  assert (H1 : reaches [] [Sample.breadEnv; Sample.milkEnv] Sample.withBoth).
  { unfold Sample.withBoth. apply reaches_add.
    apply (reaches_other [] [Sample.milkEnv] Sample.withMilk); [|reflexivity].
    unfold Sample.withMilk. apply reaches_add.
    apply (reaches_other [] [] (setRecords [] initial)); [|reflexivity].
    apply reaches_loaded. }
  assert (H2 : NoDup (ids [])) by constructor.
  assert (H3 : Forall (fun env => validTime (nowForId env)) [Sample.breadEnv; Sample.milkEnv])
    by (repeat constructor; unfold validTime, JSDate.maxTime; simpl; lia).
  assert (H4 : NoDup (map draw [Sample.breadEnv; Sample.milkEnv]))
    by compute_done.
  assert (H5 : Forall (fun env => newId env ∉ ids []) [Sample.breadEnv; Sample.milkEnv])
    by (repeat constructor; apply not_elem_of_nil).
  repeat (split; [assumption|]).
  exact (reaches_ids_distinct [] [Sample.breadEnv; Sample.milkEnv] Sample.withBoth
           H1 H2 H3 H4 H5).
Defined.

(** C6 fails as stated: nothing keeps a negative price out of the
    store. *)
Lemma negative_price_is_stored :
  readyToAdd (Sample.formOpen initial)
  /\ ~ Forall (fun r => nonNegative (price r))
         (records (handleAddRecord Sample.milkEnv Sample.refundForm (Sample.formOpen initial))).
Proof.
  split.
  - do 2 eexists. repeat split.
  - intros Hf. apply Forall_cons in Hf as [Hneg _].
    vm_compute in Hneg. discriminate.
Qed.

Lemma handleAddRecord_price_witness :
  readyToAdd (Sample.formOpen initial)
  /\ (exists r,
        records (handleAddRecord Sample.milkEnv Sample.refundForm (Sample.formOpen initial))
        = r :: records (Sample.formOpen initial)
        /\ price r = Number.parseFloat (priceField Sample.refundForm))
  /\ (Forall (fun r => nonNegative (price r))
        (records (handleAddRecord Sample.milkEnv Sample.refundForm (Sample.formOpen initial)))
      <-> nonNegative (Number.parseFloat (priceField Sample.refundForm))
          /\ Forall (fun r => nonNegative (price r)) (records (Sample.formOpen initial))).
Proof.
  assert (H1 : readyToAdd (Sample.formOpen initial)) by (do 2 eexists; repeat split).
  split; [exact H1|].
  exact (handleAddRecord_price Sample.milkEnv Sample.refundForm (Sample.formOpen initial) H1).
Defined.

Lemma handleAnalyze_blank_query_witness :
  JSString.trim (analysisQuery Sample.blankQuery) = []
  /\ handleAnalyze (fun _ _ => Normal (js "answer")) Sample.blankQuery
     = (Sample.blankQuery, []).
Proof.
  assert (H1 : JSString.trim (analysisQuery Sample.blankQuery) = []) by reflexivity.
  split; [exact H1|].
  exact (handleAnalyze_blank_query (fun _ _ => Normal (js "answer")) Sample.blankQuery H1).
Defined.

(** C8 fails as stated: an entry that parses is not checked. The stored
    text [null] is no list of records, yet nothing is logged and the
    component does not start with an empty collection. *)
Lemma stored_null_is_not_rejected :
  denied Scenario.nullStorage = false
  /\ entries Scenario.nullStorage !! storageKey = Some (JsonText JNull)
  /\ JSON.asRecords JNull = None
  /\ freshStart Scenario.nullStorage = Normal (Foreign JNull)
  /\ ~ (exists s log, freshStart Scenario.nullStorage = Normal (Ok s log)
                      /\ log <> [] /\ records s = []).
Proof.
  assert (Hload : freshStart Scenario.nullStorage = Normal (Foreign JNull)) by reflexivity.
  repeat (split; [reflexivity|]).
  intros (s & log & Hs & _). rewrite Hload in Hs. discriminate.
Qed.

Lemma load_never_raises_witness :
  (exists o, load Sample.brokenStorage initial = Normal o)
  /\ denied Sample.brokenStorage = false
  /\ entries Sample.brokenStorage !! storageKey = Some (BadText (js "[{oops"))
  /\ exists e,
       load Sample.brokenStorage initial
       = Normal (Ok initial [ConsoleError (js "Failed to load records from localStorage") e])
       /\ freshStart Sample.brokenStorage
          = Normal (Ok initial [ConsoleError (js "Failed to load records from localStorage") e])
       /\ records initial = [].
Proof.
  assert (H1 : denied Sample.brokenStorage = false) by reflexivity.
  assert (H2 : entries Sample.brokenStorage !! storageKey = Some (BadText (js "[{oops")))
    by reflexivity.
  split; [exact (proj1 (load_never_raises Sample.brokenStorage initial))|].
  split; [exact H1 | split; [exact H2|]].
  exact (proj1 (proj2 (load_never_raises Sample.brokenStorage initial)) _ _ H1 H2).
Defined.

Lemma filterEffect_frame_witness :
  Sample.heap1 !! 1%positive = Some [Sample.bread; Sample.milk]
  /\ snd (HistoryView.filterEffect asciiHost 1%positive (js "mil") [] Sample.heap1) !! 1%positive
     = Some [Sample.bread; Sample.milk]
  /\ fst (HistoryView.filterEffect asciiHost 1%positive (js "mil") [] Sample.heap1)
     <> Normal 1%positive
  /\ forall l0, is_Some (Sample.heap1 !! l0) ->
       snd (HistoryView.filterEffect asciiHost 1%positive (js "mil") [] Sample.heap1) !! l0
       = Sample.heap1 !! l0.
Proof.
  assert (H1 : Sample.heap1 !! 1%positive = Some [Sample.bread; Sample.milk]) by reflexivity.
  split; [exact H1|].
  exact (filterEffect_frame asciiHost Sample.heap1 1%positive
           [Sample.bread; Sample.milk] (js "mil") [] H1).
Defined.

(** C10 fails as stated: a date-time string without offset is read as
    local time, so the same record matches a day in one time zone and not
    in another. *)
Lemma local_date_depends_on_time_zone :
  HistoryView.dateMatches asciiHost (js "2024-01-01") Scenario.evening = Normal true
  /\ HistoryView.dateMatches Sample.honoluluHost (js "2024-01-01") Scenario.evening
     = Normal false
  /\ HistoryView.dateMatches Sample.honoluluHost (js "2024-01-02") Scenario.evening
     = Normal true.
Proof. repeat split; vm_compute; reflexivity. Qed.

Lemma dateMatches_utc_witness :
  HistoryView.getTime asciiHost Sample.milk = Some 1704103200000
  /\ JSDate.parseFormat (date Sample.milk) = JSDate.UtcTime 1704103200000
  /\ validTime 1704103200000
  /\ date Sample.milk = JSDate.isoString 1704103200000
  /\ HistoryView.dateMatches asciiHost (js "2024-01-01") Sample.milk
     = Normal (JSString.eqb (JSDate.isoDate 1704103200000) (js "2024-01-01"))
  /\ HistoryView.dateMatches Sample.honoluluHost (js "2024-01-01") Sample.milk
     = HistoryView.dateMatches asciiHost (js "2024-01-01") Sample.milk.
Proof.
  assert (H0 : HistoryView.getTime asciiHost Sample.milk = Some 1704103200000)
    by (vm_compute; reflexivity).
  assert (Hp : JSDate.parseFormat (date Sample.milk) = JSDate.UtcTime 1704103200000)
    by (vm_compute; reflexivity).
  assert (H1 : validTime 1704103200000) by (unfold validTime, JSDate.maxTime; simpl; lia).
  assert (H2 : date Sample.milk = JSDate.isoString 1704103200000)
    by (vm_compute; reflexivity).
  repeat (split; [assumption|]).
  destruct (dateMatches_utc asciiHost Sample.honoluluHost Sample.milk (js "2024-01-01")
              1704103200000) as (Hday & Hzone & _).
  split; [exact (Hday H0) | exact (Hzone Hp)].
Defined.

End Instances.


(** * Further properties of the code *)

(** ** The record store *)

Section StoreMore.
Import App.

Lemma resetAddForm_not_ready s : ocrResult (resetAddForm s) = None.
Proof. reflexivity. Qed.

(** X1. A second submission with no new recognition in between adds nothing:
    the first one has reset the form, and [handleAddRecord] returns at its
    guard. *)
Theorem handleAddRecord_submits_once (env1 env2 : AddEnv) (form1 form2 : FormData) (s : State) :
  handleAddRecord env2 form2 (handleAddRecord env1 form1 s) = handleAddRecord env1 form1 s.
Proof.
  unfold handleAddRecord at 2 3.
  destruct (ocrResult s) as [o|] eqn:Ho.
  - destruct (imagePreview s) as [img|] eqn:Hi.
    + destruct (JSString.truthy img) eqn:Ht.
      * reflexivity.
      * unfold handleAddRecord. now rewrite Ho, Hi, Ht.
    + unfold handleAddRecord. now rewrite Ho, Hi.
  - unfold handleAddRecord. now rewrite Ho.
Qed.

(** X2. Two submissions make the same id only when they read the same clock
    value and the same random text. *)
Theorem newId_collision (e1 e2 : AddEnv) :
  validTime (nowForId e1) -> validTime (nowForId e2) ->
  newId e1 = newId e2 <-> draw e1 = draw e2.
Proof.
  intros V1 V2. split.
  - intros Heq. destruct (newId_inj e1 e2 V1 V2 Heq) as [Ht Hr].
    unfold draw. now rewrite Ht, Hr.
  - unfold draw, newId. intros Heq. injection Heq as -> ->. reflexivity.
Qed.

Lemma newId_collision_witness :
  validTime (nowForId Sample.milkEnv) /\ validTime (nowForId Sample.breadEnv)
  /\ (newId Sample.milkEnv = newId Sample.breadEnv <-> draw Sample.milkEnv = draw Sample.breadEnv).
Proof.
  assert (H1 : validTime (nowForId Sample.milkEnv))
    by (unfold validTime, JSDate.maxTime; simpl; lia).
  assert (H2 : validTime (nowForId Sample.breadEnv))
    by (unfold validTime, JSDate.maxTime; simpl; lia).
  split; [exact H1 | split; [exact H2|]].
  exact (newId_collision Sample.milkEnv Sample.breadEnv H1 H2).
Defined.

Lemma filter_filter {A} (f g : A -> bool) (l : list A) :
  List.filter f (List.filter g l) = List.filter (fun x => g x && f x) l.
Proof.
  induction l as [|x l IH]; simpl; [reflexivity|].
  destruct (g x); simpl; [destruct (f x)|]; now rewrite IH.
Qed.

Lemma filter_ext_bool {A} (f g : A -> bool) (l : list A) :
  (forall x, f x = g x) -> List.filter f l = List.filter g l.
Proof. intros Hfg. induction l as [|x l IH]; simpl; [reflexivity|]. now rewrite Hfg, IH. Qed.

Lemma setRecords_setRecords a b s : setRecords a (setRecords b s) = setRecords a s.
Proof. reflexivity. Qed.

(** X3. Deleting an id twice is deleting it once, and deletions of two ids can
    be done in either order. *)
Theorem handleDeleteRecord_idempotent_commutes (i j : jsstring) (s : State) :
  handleDeleteRecord i (handleDeleteRecord i s) = handleDeleteRecord i s
  /\ handleDeleteRecord i (handleDeleteRecord j s) = handleDeleteRecord j (handleDeleteRecord i s).
Proof.
  unfold handleDeleteRecord. simpl. rewrite !setRecords_setRecords, !filter_filter. split.
  - f_equal. apply filter_ext_bool. intros r. now destruct (negb _).
  - f_equal. apply filter_ext_bool. intros r. apply andb_comm.
Qed.

Lemma filter_sublist {A} (f : A -> bool) (l : list A) : sublist (List.filter f l) l.
Proof.
  induction l as [|x l IH]; simpl; [constructor|].
  destruct (f x); now constructor.
Qed.

(** X4. Deleting keeps exactly the records of the other ids, in the order they
    had, and touches no other part of the state. *)
Theorem handleDeleteRecord_keeps_others (i : jsstring) (s : State) :
  (forall r, r ∈ records (handleDeleteRecord i s) <-> r ∈ records s /\ id r <> i)
  /\ sublist (records (handleDeleteRecord i s)) (records s)
  /\ handleDeleteRecord i s = setRecords (records (handleDeleteRecord i s)) s.
Proof.
  split; [|split].
  - intros r. rewrite delete_records, elem_of_filter, negb_true_iff.
    split; intros [Hr Hi]; (split; [exact Hr|]).
    + intros Heq. apply eqb_eq in Heq. congruence.
    + destruct (JSString.eqb (id r) i) eqn:E; [|reflexivity].
      apply eqb_eq in E. contradiction.
  - rewrite delete_records. apply filter_sublist.
  - reflexivity.
Qed.

(** X5. Deleting the record just added, when its id is new to the store, gives
    the collection back as it was. *)
Theorem delete_undoes_add (env : AddEnv) (form : FormData) (s : State) :
  readyToAdd s ->
  newId env ∉ ids (records s) ->
  records (handleDeleteRecord (newId env) (handleAddRecord env form s)) = records s.
Proof.
  intros Hready Hfresh.
  destruct (handleAddRecord_records env form s Hready) as (r & Hr & Hid & _).
  rewrite delete_records, Hr. simpl. rewrite Hid, eqb_refl. simpl.
  apply filter_all. eapply Forall_impl; [apply (id_absent _ _ Hfresh)|].
  intros r' Hr'. simpl in Hr'. now rewrite Hr'.
Qed.

Lemma delete_undoes_add_witness :
  readyToAdd (Sample.formOpen Sample.withMilk)
  /\ (newId Sample.breadEnv ∉ ids (records (Sample.formOpen Sample.withMilk)))
  /\ records (handleDeleteRecord (newId Sample.breadEnv)
               (handleAddRecord Sample.breadEnv Sample.breadForm (Sample.formOpen Sample.withMilk)))
     = records (Sample.formOpen Sample.withMilk).
Proof.
  assert (H1 : readyToAdd (Sample.formOpen Sample.withMilk)) by (do 2 eexists; repeat split).
  assert (H2 : newId Sample.breadEnv ∉ ids (records (Sample.formOpen Sample.withMilk)))
    by compute_done.
  split; [exact H1 | split; [exact H2|]].
  exact (delete_undoes_add Sample.breadEnv Sample.breadForm (Sample.formOpen Sample.withMilk) H1 H2).
Defined.

(** Every record that [handleAddRecord] stores has a date that parses back,
    under every host, to the clock value it was made from. *)
Lemma reaches_dates (H : Host) rs0 envs s :
  reaches rs0 envs s ->
  Forall (validDate H) rs0 ->
  Forall (fun env => validTime (nowForDate env)) envs ->
  Forall (validDate H) (records s).
Proof.
  induction 1 as [|envs s env form _ IH|envs s i0 _ IH|envs s s' _ IH Hrec];
    intros H0 Hclock.
  - exact H0.
  - apply Forall_cons in Hclock as [Hc Hclock]. specialize (IH H0 Hclock).
    unfold handleAddRecord.
    destruct (ocrResult s); [|exact IH].
    destruct (imagePreview s) as [img|]; [|exact IH].
    destruct (JSString.truthy img); [|exact IH].
    simpl. constructor; [|exact IH].
    exists (nowForDate env). now apply getTime_created.
  - rewrite delete_records. specialize (IH H0 Hclock).
    apply Forall_forall. intros r Hr. apply elem_of_filter in Hr as [Hr _].
    rewrite Forall_forall in IH. now apply IH.
  - rewrite Hrec. now apply IH.
Qed.

(** X6. In every state reached from a loaded collection with valid dates, the
    dates of all records are valid, and the view effect ends normally for
    every search text and date filter. *)
Theorem view_effect_total_on_reachable
    (H : Host) (rs0 : list ProductRecord) (envs : list AddEnv) (s : State)
    (h : Heap.heap) (recs : Heap.loc) (st df : jsstring) :
  reaches rs0 envs s ->
  Forall (validDate H) rs0 ->
  Forall (fun env => validTime (nowForDate env)) envs ->
  h !! recs = Some (records s) ->
  Forall (validDate H) (records s)
  /\ exists l h', HistoryView.filterEffect H recs st df h = (Normal l, h').
Proof.
  intros Hreach H0 Hclock Hrecs.
  pose proof (reaches_dates H rs0 envs s Hreach H0 Hclock) as Hvalid.
  split; [exact Hvalid|].
  pose proof (filterEffect_run H h recs st df) as Hrun. rewrite Hrecs in Hrun. simpl in Hrun.
  destruct (filteredView_spec H (records s) st df Hvalid) as (out & Eout & _).
  rewrite Eout in Hrun. destruct Hrun as (l & h' & Erun & _). eauto.
Qed.

Lemma view_effect_total_on_reachable_witness :
  reaches [] [Sample.breadEnv; Sample.milkEnv] Sample.withBoth
  /\ Forall (validDate asciiHost) []
  /\ Forall (fun env => validTime (nowForDate env)) [Sample.breadEnv; Sample.milkEnv]
  /\ Sample.heap1 !! 1%positive = Some (records Sample.withBoth)
  /\ Forall (validDate asciiHost) (records Sample.withBoth)
  /\ exists l h',
       HistoryView.filterEffect asciiHost 1%positive (js "bre") (js "2024-01-02") Sample.heap1
       = (Normal l, h').
Proof.
  assert (H1 : reaches [] [Sample.breadEnv; Sample.milkEnv] Sample.withBoth).
  { unfold Sample.withBoth. apply reaches_add.
    apply (reaches_other [] [Sample.milkEnv] Sample.withMilk); [|reflexivity].
    unfold Sample.withMilk. apply reaches_add.
    apply (reaches_other [] [] (setRecords [] initial)); [|reflexivity].
    apply reaches_loaded. }
  assert (H2 : Forall (validDate asciiHost) []) by constructor.
  assert (H3 : Forall (fun env => validTime (nowForDate env)) [Sample.breadEnv; Sample.milkEnv])
    by (repeat constructor; unfold validTime, JSDate.maxTime; simpl; lia).
  assert (H4 : Sample.heap1 !! 1%positive = Some (records Sample.withBoth))
    by (vm_compute; reflexivity).
  repeat (split; [assumption|]).
  exact (view_effect_total_on_reachable asciiHost [] [Sample.breadEnv; Sample.milkEnv]
           Sample.withBoth Sample.heap1 1%positive (js "bre") (js "2024-01-02") H1 H2 H3 H4).
Defined.

End StoreMore.

(** ** The history view *)

Section ViewMore.
Import App Heap HistoryView.
Variable H : Host.

Lemma keeps_passes st df r : keeps H st df r = true <-> passes H st df r.
Proof.
  unfold keeps, passes, dayIs.
  rewrite andb_true_iff, !orb_true_iff, !negb_true_iff. split.
  - intros [Hn Hd]. split.
    + intros Hne. destruct Hn as [Hn|Hn]; [now apply truthy_false in Hn|].
      now apply includes_spec.
    + intros Hne. destruct Hd as [Hd|Hd]; [now apply truthy_false in Hd|].
      destruct (calendarDay H r) as [day|]; [|discriminate].
      apply eqb_eq in Hd. now subst.
  - intros [Hn Hd]. split.
    + destruct st as [|c st]; [now left|]. right.
      apply includes_spec, Hn. discriminate.
    + destruct df as [|c df]; [now left|]. right.
      rewrite Hd by discriminate. apply eqb_refl.
Qed.

Lemma filterC_normal {A} (f : A -> completion bool) xs ys :
  JSArray.filterC f xs = Normal ys ->
  ys = List.filter (fun x => match f x with Normal b => b | Throw _ => false end) xs.
Proof.
  revert ys. induction xs as [|x xs IH]; simpl; intros ys Hys.
  - now injection Hys.
  - destruct (f x) as [b|]; [|discriminate]. simpl in Hys.
    destruct (JSArray.filterC f xs) as [zs|]; [|discriminate]. simpl in Hys.
    injection Hys as <-. rewrite (IH zs eq_refl). reflexivity.
Qed.

Lemma dayIs_dateMatches df r :
  dayIs H df r = match dateMatches H df r with Normal b => b | Throw _ => false end.
Proof. unfold dayIs, dateMatches. now destruct (calendarDay H r). Qed.

(** Whenever the view is computed, it is the kept records, sorted. *)
Lemma filteredView_normal rs st df out :
  filteredView H rs st df = Normal out ->
  out = JSArray.sorted (byDateDescending H) (List.filter (keeps H st df) rs).
Proof.
  unfold filteredView, keeps. intros Hv.
  destruct (JSString.truthy df) eqn:Ed.
  - destruct (JSArray.filterC _ _) as [ys|] eqn:Ef; [|discriminate].
    simpl in Hv. injection Hv as <-. apply filterC_normal in Ef. subst ys.
    f_equal. destruct (JSString.truthy st); simpl.
    + rewrite filter_filter. apply filter_ext_bool. intros r. now rewrite dayIs_dateMatches.
    + apply filter_ext_bool. intros r. now rewrite dayIs_dateMatches.
  - simpl in Hv. injection Hv as <-. f_equal.
    destruct (JSString.truthy st); simpl; [|symmetry; now apply filter_all, Forall_forall].
    apply filter_ext_bool. intros r. now rewrite andb_true_r.
Qed.

Lemma filteredView_complete (rs : list ProductRecord) (st df : jsstring) :
  Forall (validDate H) rs ->
  exists out,
    filteredView H rs st df = Normal out
    /\ Permutation out (List.filter (keeps H st df) rs)
    /\ (forall r, r ∈ out <-> r ∈ rs /\ passes H st df r).
Proof.
  intros Hv. destruct (filteredView_spec H rs st df Hv) as (out & Eout & _).
  exists out. split; [exact Eout|].
  pose proof (filteredView_normal rs st df out Eout) as ->.
  split; [apply sorted_perm|].
  intros r. rewrite (sorted_perm (byDateDescending H)), elem_of_filter, keeps_passes.
  reflexivity.
Qed.

(** What the effect does when [filteredView] ends normally. *)
Lemma filterEffect_normal h recs rs st df out :
  h !! recs = Some rs ->
  filteredView H rs st df = Normal out ->
  exists l h', filterEffect H recs st df h = (Normal l, h') /\ scratch h l out h'.
Proof.
  intros Hrecs Hout.
  pose proof (filterEffect_run H h recs st df) as Hrun. rewrite Hrecs in Hrun. simpl in Hrun.
  now rewrite Hout in Hrun.
Qed.

(** X7. With valid dates the view leaves nothing out: it is every record of the
    collection that satisfies the active predicates, each as often as the
    collection has it, and nothing else. *)
Theorem filterEffect_complete
    (h : heap) (recs : loc) (rs : list ProductRecord) (st df : jsstring) :
  h !! recs = Some rs ->
  Forall (validDate H) rs ->
  exists l h' out,
    filterEffect H recs st df h = (Normal l, h')
    /\ h' !! l = Some out
    /\ Permutation out (List.filter (keeps H st df) rs)
    /\ (forall r, r ∈ out <-> r ∈ rs /\ passes H st df r).
Proof.
  intros Hrecs Hv.
  destruct (filteredView_complete rs st df Hv) as (out & Eout & Hperm & Hin).
  destruct (filterEffect_normal h recs rs st df out Hrecs Eout) as (l & h' & Erun & Hl & _).
  exists l, h', out. auto.
Qed.

Lemma insert_first (x : ProductRecord) (ys : list ProductRecord) (tx : Z) :
  getTime H x = Some tx ->
  Forall (fun y => exists t, getTime H y = Some t /\ t <= tx) ys ->
  JSArray.insert (byDateDescending H) x ys = x :: ys.
Proof.
  intros Hx Hys. destruct Hys as [|y ys (t & Hy & Hle) _]; [reflexivity|].
  cbn [JSArray.insert]. unfold byDateDescending. rewrite Hy, Hx. simpl.
  destruct (Z.ltb_spec 0 (t - tx)); [lia | reflexivity].
Qed.

(** X8. A record added now is the first row of the unfiltered view: when no
    record of the collection is dated after the clock reading of the
    submission, the view starts with the new record, followed by the view of
    the records that were there. *)
Theorem new_record_heads_view
    (h : heap) (recs : loc) (env : AddEnv) (form : FormData) (s : State) :
  readyToAdd s ->
  validTime (nowForDate env) ->
  Forall (fun r => exists t, getTime H r = Some t /\ t <= nowForDate env) (records s) ->
  h !! recs = Some (records (handleAddRecord env form s)) ->
  exists l h' r out,
    filterEffect H recs [] [] h = (Normal l, h')
    /\ h' !! l = Some (r :: out)
    /\ records (handleAddRecord env form s) = r :: records s
    /\ date r = JSDate.isoString (nowForDate env)
    /\ filteredView H (records s) [] [] = Normal out.
Proof.
  intros (o & img & Ho & Hi & Ht) Hclock Hold Hrecs.
  assert (Hadd : records (handleAddRecord env form s) = newRecord env form s img :: records s).
  { unfold handleAddRecord. now rewrite Ho, Hi, Ht. }
  rewrite Hadd in Hrecs.
  set (r := newRecord env form s img) in *.
  set (out := JSArray.sorted (byDateDescending H) (records s)).
  assert (Hview : filteredView H (r :: records s) [] [] = Normal (r :: out)).
  { unfold filteredView. cbn [JSString.truthy bindC]. f_equal.
    change (JSArray.insert (byDateDescending H) r out = r :: out).
    apply (insert_first r _ (nowForDate env)).
    - now apply getTime_created.
    - apply Forall_forall. intros y Hy. rewrite Forall_forall in Hold. apply Hold.
      now rewrite <- (sorted_perm (byDateDescending H) (records s)). }
  destruct (filterEffect_normal h recs (r :: records s) [] [] (r :: out) Hrecs Hview)
    as (l & h' & Erun & Hl & _).
  exists l, h', r, out. repeat split; assumption || reflexivity.
Qed.

(** X9. Without a date filter the view effect never throws, whatever the dates
    are: no date is formatted, and an invalid date only makes the comparator
    return NaN. The view then holds the records that match the search
    text. *)
Theorem filterEffect_without_date_filter
    (h : heap) (recs : loc) (rs : list ProductRecord) (st : jsstring) :
  h !! recs = Some rs ->
  exists l h' out,
    filterEffect H recs st [] h = (Normal l, h')
    /\ h' !! l = Some out
    /\ Permutation out
         (if JSString.truthy st then List.filter (nameMatches H st) rs else rs).
Proof.
  intros Hrecs.
  pose proof (filterEffect_run H h recs st []) as Hrun. rewrite Hrecs in Hrun. simpl in Hrun.
  unfold filteredView in Hrun. simpl in Hrun.
  destruct Hrun as (l & h' & Erun & Hl & _).
  exists l, h'. eexists. split; [exact Erun|]. split; [exact Hl|]. apply sorted_perm.
Qed.

Lemma filterC_throw {A} (f : A -> completion bool) (m : jsstring) xs :
  Forall (fun x => f x = Throw m \/ exists b, f x = Normal b) xs ->
  Exists (fun x => f x = Throw m) xs ->
  JSArray.filterC f xs = Throw m.
Proof.
  induction 1 as [|x xs Hx Hxs IH]; intros He.
  - inversion He.
  - simpl. destruct Hx as [Hx | [b Hx]]; rewrite Hx; simpl; [reflexivity|].
    apply Exists_cons in He as [He|He]; [congruence|]. now rewrite IH.
Qed.

Lemma dateMatches_cases df r :
  dateMatches H df r = Throw (js "Invalid time value") \/ exists b, dateMatches H df r = Normal b.
Proof.
  unfold dateMatches, calendarDay. destruct (getTime H r); simpl; eauto.
Qed.

(** X10. With a date filter set, one record with an invalid date among those that
    match the search text makes the view effect throw: [toISOString] raises a
    [RangeError], no view is passed to [setFilteredRecords], and the arrays
    that existed are as they were. *)
Theorem filterEffect_invalid_date
    (h : heap) (recs : loc) (rs : list ProductRecord) (st df : jsstring) (r : ProductRecord) :
  h !! recs = Some rs ->
  JSString.truthy df = true ->
  r ∈ rs ->
  JSString.truthy st = false \/ nameMatches H st r = true ->
  getTime H r = None ->
  (exists e, fst (filterEffect H recs st df h) = Throw e)
  /\ forall l0, is_Some (h !! l0) -> snd (filterEffect H recs st df h) !! l0 = h !! l0.
Proof.
  intros Hrecs Hdf Hr Hname Htime.
  pose proof (filterEffect_run H h recs st df) as Hrun. rewrite Hrecs in Hrun. simpl in Hrun.
  assert (Hview : filteredView H rs st df = Throw (js "Invalid time value")).
  { unfold filteredView. rewrite Hdf.
    rewrite (filterC_throw _ (js "Invalid time value")); [reflexivity | |].
    - apply Forall_forall. intros x _. apply dateMatches_cases.
    - apply Exists_exists. exists r. split.
      + destruct (JSString.truthy st) eqn:Est; [|exact Hr].
        apply elem_of_filter. split; [exact Hr|].
        destruct Hname as [Hname|Hname]; [discriminate | exact Hname].
      + unfold dateMatches, calendarDay. now rewrite Htime. }
  rewrite Hview in Hrun. destruct Hrun as (h' & -> & Hk). split; [eauto | exact Hk].
Qed.

(** *** The order of the view *)

Lemma insert_stable t x (xs : list ProductRecord) :
  List.filter (atTime H t) (JSArray.insert (byDateDescending H) x xs)
  = List.filter (atTime H t) (x :: xs).
Proof.
  induction xs as [|y ys IH]; [reflexivity|].
  cbn [JSArray.insert]. destruct (JSArray.after (byDateDescending H x y)) eqn:Ea; [|reflexivity].
  cbn [List.filter] in *. rewrite IH.
  unfold JSArray.after, byDateDescending in Ea. unfold atTime.
  destruct (getTime H y) as [ty|]; [|discriminate].
  destruct (getTime H x) as [tx|]; [|discriminate].
  apply Z.ltb_lt in Ea.
  destruct (Z.eqb_spec ty t), (Z.eqb_spec tx t); try reflexivity. lia.
Qed.

Lemma sorted_stable t (xs : list ProductRecord) :
  List.filter (atTime H t) (JSArray.sorted (byDateDescending H) xs)
  = List.filter (atTime H t) xs.
Proof.
  induction xs as [|x xs IH]; [reflexivity|].
  cbn [JSArray.sorted fold_right]. rewrite insert_stable. cbn [List.filter].
  unfold JSArray.sorted in IH. now rewrite IH.
Qed.

(** X11. Records of the same instant appear in the view in the order they have
    in the collection: the sort is stable and the comparator sees them as
    equal. *)
Theorem filterEffect_stable
    (h : heap) (recs : loc) (rs : list ProductRecord) (st df : jsstring) :
  h !! recs = Some rs ->
  Forall (validDate H) rs ->
  exists l h' out,
    filterEffect H recs st df h = (Normal l, h')
    /\ h' !! l = Some out
    /\ forall t, List.filter (atTime H t) out
                 = List.filter (atTime H t) (List.filter (keeps H st df) rs).
Proof.
  intros Hrecs Hv.
  destruct (filteredView_spec H rs st df Hv) as (out & Eout & _).
  destruct (filterEffect_normal h recs rs st df out Hrecs Eout) as (l & h' & Erun & Hl & _).
  exists l, h', out. split; [exact Erun|]. split; [exact Hl|].
  intros t. rewrite (filteredView_normal rs st df out Eout). apply sorted_stable.
Qed.

Lemma sorted_of_sorted (xs : list ProductRecord) :
  StronglySorted (notEarlier H) xs -> JSArray.sorted (byDateDescending H) xs = xs.
Proof.
  induction 1 as [|x xs Hs IH Hx]; [reflexivity|].
  cbn [JSArray.sorted fold_right]. unfold JSArray.sorted in IH. rewrite IH.
  destruct xs as [|y ys]; [reflexivity|].
  apply Forall_cons in Hx as [(tx & ty & Htx & Hty & Hle) _].
  cbn [JSArray.insert]. unfold byDateDescending. rewrite Hty, Htx. simpl.
  destruct (Z.ltb_spec 0 (ty - tx)); [lia | reflexivity].
Qed.

Lemma filteredView_idempotent (rs : list ProductRecord) (st df : jsstring)
    (out : list ProductRecord) :
  Forall (validDate H) rs ->
  filteredView H rs st df = Normal out ->
  filteredView H out st df = Normal out.
Proof.
  intros Hv Hout.
  destruct (filteredView_spec H rs st df Hv) as (out' & Eout & Hpass & Hsorted).
  rewrite Hout in Eout. injection Eout as <-.
  assert (Hvo : Forall (validDate H) out).
  { apply Forall_forall. intros r Hr. rewrite Forall_forall in Hpass, Hv.
    apply Hv, Hpass, Hr. }
  destruct (filteredView_spec H out st df Hvo) as (out2 & Eout2 & _).
  rewrite Eout2. f_equal.
  rewrite (filteredView_normal out st df out2 Eout2).
  rewrite filter_all; [now apply sorted_of_sorted|].
  eapply Forall_impl; [exact Hpass|]. intros r [_ Hr]. now apply keeps_passes.
Qed.

(** X12. The view of a view is that view: the effect run on the array it
    produced, with the same inputs, produces an array of the same elements
    in the same order. *)
Theorem filterEffect_idempotent
    (h : heap) (recs : loc) (rs : list ProductRecord) (st df : jsstring) :
  h !! recs = Some rs ->
  Forall (validDate H) rs ->
  exists l h' l2 h2,
    filterEffect H recs st df h = (Normal l, h')
    /\ filterEffect H l st df h' = (Normal l2, h2)
    /\ l2 <> l
    /\ h2 !! l2 = h' !! l.
Proof.
  intros Hrecs Hv.
  destruct (filteredView_spec H rs st df Hv) as (out & Eout & _).
  destruct (filterEffect_normal h recs rs st df out Hrecs Eout) as (l & h' & Erun & Hl & _).
  pose proof (filteredView_idempotent rs st df out Hv Eout) as Eout2.
  destruct (filterEffect_normal h' l out st df out Hl Eout2) as (l2 & h2 & Erun2 & Hl2 & Hnew & _).
  exists l, h', l2, h2. split; [exact Erun|]. split; [exact Erun2|].
  split; [|now rewrite Hl2, Hl].
  intros ->. rewrite Hl in Hnew. discriminate.
Qed.


End ViewMore.

(** ** The image preprocessor *)

Section CanvasMore.
Import Preprocessor.

(** The two computations of [canvasSize], by the branch taken. *)
Lemma canvasSize_cases w h :
  0 <= w < 2 ^ 32 -> 0 <= h < 2 ^ 32 ->
  (h < w /\ 400 < w /\ fst (canvasSize w h) = 400
   /\ 0 <= snd (canvasSize w h) <= 400
   /\ snd (canvasSize w h) * w <= 400 * h <= snd (canvasSize w h) * w + w)
  \/ (w <= h /\ 400 < h /\ snd (canvasSize w h) = 400
      /\ 0 <= fst (canvasSize w h) <= 400
      /\ fst (canvasSize w h) * h <= 400 * w <= fst (canvasSize w h) * h + h)
  \/ (w <= 400 /\ h <= 400 /\ canvasSize w h = (w, h)).
Proof.
  intros Hw Hh.
  assert (H53 : 2 ^ 32 < 2 ^ 53) by reflexivity.
  assert (H400 : Number.toUnsignedLong MAX_WIDTH = 400) by reflexivity.
  unfold canvasSize, scaledSize.
  rewrite (gtb_of_Z w h) by lia.
  unfold MAX_HEIGHT, MAX_WIDTH in *.
  rewrite (gtb_of_Z w 400), (gtb_of_Z h 400) by lia.
  destruct (Z.ltb_spec h w) as [Hlt | Hge].
  - destruct (Z.ltb_spec 400 w) as [Hbig | Hsmall]; cbn [fst snd].
    + pose proof (scaled_side h w ltac:(lia) ltac:(lia)) as [Hr Hs]. cbv zeta in Hr, Hs.
      left. rewrite H400. repeat split; lia.
    + right. right. rewrite !toUnsignedLong_of_Z by lia. repeat split; lia.
  - destruct (Z.ltb_spec 400 h) as [Hbig | Hsmall]; cbn [fst snd].
    + pose proof (scaled_side w h ltac:(lia) ltac:(lia)) as [Hr Hs]. cbv zeta in Hr, Hs.
      right. left. rewrite H400. repeat split; lia.
    + right. right. rewrite !toUnsignedLong_of_Z by lia. repeat split; lia.
Qed.

Lemma scaled_below s L c : 400 < L -> 0 <= s -> 0 <= c -> c * L <= 400 * s -> c <= s.
Proof.
  intros HL Hs Hc Hle. destruct (Z.le_gt_cases c s) as [|Hgt]; [assumption|exfalso].
  assert (Hm : (s + 1) * L <= c * L) by (apply Z.mul_le_mono_nonneg_r; lia).
  assert (Hm2 : 400 * (s + 1) <= L * (s + 1)) by (apply Z.mul_le_mono_nonneg_r; lia).
  lia.
Qed.

(** X13. The canvas is never larger than the image, in either dimension: the
    preprocessor only ever scales down. *)
Theorem canvasSize_never_larger (w h : Z) :
  0 <= w < 2 ^ 32 -> 0 <= h < 2 ^ 32 ->
  fst (canvasSize w h) <= w /\ snd (canvasSize w h) <= h.
Proof.
  intros Hw Hh.
  destruct (canvasSize_cases w h Hw Hh)
    as [(Hlt & Hbig & Hf & Hr & Hs) | [(Hge & Hbig & Hf & Hr & Hs) | (Hsw & Hsh & ->)]].
  - split; [lia|]. apply (scaled_below h w); lia.
  - split; [|lia]. apply (scaled_below w h); lia.
  - simpl. lia.
Qed.

Lemma canvasSize_never_larger_witness :
  0 <= 4000 < 2 ^ 32 /\ 0 <= 3000 < 2 ^ 32
  /\ fst (canvasSize 4000 3000) <= 4000 /\ snd (canvasSize 4000 3000) <= 3000.
Proof.
  assert (H1 : 0 <= 4000 < 2 ^ 32) by (change (2 ^ 32) with 4294967296; lia).
  assert (H2 : 0 <= 3000 < 2 ^ 32) by (change (2 ^ 32) with 4294967296; lia).
  split; [exact H1 | split; [exact H2|]].
  exact (canvasSize_never_larger 4000 3000 H1 H2).
Defined.

Lemma zero_side c s L : 0 <= c -> 0 < L -> c * L <= 400 * s -> 400 * s < L -> c = 0.
Proof.
  intros Hc HL Hle Hlt. destruct (Z.eq_dec c 0) as [|Hne]; [assumption|exfalso].
  assert (1 * L <= c * L) by (apply Z.mul_le_mono_nonneg_r; lia). lia.
Qed.

(** X14. An image more than 400 times as long as it is wide, or as wide as it is
    long, gets a canvas with no pixels: its short side is scaled to 0. *)
Theorem canvasSize_thin_image (w h : Z) :
  0 <= w < 2 ^ 32 -> 0 <= h < 2 ^ 32 ->
  400 < Z.max w h ->
  400 * Z.min w h < Z.max w h ->
  canvasSize w h = if h <? w then (400, 0) else (0, 400).
Proof.
  intros Hw Hh Hbig0 Hthin.
  destruct (canvasSize_cases w h Hw Hh)
    as [(Hlt & Hbig & Hf & Hr & Hs) | [(Hge & Hbig & Hf & Hr & Hs) | (Hsw & Hsh & Hsame)]].
  - rewrite Z.max_l, Z.min_r in Hthin by lia.
    destruct (Z.ltb_spec h w); [|lia].
    rewrite (surjective_pairing (canvasSize w h)), Hf.
    f_equal. apply (zero_side _ h w); lia.
  - rewrite Z.max_r, Z.min_l in Hthin by lia.
    destruct (Z.ltb_spec h w); [lia|].
    rewrite (surjective_pairing (canvasSize w h)), Hf.
    f_equal. apply (zero_side _ w h); lia.
  - lia.
Qed.

Lemma canvasSize_thin_image_witness :
  0 <= 4000 < 2 ^ 32 /\ 0 <= 9 < 2 ^ 32
  /\ 400 < Z.max 4000 9 /\ 400 * Z.min 4000 9 < Z.max 4000 9
  /\ canvasSize 4000 9 = (400, 0).
Proof.
  assert (H1 : 0 <= 4000 < 2 ^ 32) by (change (2 ^ 32) with 4294967296; lia).
  assert (H2 : 0 <= 9 < 2 ^ 32) by (change (2 ^ 32) with 4294967296; lia).
  assert (H3 : 400 < Z.max 4000 9) by (simpl; lia).
  assert (H4 : 400 * Z.min 4000 9 < Z.max 4000 9) by (simpl; lia).
  repeat (split; [assumption|]).
  exact (canvasSize_thin_image 4000 9 H1 H2 H3 H4).
Defined.

(** X15. A large image whose short side is at least a 200th of the long one
    keeps at least one pixel in each dimension. *)
Theorem canvasSize_keeps_a_pixel (w h : Z) :
  0 <= w < 2 ^ 32 -> 0 <= h < 2 ^ 32 ->
  400 < Z.max w h ->
  Z.max w h <= 200 * Z.min w h ->
  1 <= fst (canvasSize w h) /\ 1 <= snd (canvasSize w h).
Proof.
  intros Hw Hh Hbig0 Hwide.
  destruct (canvasSize_cases w h Hw Hh)
    as [(Hlt & Hbig & Hf & Hr & Hs) | [(Hge & Hbig & Hf & Hr & Hs) | (Hsw & Hsh & Hsame)]].
  - rewrite Z.max_l, Z.min_r in Hwide by lia. split; [lia|].
    destruct (Z.le_gt_cases 1 (snd (canvasSize w h))) as [|Hz]; [assumption|exfalso].
    assert (snd (canvasSize w h) = 0) as Hz0 by lia. rewrite Hz0 in Hs. lia.
  - rewrite Z.max_r, Z.min_l in Hwide by lia. split; [|lia].
    destruct (Z.le_gt_cases 1 (fst (canvasSize w h))) as [|Hz]; [assumption|exfalso].
    assert (fst (canvasSize w h) = 0) as Hz0 by lia. rewrite Hz0 in Hs. lia.
  - lia.
Qed.

Lemma canvasSize_keeps_a_pixel_witness :
  0 <= 4000 < 2 ^ 32 /\ 0 <= 20 < 2 ^ 32
  /\ 400 < Z.max 4000 20 /\ Z.max 4000 20 <= 200 * Z.min 4000 20
  /\ 1 <= fst (canvasSize 4000 20) /\ 1 <= snd (canvasSize 4000 20).
Proof.
  assert (H1 : 0 <= 4000 < 2 ^ 32) by (change (2 ^ 32) with 4294967296; lia).
  assert (H2 : 0 <= 20 < 2 ^ 32) by (change (2 ^ 32) with 4294967296; lia).
  assert (H3 : 400 < Z.max 4000 20) by (simpl; lia).
  assert (H4 : Z.max 4000 20 <= 200 * Z.min 4000 20) by (simpl; lia).
  repeat (split; [assumption|]).
  exact (canvasSize_keeps_a_pixel 4000 20 H1 H2 H3 H4).
Defined.

End CanvasMore.

(** ** Saving and loading *)

Section PersistenceMore.
Import App.

(** X16. Saving never raises. It writes the entry of the storage key and no
    other; when the write fails, the storage is as it was, the collection in
    memory is kept, and the user is warned. *)
Theorem save_never_raises (st : Storage) (s : State) :
  exists st' s' log,
    save st s = Normal (st', s', log)
    /\ records s' = records s
    /\ (forall k, k <> storageKey -> entries st' !! k = entries st !! k)
    /\ (log = [] /\ s' = s /\ entries st' !! storageKey = Some (JSON.stringify (records s))
        \/ log <> [] /\ st' = st
           /\ error s'
              = Some (js "Could not save new records. Your browser's storage might be full.")).
Proof.
  unfold save, LocalStorage.setItem.
  destruct (denied st) eqn:Hd; simpl.
  - do 3 eexists. split; [reflexivity|]. split; [reflexivity|]. split; [reflexivity|].
    right. repeat split. discriminate.
  - destruct (fits st (JSON.stringify (records s))) eqn:Hf; simpl.
    + do 3 eexists. split; [reflexivity|]. split; [reflexivity|]. split.
      * intros k Hk. simpl. now rewrite lookup_insert_ne.
      * left. repeat split. simpl. apply lookup_insert_eq.
    + do 3 eexists. split; [reflexivity|]. split; [reflexivity|]. split; [reflexivity|].
      right. repeat split. discriminate.
Qed.

(** X17. An entry that is absent, or that holds the empty string, is skipped in
    silence: the state is unchanged and nothing is logged, although the empty
    string is not JSON. *)
Theorem load_nothing_stored (st : Storage) (s : State) :
  denied st = false ->
  entries st !! storageKey = None \/ entries st !! storageKey = Some (BadText []) ->
  load st s = Normal (Ok s []).
Proof.
  intros Hd He. unfold load, LocalStorage.getItem. rewrite Hd. simpl.
  destruct He as [-> | ->]; reflexivity.
Qed.

Lemma load_nothing_stored_witness :
  denied Sample.emptyStorage = false
  /\ (entries Sample.emptyStorage !! storageKey = None
      \/ entries Sample.emptyStorage !! storageKey = Some (BadText []))
  /\ load Sample.emptyStorage Sample.blankQuery = Normal (Ok Sample.blankQuery []).
Proof.
  assert (H1 : denied Sample.emptyStorage = false) by reflexivity.
  assert (H2 : entries Sample.emptyStorage !! storageKey = None
               \/ entries Sample.emptyStorage !! storageKey = Some (BadText []))
    by (left; reflexivity).
  split; [exact H1 | split; [exact H2|]].
  exact (load_nothing_stored Sample.emptyStorage Sample.blankQuery H1 H2).
Defined.

Lemma asRecord_not_finite r :
  Number.isFinite (price r) = false -> JSON.asRecord (JSON.ofRecord r) = None.
Proof.
  intros Hp. unfold JSON.ofRecord, JSON.asRecord.
  destruct (price r); simpl in *; try discriminate; reflexivity.
Qed.

Lemma asRecordList_fails rs :
  Exists (fun r => Number.isFinite (price r) = false) rs ->
  JSON.asRecordList (map JSON.ofRecord rs) = None.
Proof.
  induction 1 as [r rs Hr | r rs _ IH]; cbn [map JSON.asRecordList].
  - now rewrite (asRecord_not_finite r Hr).
  - rewrite IH. now destruct (JSON.asRecord (JSON.ofRecord r)).
Qed.

(** X18. A price that is not a finite number -- NaN, as [parseFloat] gives for a
    price field without a number -- does not survive saving: it is written as
    [null], and the next start loads a collection that is no array of records
    any more. *)
Theorem not_a_number_is_not_restored (st : Storage) (s : State) (r : ProductRecord) :
  denied st = false ->
  fits st (JSON.stringify (records s)) = true ->
  r ∈ records s ->
  Number.isFinite (price r) = false ->
  exists st',
    save st s = Normal (st', s, [])
    /\ freshStart st' = Normal (Foreign (JArray (map JSON.ofRecord (records s))))
    /\ JSON.ofNumber (price r) = JNull.
Proof.
  intros Hd Hf Hr Hp. unfold save, LocalStorage.setItem. rewrite Hd, Hf. simpl.
  eexists. split; [reflexivity|]. split.
  - unfold freshStart, load, LocalStorage.getItem. simpl.
    rewrite lookup_insert_eq. simpl.
    rewrite asRecordList_fails; [reflexivity|].
    apply Exists_exists. eauto.
  - destruct (price r); simpl in *; try discriminate; reflexivity.
Qed.

Lemma storedNumber_idem x : storedNumber (storedNumber x) = storedNumber x.
Proof. now destruct x. Qed.

Lemma storedRecord_idem r : storedRecord (storedRecord r) = storedRecord r.
Proof.
  unfold storedRecord. simpl. rewrite storedNumber_idem. f_equal.
  destruct (location r); simpl; [|reflexivity]. now rewrite !storedNumber_idem.
Qed.

Lemma storedNumber_finite x :
  Number.isFinite x = true -> Number.isFinite (storedNumber x) = true.
Proof. now destruct x. Qed.

Lemma storedRecord_valid r : validRecord r -> validRecord (storedRecord r).
Proof.
  intros [Hp Hl]. split; simpl.
  - now apply storedNumber_finite.
  - destruct (location r); simpl; [|exact I].
    destruct Hl. split; now apply storedNumber_finite.
Qed.

(** X19. What has been loaded once is restored exactly from then on: saving a
    loaded collection of valid records and starting again gives the very
    same collection. *)
Theorem reload_is_exact (st : Storage) (s : State) (rs : list ProductRecord) :
  denied st = false ->
  (forall p, fits st p = true) ->
  Forall validRecord rs ->
  records s = map storedRecord rs ->
  exists st' s',
    save st s = Normal (st', s, [])
    /\ freshStart st' = Normal (Ok s' [])
    /\ records s' = records s.
Proof.
  intros Hd Hf Hv Hs. unfold save, LocalStorage.setItem. rewrite Hd, Hf. simpl.
  eexists. exists (setRecords (records s) initial).
  split; [reflexivity|]. split; [|reflexivity].
  unfold freshStart, load, LocalStorage.getItem. simpl.
  rewrite lookup_insert_eq. simpl.
  rewrite asRecords_stringify.
  - rewrite Hs, map_map.
    rewrite (map_ext _ storedRecord) by (intros r; apply storedRecord_idem).
    reflexivity.
  - rewrite Hs. apply Forall_map. eapply Forall_impl; [exact Hv|].
    intros r Hr. now apply storedRecord_valid.
Qed.

End PersistenceMore.

(** ** The add form: photo, position, submission *)

Section FormMore.
Import App.

Lemma trimStart_nil (q : jsstring) :
  JSString.trimStart q = [] <-> forallb JSString.isWhiteSpace q = true.
Proof.
  induction q as [|c q IH]; simpl.
  - tauto.
  - destruct (JSString.isWhiteSpace c); simpl; [exact IH|].
    split; discriminate.
Qed.

Lemma trimStart_white_or_head (q : jsstring) :
  JSString.trimStart q = []
  \/ exists c r, JSString.trimStart q = c :: r /\ JSString.isWhiteSpace c = false.
Proof.
  induction q as [|c q IH]; simpl; [now left|].
  destruct (JSString.isWhiteSpace c) eqn:Hc; [exact IH|].
  right. eauto.
Qed.

Lemma trim_nil (q : jsstring) :
  JSString.trim q = [] <-> forallb JSString.isWhiteSpace q = true.
Proof.
  split.
  - intros Ht. apply trimStart_nil.
    unfold JSString.trim, JSString.trimEnd in Ht.
    destruct (trimStart_white_or_head q) as [Hq | (c & r & Hq & Hc)]; [exact Hq|].
    exfalso. rewrite Hq in Ht.
    apply (f_equal (@rev N)) in Ht. rewrite rev_involutive in Ht. simpl in Ht.
    apply trimStart_nil in Ht. rewrite forallb_app in Ht.
    apply andb_true_iff in Ht as [_ Ht]. simpl in Ht. rewrite Hc in Ht. discriminate.
  - intros Hq. apply trimStart_nil in Hq.
    unfold JSString.trim, JSString.trimEnd. now rewrite Hq.
Qed.

(** X20. The analysis service is called exactly when the query has a code unit
    that is not white space, once, with the query as typed -- untrimmed --
    and the whole collection, whatever the search and date filters show. *)
Theorem handleAnalyze_calls_service_iff
    (service : jsstring -> list ProductRecord -> completion jsstring) (s : State) :
  snd (handleAnalyze service s)
  = if forallb JSString.isWhiteSpace (analysisQuery s) then []
    else [AnalyzeCall (analysisQuery s) (records s)].
Proof.
  unfold handleAnalyze.
  destruct (forallb JSString.isWhiteSpace (analysisQuery s)) eqn:Hq.
  - apply trim_nil in Hq. now rewrite Hq.
  - destruct (JSString.trim (analysisQuery s)) eqn:Ht; [|reflexivity].
    apply trim_nil in Ht. congruence.
Qed.

(** X21. After a query that is not blank has been answered, the loading flag is
    off again and the collection and the query are as they were. An answer
    replaces the previous one and clears the error message; a failure
    leaves an empty answer and an error message, the one of the failure
    when it has one. *)
Theorem handleAnalyze_settles
    (service : jsstring -> list ProductRecord -> completion jsstring) (s : State) :
  forallb JSString.isWhiteSpace (analysisQuery s) = false ->
  let s' := fst (handleAnalyze service s) in
  isLoadingAnalysis s' = false
  /\ records s' = records s
  /\ analysisQuery s' = analysisQuery s
  /\ match service (analysisQuery s) (records s) with
     | Normal result => analysisResult s' = result /\ error s' = None
     | Throw m =>
         analysisResult s' = []
         /\ (exists shown, error s' = Some shown /\ shown <> [] /\ (m <> [] -> shown = m))
     end.
Proof.
  intros Hq. unfold handleAnalyze.
  destruct (JSString.trim (analysisQuery s)) eqn:Ht.
  { apply trim_nil in Ht. congruence. }
  cbn [negb JSString.truthy fst]. unfold analyzeSettled.
  destruct (service (analysisQuery s) (records s)) as [result | m]; cbn.
  - repeat split.
  - repeat split. destruct m as [|c m]; cbn.
    + eexists. split; [reflexivity|]. split; [discriminate | congruence].
    + eexists. split; [reflexivity|]. split; [discriminate | reflexivity].
Qed.

Lemma fileChangeFailed_reset m s : fileChangeFailed m s = resetAddForm s.
Proof.
  unfold fileChangeFailed.
  generalize (Some (if JSString.truthy m then m
                    else js "An unknown error occurred during image processing.")).
  intros shown. reflexivity.
Qed.

(** X22. A photo that cannot be processed -- the resizing is rejected, or the
    recognition service fails -- leaves the add form closed and idle, and
    shows no error message: the message set by the handler is cleared by the
    form reset that follows it. The collection is as it was, and a
    submission does nothing. *)
Theorem handleFileChange_failure_is_silent
    (resized : completion jsstring)
    (service : option jsstring -> jsstring -> completion OcrResult)
    (s : State) (m : jsstring) :
  resized = Throw m
  \/ (exists url, resized = Normal url
                  /\ service (JSString.secondPiece 44 url) (js "image/jpeg") = Throw m) ->
  let s' := fst (handleFileChange (Some resized) service s) in
  error s' = None
  /\ ocrResult s' = None /\ imagePreview s' = None /\ userLocation s' = None
  /\ isLoadingOcr s' = false
  /\ records s' = records s
  /\ forall env form, handleAddRecord env form s' = s'.
Proof.
  intros [-> | (url & -> & Hs)]; cbn [handleFileChange fst]; [|rewrite Hs];
    rewrite fileChangeFailed_reset;
    repeat (split; [reflexivity|]); intros env form; reflexivity.
Qed.

(** X23. The recognition service receives the part of the data URL after its
    comma, and the type [image/jpeg]. *)
Theorem handleFileChange_sends_payload
    (header body : jsstring)
    (service : option jsstring -> jsstring -> completion OcrResult) (s : State) :
  44%N ∉ header -> 44%N ∉ body ->
  snd (handleFileChange (Some (Normal (header ++ 44%N :: body))) service s)
  = [ExtractCall (Some body) (js "image/jpeg")].
Proof.
  intros Hh Hb. cbn [handleFileChange snd].
  assert (Hbf : JSString.beforeFirst 44 body = body).
  { clear Hh. induction body as [|c b IH]; [reflexivity|].
    apply not_elem_of_cons in Hb as [Hc Hb]. simpl.
    destruct (N.eqb_spec c 44) as [-> | _]; [congruence|].
    now rewrite IH. }
  assert (Hsp : JSString.secondPiece 44 (header ++ 44%N :: body) = Some body).
  { induction header as [|c h IH]; simpl.
    - now rewrite Hbf.
    - apply not_elem_of_cons in Hh as [Hc Hh].
      destruct (N.eqb_spec c 44) as [-> | _]; [congruence|].
      now apply IH. }
  now rewrite Hsp.
Qed.

Lemma chosen_state url service o s :
  service (JSString.secondPiece 44 url) (js "image/jpeg") = Normal o ->
  fst (handleFileChange (Some (Normal url)) service s)
  = setIsLoadingOcr false (setOcrResult (Some o) (setImagePreview (Some url)
      (setError None (setIsLoadingOcr true (resetAddForm s))))).
Proof.
  intros Hs. cbn [handleFileChange fst]. now rewrite Hs.
Qed.

Lemma handleAddRecord_ready env form s o img :
  ocrResult s = Some o -> imagePreview s = Some img -> img <> [] ->
  handleAddRecord env form s
  = resetAddForm (setRecords (newRecord env form s img :: records s) s).
Proof.
  intros Ho Hi Hn. unfold handleAddRecord. rewrite Ho, Hi.
  destruct img; [congruence | reflexivity].
Qed.

(** X24. A photo, then a position, then the submission: the collection gains one
    record in front, with the data URL of the downscaled photo, the name and
    the price of the form fields -- not those of the recognition result --
    and the position; after that the form is closed again. A position
    captured before the photo was chosen is not stored: choosing a photo
    resets it. *)
Theorem photo_position_submit
    (url : jsstring) (service : option jsstring -> jsstring -> completion OcrResult)
    (o : OcrResult) (lat lon : number) (env : AddEnv) (form : FormData) (s : State) :
  service (JSString.secondPiece 44 url) (js "image/jpeg") = Normal o ->
  url <> [] ->
  let chosen := fst (handleFileChange (Some (Normal url)) service s) in
  let located := fst (handleGetLocation (GeoPosition lat lon) chosen) in
  let added := handleAddRecord env form located in
  records added
  = {| id := newId env; imageUrl := url; name := productNameField form;
       price := Number.parseFloat (priceField form);
       date := JSDate.isoString (nowForDate env);
       location := Some {| latitude := lat; longitude := lon |} |} :: records s
  /\ ocrResult added = None /\ imagePreview added = None /\ userLocation added = None
  /\ error added = None
  /\ (exists r, records (handleAddRecord env form chosen) = r :: records s
                /\ location r = None).
Proof.
  intros Hs Hu chosen located added.
  assert (Hc := chosen_state url service o s Hs). fold chosen in Hc.
  assert (Ha : added = resetAddForm (setRecords (newRecord env form located url :: records located) located)).
  { apply (handleAddRecord_ready env form located o url); [| |exact Hu];
      subst located; rewrite Hc; reflexivity. }
  assert (Hb : handleAddRecord env form chosen
               = resetAddForm (setRecords (newRecord env form chosen url :: records chosen) chosen)).
  { apply (handleAddRecord_ready env form chosen o url); [| |exact Hu];
      rewrite Hc; reflexivity. }
  rewrite Ha, Hb. subst located. rewrite Hc.
  split; [reflexivity|]. repeat (split; [reflexivity|]).
  eexists. split; reflexivity.
Qed.

(** X25. A position request that fails -- no geolocation in the browser, or an
    error from it -- shows a message and changes nothing that a submission
    stores: the record added afterwards is the one that would have been
    added without the request, with the position captured before, if
    any. *)
Theorem failed_position_request
    (g : geolocation) (env : AddEnv) (form : FormData) (s : State) :
  (forall lat lon, g <> GeoPosition lat lon) ->
  let s' := fst (handleGetLocation g s) in
  error s' <> None
  /\ userLocation s' = userLocation s
  /\ records (handleAddRecord env form s') = records (handleAddRecord env form s).
Proof.
  intros Hg. destruct g as [|lat lon|code message]; cbn [handleGetLocation fst].
  - repeat split; [discriminate|].
    unfold handleAddRecord. cbn.
    destruct (ocrResult s), (imagePreview s) as [[|c img]|]; reflexivity.
  - now destruct (Hg lat lon).
  - repeat split; [discriminate|].
    unfold handleAddRecord. cbn.
    destruct (ocrResult s), (imagePreview s) as [[|c img]|]; reflexivity.
Qed.

(** X26. A submission whose price field holds no finite number is stored all
    the same, and the collection it is saved with does not come back: the
    next start finds a value that is no list of records. *)
Theorem unreadable_price_breaks_restart
    (st : Storage) (env : AddEnv) (form : FormData) (s : State) :
  readyToAdd s ->
  Number.isFinite (Number.parseFloat (priceField form)) = false ->
  denied st = false ->
  (forall p, fits st p = true) ->
  exists st' added v,
    added = handleAddRecord env form s
    /\ length (records added) = S (length (records s))
    /\ save st added = Normal (st', added, [])
    /\ freshStart st' = Normal (Foreign v).
Proof.
  intros (o & img & Ho & Hi & Ht) Hp Hd Hf.
  assert (Hadd : records (handleAddRecord env form s) = newRecord env form s img :: records s).
  { unfold handleAddRecord. now rewrite Ho, Hi, Ht. }
  eexists _, (handleAddRecord env form s), _.
  split; [reflexivity|]. split; [now rewrite Hadd|]. split.
  - unfold save, LocalStorage.setItem. rewrite Hd, Hf. cbn [bindC tryCatch]. reflexivity.
  - unfold freshStart, load, LocalStorage.getItem. cbn [denied entries].
    rewrite lookup_insert_eq. cbn [bindC tryCatch storedTruthy JSON.stringify JSON.parse].
    unfold JSON.asRecords.
    rewrite Hadd, asRecordList_fails; [reflexivity|].
    apply Exists_cons_hd. exact Hp.
Qed.

End FormMore.

(** ** The properties at the sample data *)

Section MoreInstances.
Import App.



Lemma filterEffect_complete_witness :
  Sample.heap1 !! 1%positive = Some [Sample.bread; Sample.milk]
  /\ Forall (validDate asciiHost) [Sample.bread; Sample.milk]
  /\ exists l h' out,
       HistoryView.filterEffect asciiHost 1%positive (js "mil") (js "2024-01-01") Sample.heap1
       = (Normal l, h')
       /\ h' !! l = Some out
       /\ Permutation out
            (List.filter (keeps asciiHost (js "mil") (js "2024-01-01"))
               [Sample.bread; Sample.milk])
       /\ (forall r, r ∈ out
                     <-> r ∈ [Sample.bread; Sample.milk]
                         /\ passes asciiHost (js "mil") (js "2024-01-01") r).
Proof.
  assert (H1 : Sample.heap1 !! 1%positive = Some [Sample.bread; Sample.milk]) by reflexivity.
  assert (H2 : Forall (validDate asciiHost) [Sample.bread; Sample.milk])
    by (repeat constructor; eexists; vm_compute; reflexivity).
  split; [exact H1 | split; [exact H2|]].
  exact (filterEffect_complete asciiHost Sample.heap1 1%positive
           [Sample.bread; Sample.milk] (js "mil") (js "2024-01-01") H1 H2).
Defined.

Lemma new_record_heads_view_witness :
  readyToAdd (Sample.formOpen Sample.withMilk)
  /\ validTime (nowForDate Sample.breadEnv)
  /\ Forall (fun r => exists t, HistoryView.getTime asciiHost r = Some t
                                /\ t <= nowForDate Sample.breadEnv)
       (records (Sample.formOpen Sample.withMilk))
  /\ Sample.heap1 !! 1%positive
     = Some (records (handleAddRecord Sample.breadEnv Sample.breadForm
                        (Sample.formOpen Sample.withMilk)))
  /\ exists l h' r out,
       HistoryView.filterEffect asciiHost 1%positive [] [] Sample.heap1 = (Normal l, h')
       /\ h' !! l = Some (r :: out)
       /\ records (handleAddRecord Sample.breadEnv Sample.breadForm
                     (Sample.formOpen Sample.withMilk))
          = r :: records (Sample.formOpen Sample.withMilk)
       /\ date r = JSDate.isoString (nowForDate Sample.breadEnv)
       /\ HistoryView.filteredView asciiHost (records (Sample.formOpen Sample.withMilk)) [] []
          = Normal out.
Proof.
  assert (H1 : readyToAdd (Sample.formOpen Sample.withMilk)) by (do 2 eexists; repeat split).
  assert (H2 : validTime (nowForDate Sample.breadEnv))
    by (unfold validTime, JSDate.maxTime; simpl; lia).
  assert (H3 : Forall (fun r => exists t, HistoryView.getTime asciiHost r = Some t
                                          /\ t <= nowForDate Sample.breadEnv)
                 (records (Sample.formOpen Sample.withMilk))).
  { repeat constructor. exists 1704103200000. split; [vm_compute; reflexivity|].
    simpl. lia. }
  assert (H4 : Sample.heap1 !! 1%positive
               = Some (records (handleAddRecord Sample.breadEnv Sample.breadForm
                                  (Sample.formOpen Sample.withMilk))))
    by (vm_compute; reflexivity).
  repeat (split; [assumption|]).
  exact (new_record_heads_view asciiHost Sample.heap1 1%positive Sample.breadEnv
           Sample.breadForm (Sample.formOpen Sample.withMilk) H1 H2 H3 H4).
Defined.

Lemma filterEffect_without_date_filter_witness :
  Scenario.heap2 !! 1%positive = Some [Sample.bread; Scenario.undated; Sample.milk]
  /\ HistoryView.getTime asciiHost Scenario.undated = None
  /\ exists l h' out,
       HistoryView.filterEffect asciiHost 1%positive (js "mil") [] Scenario.heap2
       = (Normal l, h')
       /\ h' !! l = Some out
       /\ Permutation out
            (if JSString.truthy (js "mil")
             then List.filter (HistoryView.nameMatches asciiHost (js "mil"))
                    [Sample.bread; Scenario.undated; Sample.milk]
             else [Sample.bread; Scenario.undated; Sample.milk]).
Proof.
  assert (H1 : Scenario.heap2 !! 1%positive
               = Some [Sample.bread; Scenario.undated; Sample.milk]) by reflexivity.
  split; [exact H1 | split; [vm_compute; reflexivity|]].
  exact (filterEffect_without_date_filter asciiHost Scenario.heap2 1%positive
           [Sample.bread; Scenario.undated; Sample.milk] (js "mil") H1).
Defined.

Lemma filterEffect_invalid_date_witness :
  Scenario.heap2 !! 1%positive = Some [Sample.bread; Scenario.undated; Sample.milk]
  /\ JSString.truthy (js "2024-01-01") = true
  /\ Scenario.undated ∈ [Sample.bread; Scenario.undated; Sample.milk]
  /\ (JSString.truthy (js "mil") = false
      \/ HistoryView.nameMatches asciiHost (js "mil") Scenario.undated = true)
  /\ HistoryView.getTime asciiHost Scenario.undated = None
  /\ (exists e,
        fst (HistoryView.filterEffect asciiHost 1%positive (js "mil") (js "2024-01-01")
               Scenario.heap2) = Throw e)
  /\ forall l0, is_Some (Scenario.heap2 !! l0) ->
       snd (HistoryView.filterEffect asciiHost 1%positive (js "mil") (js "2024-01-01")
              Scenario.heap2) !! l0
       = Scenario.heap2 !! l0.
Proof.
  assert (H1 : Scenario.heap2 !! 1%positive
               = Some [Sample.bread; Scenario.undated; Sample.milk]) by reflexivity.
  assert (H2 : JSString.truthy (js "2024-01-01") = true) by reflexivity.
  assert (H3 : Scenario.undated ∈ [Sample.bread; Scenario.undated; Sample.milk])
    by (apply elem_of_cons; right; apply elem_of_cons; left; reflexivity).
  assert (H4 : JSString.truthy (js "mil") = false
               \/ HistoryView.nameMatches asciiHost (js "mil") Scenario.undated = true)
    by (right; vm_compute; reflexivity).
  assert (H5 : HistoryView.getTime asciiHost Scenario.undated = None)
    by (vm_compute; reflexivity).
  repeat (split; [assumption|]).
  exact (filterEffect_invalid_date asciiHost Scenario.heap2 1%positive
           [Sample.bread; Scenario.undated; Sample.milk] (js "mil") (js "2024-01-01")
           Scenario.undated H1 H2 H3 H4 H5).
Defined.

Lemma filterEffect_stable_witness :
  Scenario.heap3 !! 1%positive = Some [Sample.bread; Scenario.tea; Sample.milk]
  /\ Forall (validDate asciiHost) [Sample.bread; Scenario.tea; Sample.milk]
  /\ exists l h' out,
       HistoryView.filterEffect asciiHost 1%positive [] [] Scenario.heap3 = (Normal l, h')
       /\ h' !! l = Some out
       /\ forall t, List.filter (atTime asciiHost t) out
                    = List.filter (atTime asciiHost t)
                        (List.filter (keeps asciiHost [] [])
                           [Sample.bread; Scenario.tea; Sample.milk]).
Proof.
  assert (H1 : Scenario.heap3 !! 1%positive = Some [Sample.bread; Scenario.tea; Sample.milk])
    by reflexivity.
  assert (H2 : Forall (validDate asciiHost) [Sample.bread; Scenario.tea; Sample.milk])
    by (repeat constructor; eexists; vm_compute; reflexivity).
  split; [exact H1 | split; [exact H2|]].
  exact (filterEffect_stable asciiHost Scenario.heap3 1%positive
           [Sample.bread; Scenario.tea; Sample.milk] [] [] H1 H2).
Defined.

Lemma filterEffect_idempotent_witness :
  Sample.heap1 !! 1%positive = Some [Sample.bread; Sample.milk]
  /\ Forall (validDate asciiHost) [Sample.bread; Sample.milk]
  /\ exists l h' l2 h2,
       HistoryView.filterEffect asciiHost 1%positive (js "mil") [] Sample.heap1 = (Normal l, h')
       /\ HistoryView.filterEffect asciiHost l (js "mil") [] h' = (Normal l2, h2)
       /\ l2 <> l
       /\ h2 !! l2 = h' !! l.
Proof.
  assert (H1 : Sample.heap1 !! 1%positive = Some [Sample.bread; Sample.milk]) by reflexivity.
  assert (H2 : Forall (validDate asciiHost) [Sample.bread; Sample.milk])
    by (repeat constructor; eexists; vm_compute; reflexivity).
  split; [exact H1 | split; [exact H2|]].
  exact (filterEffect_idempotent asciiHost Sample.heap1 1%positive
           [Sample.bread; Sample.milk] (js "mil") [] H1 H2).
Defined.

Lemma not_a_number_is_not_restored_witness :
  denied Sample.emptyStorage = false
  /\ fits Sample.emptyStorage (JSON.stringify (records Scenario.withGift)) = true
  /\ Scenario.gift ∈ records Scenario.withGift
  /\ Number.isFinite (price Scenario.gift) = false
  /\ exists st',
       save Sample.emptyStorage Scenario.withGift = Normal (st', Scenario.withGift, [])
       /\ freshStart st'
          = Normal (Foreign (JArray (map JSON.ofRecord (records Scenario.withGift))))
       /\ JSON.ofNumber (price Scenario.gift) = JNull.
Proof.
  assert (H1 : denied Sample.emptyStorage = false) by reflexivity.
  assert (H2 : fits Sample.emptyStorage (JSON.stringify (records Scenario.withGift)) = true)
    by reflexivity.
  assert (H3 : Scenario.gift ∈ records Scenario.withGift)
    by (apply elem_of_cons; left; reflexivity).
  assert (H4 : Number.isFinite (price Scenario.gift) = false) by (vm_compute; reflexivity).
  repeat (split; [assumption|]).
  exact (not_a_number_is_not_restored Sample.emptyStorage Scenario.withGift Scenario.gift
           H1 H2 H3 H4).
Defined.

Lemma reload_is_exact_witness :
  denied Sample.emptyStorage = false
  /\ (forall p, fits Sample.emptyStorage p = true)
  /\ Forall validRecord (records Sample.withBoth)
  /\ records (setRecords (map storedRecord (records Sample.withBoth)) initial)
     = map storedRecord (records Sample.withBoth)
  /\ exists st' s',
       save Sample.emptyStorage (setRecords (map storedRecord (records Sample.withBoth)) initial)
       = Normal (st', setRecords (map storedRecord (records Sample.withBoth)) initial, [])
       /\ freshStart st' = Normal (Ok s' [])
       /\ records s'
          = records (setRecords (map storedRecord (records Sample.withBoth)) initial).
Proof.
  assert (H1 : denied Sample.emptyStorage = false) by reflexivity.
  assert (H2 : forall p, fits Sample.emptyStorage p = true) by reflexivity.
  assert (H3 : Forall validRecord (records Sample.withBoth))
    by (vm_compute; repeat constructor).
  assert (H4 : records (setRecords (map storedRecord (records Sample.withBoth)) initial)
               = map storedRecord (records Sample.withBoth)) by reflexivity.
  repeat (split; [assumption|]).
  exact (reload_is_exact Sample.emptyStorage
           (setRecords (map storedRecord (records Sample.withBoth)) initial)
           (records Sample.withBoth) H1 H2 H3 H4).
Defined.

Lemma handleAnalyze_settles_witness :
  forallb JSString.isWhiteSpace (analysisQuery Scenario.askTotal) = false
  /\ isLoadingAnalysis (fst (handleAnalyze Scenario.overloaded Scenario.askTotal)) = false
  /\ records (fst (handleAnalyze Scenario.overloaded Scenario.askTotal))
     = records Scenario.askTotal
  /\ analysisQuery (fst (handleAnalyze Scenario.overloaded Scenario.askTotal))
     = analysisQuery Scenario.askTotal
  /\ analysisResult (fst (handleAnalyze Scenario.overloaded Scenario.askTotal)) = []
  /\ exists shown,
       error (fst (handleAnalyze Scenario.overloaded Scenario.askTotal)) = Some shown
       /\ shown <> []
       /\ (js "Service overloaded" <> [] -> shown = js "Service overloaded").
Proof.
  assert (H1 : forallb JSString.isWhiteSpace (analysisQuery Scenario.askTotal) = false)
    by reflexivity.
  split; [exact H1|].
  exact (handleAnalyze_settles Scenario.overloaded Scenario.askTotal H1).
Defined.

Lemma handleFileChange_failure_is_silent_witness :
  (Normal Sample.preview = Throw (js "Quota exceeded")
   \/ exists url, Normal Sample.preview = Normal url
                  /\ Scenario.outOfQuota (JSString.secondPiece 44 url) (js "image/jpeg")
                     = Throw (js "Quota exceeded"))
  /\ error (fst (handleFileChange (Some (Normal Sample.preview)) Scenario.outOfQuota
                   Scenario.located)) = None
  /\ ocrResult (fst (handleFileChange (Some (Normal Sample.preview)) Scenario.outOfQuota
                       Scenario.located)) = None
  /\ imagePreview (fst (handleFileChange (Some (Normal Sample.preview)) Scenario.outOfQuota
                          Scenario.located)) = None
  /\ userLocation (fst (handleFileChange (Some (Normal Sample.preview)) Scenario.outOfQuota
                          Scenario.located)) = None
  /\ isLoadingOcr (fst (handleFileChange (Some (Normal Sample.preview)) Scenario.outOfQuota
                          Scenario.located)) = false
  /\ records (fst (handleFileChange (Some (Normal Sample.preview)) Scenario.outOfQuota
                     Scenario.located)) = records Scenario.located
  /\ forall env form,
       handleAddRecord env form
         (fst (handleFileChange (Some (Normal Sample.preview)) Scenario.outOfQuota
                 Scenario.located))
       = fst (handleFileChange (Some (Normal Sample.preview)) Scenario.outOfQuota
                Scenario.located).
Proof.
  assert (H1 : Normal Sample.preview = Throw (js "Quota exceeded")
               \/ exists url, Normal Sample.preview = Normal url
                    /\ Scenario.outOfQuota (JSString.secondPiece 44 url) (js "image/jpeg")
                       = Throw (js "Quota exceeded"))
    by (right; exists Sample.preview; split; reflexivity).
  split; [exact H1|].
  exact (handleFileChange_failure_is_silent (Normal Sample.preview) Scenario.outOfQuota
           Scenario.located (js "Quota exceeded") H1).
Defined.

Lemma handleFileChange_sends_payload_witness :
  (44%N ∉ js "data:image/jpeg;base64") /\ (44%N ∉ js "/9j/4AAQ")
  /\ snd (handleFileChange
            (Some (Normal (js "data:image/jpeg;base64" ++ 44%N :: js "/9j/4AAQ")))
            Scenario.reads initial)
     = [ExtractCall (Some (js "/9j/4AAQ")) (js "image/jpeg")].
Proof.
  assert (H1 : 44%N ∉ js "data:image/jpeg;base64") by compute_done.
  assert (H2 : 44%N ∉ js "/9j/4AAQ") by compute_done.
  split; [exact H1 | split; [exact H2|]].
  exact (handleFileChange_sends_payload (js "data:image/jpeg;base64") (js "/9j/4AAQ")
           Scenario.reads initial H1 H2).
Defined.

Lemma photo_position_submit_witness :
  Scenario.reads (JSString.secondPiece 44 Sample.preview) (js "image/jpeg")
  = Normal {| productName := js "Milk"; ocrPrice := Number.parseFloat (js "2.5") |}
  /\ Sample.preview <> []
  /\ exists r,
       records (handleAddRecord Sample.breadEnv Sample.breadForm
                  (fst (handleGetLocation (GeoPosition (Number.of_Z 21) (Number.of_Z (-157)))
                          (fst (handleFileChange (Some (Normal Sample.preview)) Scenario.reads
                                  Scenario.located)))))
       = r :: records Scenario.located
       /\ name r = js "Bread"
       /\ location r
          = Some {| latitude := Number.of_Z 21; longitude := Number.of_Z (-157) |}.
Proof.
  assert (H1 : Scenario.reads (JSString.secondPiece 44 Sample.preview) (js "image/jpeg")
               = Normal {| productName := js "Milk";
                           ocrPrice := Number.parseFloat (js "2.5") |}) by reflexivity.
  assert (H2 : Sample.preview <> []) by discriminate.
  split; [exact H1 | split; [exact H2|]].
  eexists. split; [|split].
  - exact (proj1 (photo_position_submit Sample.preview Scenario.reads _
                    (Number.of_Z 21) (Number.of_Z (-157)) Sample.breadEnv Sample.breadForm
                    Scenario.located H1 H2)).
  - reflexivity.
  - reflexivity.
Defined.

Lemma failed_position_request_witness :
  (forall lat lon, GeoError 1 (js "User denied Geolocation") <> GeoPosition lat lon)
  /\ error (fst (handleGetLocation (GeoError 1 (js "User denied Geolocation"))
                   (Sample.formOpen Sample.withMilk))) <> None
  /\ userLocation (fst (handleGetLocation (GeoError 1 (js "User denied Geolocation"))
                          (Sample.formOpen Sample.withMilk)))
     = userLocation (Sample.formOpen Sample.withMilk)
  /\ records (handleAddRecord Sample.breadEnv Sample.breadForm
                (fst (handleGetLocation (GeoError 1 (js "User denied Geolocation"))
                        (Sample.formOpen Sample.withMilk))))
     = records (handleAddRecord Sample.breadEnv Sample.breadForm
                  (Sample.formOpen Sample.withMilk)).
Proof.
  assert (H1 : forall lat lon,
             GeoError 1 (js "User denied Geolocation") <> GeoPosition lat lon)
    by discriminate.
  split; [exact H1|].
  exact (failed_position_request (GeoError 1 (js "User denied Geolocation"))
           Sample.breadEnv Sample.breadForm (Sample.formOpen Sample.withMilk) H1).
Defined.

Lemma unreadable_price_breaks_restart_witness :
  readyToAdd (Sample.formOpen Sample.withMilk)
  /\ Number.isFinite (Number.parseFloat (priceField Scenario.wordForm)) = false
  /\ denied Sample.emptyStorage = false
  /\ (forall p, fits Sample.emptyStorage p = true)
  /\ exists st' added v,
       added = handleAddRecord Sample.breadEnv Scenario.wordForm (Sample.formOpen Sample.withMilk)
       /\ length (records added) = S (length (records (Sample.formOpen Sample.withMilk)))
       /\ save Sample.emptyStorage added = Normal (st', added, [])
       /\ freshStart st' = Normal (Foreign v).
Proof.
  assert (H1 : readyToAdd (Sample.formOpen Sample.withMilk)) by (do 2 eexists; repeat split).
  assert (H2 : Number.isFinite (Number.parseFloat (priceField Scenario.wordForm)) = false)
    by (vm_compute; reflexivity).
  assert (H3 : denied Sample.emptyStorage = false) by reflexivity.
  assert (H4 : forall p, fits Sample.emptyStorage p = true) by reflexivity.
  repeat (split; [assumption|]).
  exact (unreadable_price_breaks_restart Sample.emptyStorage Sample.breadEnv Scenario.wordForm
           (Sample.formOpen Sample.withMilk) H1 H2 H3 H4).
Defined.

End MoreInstances.
